(** * Review scraper (backend/app.py): rating normaliser, record extractor
      and crawl loop, embedded in Rocq.

    The Python functions [parse_rating], [extract_reviews_with_selectors],
    [get_next_page_url], [get_reviews] and [get_llm_selectors] are
    translated to executable definitions.  Exceptions are explicit
    ([outcome]); Python [float] is IEEE binary64, taken from the Standard
    Library's [SpecFloat]; Python [str] is a list of Unicode code points.
    The libraries the program calls (the Unicode tables of the interpreter,
    BeautifulSoup, Selenium, httpx) are interfaces given as type classes. *)

From Stdlib Require Import ZArith NArith List Bool Lia String Ascii.
From Stdlib Require Import SpecFloat.
Import ListNotations.

Local Open Scope Z_scope.

(** ** Python values: exceptions, strings *)

(** The exception classes that occur in the program (all are subclasses of
    [Exception], which is what the program's handlers catch). *)
Inductive exn : Type :=
  | ValueError
  | ZeroDivisionError
  | OverflowError
  | SelectorSyntaxError
  | WebDriverException
  | TimeoutException
  | ScrapingError
  | HTTPException.

Inductive outcome (A : Type) : Type :=
  | Ok (a : A)
  | Raise (e : exn).
Arguments Ok {A} a.
Arguments Raise {A} e.

Definition bind {A B} (m : outcome A) (k : A -> outcome B) : outcome B :=
  match m with
  | Ok a => k a
  | Raise e => Raise e
  end.

Notation "x <- m ;; k" := (bind m (fun x => k))
  (at level 61, m at next level, right associativity).

(** A character is a Unicode code point, a [str] a sequence of them. *)
Abbreviation char := N (only parsing).
Abbreviation str := (list N) (only parsing).

(** Decoder for the UTF-8 bytes of a Rocq string literal, so that the
    program's literals can be written as they are in the source. *)
Fixpoint utf8_go (need : nat) (acc : N) (bs : list N) : str :=
  match bs with
  | [] => []
  | b :: bs' =>
      match need with
      | S k =>
          let acc' := (acc * 64 + N.land b 63)%N in
          match k with
          | O => acc' :: utf8_go O 0%N bs'
          | S _ => utf8_go k acc' bs'
          end
      | O =>
          if (b <? 128)%N then b :: utf8_go O 0%N bs'
          else if (b <? 224)%N then utf8_go 1 (N.land b 31) bs'
          else if (b <? 240)%N then utf8_go 2 (N.land b 15) bs'
          else utf8_go 3 (N.land b 7) bs'
      end
  end.

Definition utf8 (s : string) : str :=
  utf8_go O 0%N (map N_of_ascii (list_ascii_of_string s)).

Definition star : char := 9733%N.  (* U+2605 BLACK STAR *)

Definition is_ascii_digit (c : char) : bool := ((48 <=? c) && (c <=? 57))%N.

(** ASCII part of the tables behind [str.isspace], [str.lower] and the
    decimal-digit property. *)
Definition ascii_space (c : char) : bool :=
  (((9 <=? c) && (c <=? 13)) || ((28 <=? c) && (c <=? 32)))%N.

Definition ascii_decimal (c : char) : option Z :=
  if is_ascii_digit c then Some (Z.of_N c - 48) else None.

Definition ascii_lower (c : char) : char :=
  if ((65 <=? c) && (c <=? 90))%N then (c + 32)%N else c.

(** The character is ASCII or the star glyph: the alphabet on which the
    behaviour of the Unicode tables is fixed below. *)
Definition plain (c : char) : Prop := (c < 128)%N \/ c = star.

(** The interpreter's Unicode database.  It is not part of the repository;
    the program reaches it through [str.strip], [str.lower], the regular
    expression classes [\d] and [\s], and [float].  Its behaviour is fixed
    on ASCII and on the star glyph, where the Unicode standard fixes it. *)
Class Unicode : Type := {
  isspace : char -> bool;
  decimal : char -> option Z;
  lower : str -> str;
  isspace_plain : forall c, plain c -> isspace c = ascii_space c;
  decimal_plain : forall c, plain c -> decimal c = ascii_decimal c;
  lower_plain : forall s, Forall plain s -> lower s = map ascii_lower s
}.

Definition isdecimal `{Unicode} (c : char) : bool :=
  match decimal c with Some _ => true | None => false end.

Section Str.
Context `{Unicode}.

(** [s.strip()] *)
Fixpoint lstrip (s : str) : str :=
  match s with
  | c :: s' => if isspace c then lstrip s' else s
  | [] => []
  end.

Definition rstrip (s : str) : str := rev (lstrip (rev s)).

Definition strip (s : str) : str := rstrip (lstrip s).

(** [s.startswith(p)] *)
Fixpoint startswith (p s : str) : bool :=
  match p, s with
  | [], _ => true
  | a :: p', b :: s' => (a =? b)%N && startswith p' s'
  | _ :: _, [] => false
  end.

(** [sub in s] *)
Fixpoint contains (sub s : str) : bool :=
  startswith sub s ||
  match s with
  | [] => false
  | _ :: s' => contains sub s'
  end.

(** [s.split(sep)] for a non-empty [sep]: the occurrences of [sep] are
    found from the left and do not overlap.  [skip] counts the
    characters of a found separator that are still to be passed, [cur]
    is the part being read, reversed. *)
Fixpoint split_go (sep : str) (skip : nat) (cur : str) (s : str) : list str :=
  match s with
  | [] => [rev cur]
  | c :: s' =>
      match skip with
      | S k => split_go sep k cur s'
      | O =>
          if startswith sep s
          then rev cur :: split_go sep (List.length sep - 1) [] s'
          else split_go sep O (c :: cur) s'
      end
  end.

Definition split (s sep : str) : list str := split_go sep O [] s.

(** [s.count(c)] for a one-character [c] *)
Fixpoint count (s : str) (c : char) : Z :=
  match s with
  | [] => 0
  | a :: s' => (if (a =? c)%N then 1 else 0) + count s' c
  end.
End Str.

(** ** Python [float]: IEEE 754 binary64 *)

Definition prec : Z := 53.
Definition emax : Z := 1024.

Definition float := spec_float.

(** The double nearest to the integer [n] (ties to even): [float(n)]. *)
Definition float_of_Z (n : Z) : float := binary_normalize prec emax n 0 false.

Definition float_mul (x y : float) : float := SFmul prec emax x y.

Definition is_zero (x : float) : bool :=
  match x with S754_zero _ => true | _ => false end.

(** [x / y] on floats raises [ZeroDivisionError] when [y == 0.0]. *)
Definition float_div (x y : float) : outcome float :=
  if is_zero y then Raise ZeroDivisionError else Ok (SFdiv prec emax x y).

(** [x > y] *)
Definition float_gt (x y : float) : bool := SFltb y x.

(** The integer nearest to [m / d], ties to the even one, for [d > 0]. *)
Definition round_half_even_div (m d : Z) : Z :=
  let q := m / d in
  let r := m mod d in
  match 2 * r ?= d with
  | Lt => q
  | Gt => q + 1
  | Eq => if Z.even q then q else q + 1
  end.

(** [round(x)] with one argument: the nearest integer, ties to even, as a
    Python [int]; infinities raise [OverflowError], NaN [ValueError]. *)
Definition py_round (x : float) : outcome Z :=
  match x with
  | S754_nan => Raise ValueError
  | S754_infinity _ => Raise OverflowError
  | S754_zero _ => Ok 0
  | S754_finite s m e =>
      let a := if 0 <=? e then Zpos m * 2 ^ e
               else round_half_even_div (Zpos m) (2 ^ (- e)) in
      Ok (if s then - a else a)
  end.

(** The double nearest to [(-1)^neg * m * 10^e10], the value of a decimal
    numeral: what [float(s)] returns for a numeral [s]. *)
Definition float_of_decimal (neg : bool) (m : Z) (e10 : Z) : float :=
  match m with
  | Zpos p =>
      if 0 <=? e10
      then binary_round prec emax neg (p * Z.to_pos (10 ^ e10)) 0
      else SFdiv prec emax (S754_finite neg p 0)
                           (S754_finite false (Z.to_pos (10 ^ (- e10))) 0)
  | _ => S754_zero neg
  end.

Section FloatOfStr.
Context `{Unicode}.

(** First step of [float(s)]: ASCII is kept, other white space becomes a
    blank, other decimal digits become ASCII digits, and the first other
    character ends the text with a question mark. *)
Fixpoint to_ascii_numeral (s : str) : str :=
  match s with
  | [] => []
  | c :: s' =>
      if (c <? 127)%N then c :: to_ascii_numeral s'
      else if isspace c then 32%N :: to_ascii_numeral s'
      else match decimal c with
           | Some d => Z.to_N (48 + d) :: to_ascii_numeral s'
           | None => [63%N]
           end
  end.
End FloatOfStr.

(** White space of the C locale, which [float] strips after the first step. *)
Definition c_isspace (c : char) : bool :=
  (((9 <=? c) && (c <=? 13)) || (c =? 32))%N.

Fixpoint c_lstrip (s : str) : str :=
  match s with
  | c :: s' => if c_isspace c then c_lstrip s' else s
  | [] => []
  end.

Definition c_strip (s : str) : str := rev (c_lstrip (rev (c_lstrip s))).

(** Underscores are allowed only between two digits and are dropped.
    [prev] is the character before, or 0 at the start. *)
Fixpoint drop_underscores (prev : char) (s : str) : outcome str :=
  match s with
  | [] => if (prev =? 95)%N then Raise ValueError else Ok []
  | c :: s' =>
      if (c =? 95)%N then
        if is_ascii_digit prev then drop_underscores c s' else Raise ValueError
      else
        if (prev =? 95)%N && negb (is_ascii_digit c) then Raise ValueError
        else r <- drop_underscores c s' ;; Ok (c :: r)
  end.

(** Longest prefix of ASCII digits, and the rest. *)
Fixpoint span_digits (s : str) : str * str :=
  match s with
  | c :: s' =>
      if is_ascii_digit c
      then let '(ds, r) := span_digits s' in (c :: ds, r)
      else ([], s)
  | [] => ([], [])
  end.

(** The value of a sequence of ASCII digits, read after [acc]. *)
Fixpoint digits_value (acc : Z) (ds : str) : Z :=
  match ds with
  | [] => acc
  | c :: ds' => digits_value (10 * acc + (Z.of_N c - 48)) ds'
  end.

Definition take_sign (s : str) : bool * str :=
  match s with
  | c :: s' =>
      if (c =? 45)%N then (true, s')
      else if (c =? 43)%N then (false, s')
      else (false, s)
  | [] => (false, [])
  end.

Definition str_eqb (a b : str) : bool :=
  (List.length a =? List.length b)%nat && startswith a b.

(** The exponent part: empty, or [e] or [E], an optional sign and at least
    one digit, up to the end of the text. *)
Definition parse_exponent (s : str) : outcome Z :=
  match s with
  | [] => Ok 0
  | c :: s' =>
      if ((c =? 101) || (c =? 69))%N then
        let '(neg, s1) := take_sign s' in
        match span_digits s1 with
        | ((_ :: _) as ds, []) =>
            let e := digits_value 0 ds in Ok (if neg then - e else e)
        | _ => Raise ValueError
        end
      else Raise ValueError
  end.

(** A numeral without underscores: a sign, then [inf], [infinity] or [nan]
    in any case, or digits with an optional point and exponent.  The whole
    text has to be consumed. *)
Definition parse_float_literal (s : str) : outcome float :=
  let '(neg, s1) := take_sign s in
  let low := map ascii_lower s1 in
  if str_eqb low (utf8 "inf") || str_eqb low (utf8 "infinity")
  then Ok (S754_infinity neg)
  else if str_eqb low (utf8 "nan") then Ok S754_nan
  else
    let '(ip, s2) := span_digits s1 in
    let '(fp, s3) :=
      match s2 with
      | c :: s2' => if (c =? 46)%N then span_digits s2' else ([], s2)
      | [] => ([], [])
      end in
    match ip ++ fp with
    | [] => Raise ValueError
    | ds =>
        e <- parse_exponent s3 ;;
        Ok (float_of_decimal neg (digits_value 0 ds) (e - Z.of_nat (List.length fp)))
    end.

(** [float(s)] for a [str] argument. *)
Definition float_of_str `{Unicode} (s : str) : outcome float :=
  let s1 := c_strip (to_ascii_numeral s) in
  s2 <- (if contains [95%N] s1 then drop_underscores 0%N s1 else Ok s1) ;;
  parse_float_literal s2.

(** ** Regular expressions of the program

    Both patterns of the program are sequences of character classes with
    greedy quantifiers; the matcher backtracks as Python's [re] does: a
    quantifier first takes as much as it can and gives back one character
    at a time when the rest of the pattern fails. *)

Inductive quant : Type := One | Opt | Many | Many1.

Inductive node : Type :=
  | Cls (p : char -> bool) (q : quant)
  | GroupEnd.  (* end of capture group 1, which opens where the match starts *)

Section Matcher.
Context {R : Type}.

(** [p*] followed by the continuation [k]; [pos] is the offset from the
    start of the match. *)
Fixpoint many (p : char -> bool) (k : str -> nat -> option R)
         (s : str) (pos : nat) : option R :=
  match s with
  | c :: s' =>
      if p c then
        match many p k s' (S pos) with
        | Some r => Some r
        | None => k s pos
        end
      else k s pos
  | [] => k s pos
  end.
End Matcher.

(** Match of a pattern at the start of [s]: the length of the match and the
    length of group 1. *)
Fixpoint rmatch (pat : list node) (g : nat) (s : str) (pos : nat)
  : option (nat * nat) :=
  match pat with
  | [] => Some (pos, g)
  | GroupEnd :: pat' => rmatch pat' pos s pos
  | Cls p One :: pat' =>
      match s with
      | c :: s' => if p c then rmatch pat' g s' (S pos) else None
      | [] => None
      end
  | Cls p Opt :: pat' =>
      match s with
      | c :: s' =>
          if p c then
            match rmatch pat' g s' (S pos) with
            | Some r => Some r
            | None => rmatch pat' g s pos
            end
          else rmatch pat' g s pos
      | [] => rmatch pat' g s pos
      end
  | Cls p Many :: pat' => many p (rmatch pat' g) s pos
  | Cls p Many1 :: pat' =>
      match s with
      | c :: s' => if p c then many p (rmatch pat' g) s' (S pos) else None
      | [] => None
      end
  end.

(** [re.findall(pat, s)] for a pattern without groups that matches no empty
    text: the matches from the left, not overlapping. *)
Fixpoint findall_go (pat : list node) (skip : nat) (s : str) : list str :=
  match s with
  | [] => []
  | _ :: s' =>
      match skip with
      | S k => findall_go pat k s'
      | O =>
          match rmatch pat O s O with
          | Some (n, _) => firstn n s :: findall_go pat (n - 1) s'
          | None => findall_go pat O s'
          end
      end
  end.

Definition findall (pat : list node) (s : str) : list str := findall_go pat O s.

(** [re.search(pat, s)]: the leftmost match; its group 1. *)
Fixpoint search (pat : list node) (s : str) : option str :=
  match rmatch pat O s O with
  | Some (_, g) => Some (firstn g s)
  | None =>
      match s with
      | [] => None
      | _ :: s' => search pat s'
      end
  end.

Definition lit (s : string) : list node :=
  map (fun c => Cls (N.eqb c) One) (utf8 s).

Section Patterns.
Context `{Unicode}.

(** The pattern of [extract_first_number]: one or more digits, an
    optional point, any number of digits. *)
Definition number_re : list node :=
  [Cls isdecimal Many1; Cls (N.eqb 46) Opt; Cls isdecimal Many].

(** The pattern of the Judge.me case: group 1 is the pattern above; then
    white space, the text "out of", white space, one or more digits. *)
Definition judge_me_re : list node :=
  [Cls isdecimal Many1; Cls (N.eqb 46) Opt; Cls isdecimal Many; GroupEnd;
   Cls isspace Many] ++ lit "out of" ++ [Cls isspace Many; Cls isdecimal Many1].
End Patterns.

(** ** The rating normaliser: [parse_rating] *)

Section ParseRating.
Context `{Unicode}.

(** The inner function of [parse_rating]:
    [float(numbers[0]) if numbers else None]. *)
Definition extract_first_number (text : str) : outcome (option float) :=
  match findall number_re text with
  | [] => Ok None
  | n :: _ => x <- float_of_str n ;; Ok (Some x)
  end.

(** [min(5, max(1, int(round(x))))] *)
Definition clamp_round (x : float) : outcome Z :=
  n <- py_round x ;; Ok (Z.min 5 (Z.max 1 n)).

(** Each rule of the body returns [Some r] when the function returns [r]
    there and [None] when control falls through to the next rule. *)

(** "X out of Y" *)
Definition rule_out_of (text : str) : outcome (option Z) :=
  if contains (utf8 "out of") text then
    let parts := split text (utf8 "out of") in
    if (2 <=? List.length parts)%nat then
      rating_value <- extract_first_number (nth 0 parts []) ;;
      scale <- extract_first_number (nth 1 parts []) ;;
      match rating_value, scale with
      | Some rv, Some sc =>
          q <- float_div (float_mul rv (float_of_Z 5)) sc ;;
          r <- clamp_round q ;;
          Ok (Some r)
      | _, _ => Ok None
      end
    else Ok None
  else Ok None.

(** Star glyphs *)
Definition rule_stars (text : str) : outcome (option Z) :=
  if contains [star] text then Ok (Some (count text star)) else Ok None.

(** "X/Y"; the inner handler catches [ValueError] only. *)
Definition rule_fraction (text : str) : outcome (option Z) :=
  if contains (utf8 "/") text then
    let parts := split text (utf8 "/") in
    if (List.length parts =? 2)%nat then
      match (num <- float_of_str (strip (nth 0 parts [])) ;;
             denom <- float_of_str (strip (nth 1 parts [])) ;;
             q <- float_div (float_mul num (float_of_Z 5)) denom ;;
             clamp_round q) with
      | Ok r => Ok (Some r)
      | Raise ValueError => Ok None
      | Raise e => Raise e
      end
    else Ok None
  else Ok None.

(** The first number of the text, halved when it exceeds 5. *)
Definition rule_number (text : str) : outcome (option Z) :=
  rating <- extract_first_number text ;;
  match rating with
  | Some rating =>
      rating' <- (if float_gt rating (float_of_Z 5)
                  then float_div rating (float_of_Z 2)
                  else Ok rating) ;;
      r <- clamp_round rating' ;;
      Ok (Some r)
  | None => Ok None
  end.

(** Run the rules in order until one returns. *)
Fixpoint first_return (rules : list (str -> outcome (option Z)))
         (default : Z) (text : str) : outcome Z :=
  match rules with
  | [] => Ok default
  | rule :: rules' =>
      r <- rule text ;;
      match r with
      | Some v => Ok v
      | None => first_return rules' default text
      end
  end.

(** The body of the [try] block. *)
Definition parse_rating_body (rating_text : str) : outcome Z :=
  let text := lower (strip rating_text) in
  match text with
  | [] => Ok 5
  | _ =>
      first_return [rule_out_of; rule_stars; rule_fraction; rule_number] 5 text
  end.

(** [parse_rating]: the handler of the [try] block turns every
    exception into the default 5. *)
Definition parse_rating (rating_text : str) : outcome Z :=
  match parse_rating_body rating_text with
  | Ok r => Ok r
  | Raise _ => Ok 5
  end.
End ParseRating.

(** ** A concrete Unicode table, exact on ASCII and the star glyph

    Used to run the program on concrete texts. *)
Module Ascii_table.
Definition isspace (c : char) : bool := ascii_space c.
Definition decimal (c : char) : option Z := ascii_decimal c.
Definition lower (s : str) : str := map ascii_lower s.
End Ascii_table.

#[export] Instance ascii_unicode : Unicode := {|
  isspace := Ascii_table.isspace;
  decimal := Ascii_table.decimal;
  lower := Ascii_table.lower;
  isspace_plain := fun _ _ => eq_refl;
  decimal_plain := fun _ _ => eq_refl;
  lower_plain := fun _ _ => eq_refl
|}.

(** ** Data model: the pydantic classes *)

Module Review.
Record t : Type := {
  title : str;
  body : str;
  rating : Z;
  reviewer : str;
  date : option str
}.
End Review.

Module ReviewSelectors.
Record t : Type := {
  container : str;
  title : option str;
  rating : option str;
  body : option str;
  reviewer : option str;
  date : option str;
  pagination : option str
}.
End ReviewSelectors.

Definition get_default_selectors : ReviewSelectors.t := {|
  ReviewSelectors.container := utf8 "div[class*='review'], div[class*='comment']";
  ReviewSelectors.title := Some (utf8 "h3, h4, strong");
  ReviewSelectors.rating := Some (utf8 "span[class*='rating'], div[class*='stars']");
  ReviewSelectors.body := Some (utf8 "div[class*='content'], div[class*='text']");
  ReviewSelectors.reviewer := Some (utf8 "span[class*='author'], span[class*='name']");
  ReviewSelectors.date := Some (utf8 "span[class*='date']");
  ReviewSelectors.pagination := Some (utf8 "ul.pagination a, div[class*='pagination'] a")
|}.

(** ** The record extractor: [extract_reviews_with_selectors] *)

(** BeautifulSoup, as far as the program uses it: parsing a document,
    [select] on the document, [select_one] and [.text] on a tag.  Parsing
    and selecting may raise (a selector that is not valid CSS, for one). *)
Class Bs4 : Type := {
  soup : Type;
  tag : Type;
  BeautifulSoup : str -> outcome soup;
  select : soup -> str -> outcome (list tag);
  select_one : tag -> str -> outcome (option tag);
  text : tag -> str
}.

Section Extractor.
Context `{Unicode} `{Bs4}.

(** [container.select_one(sel) if sel else None]: an absent selector and
    the empty selector are both false. *)
Definition select_field (c : tag) (sel : option str) : outcome (option tag) :=
  match sel with
  | Some ((_ :: _) as s) => select_one c s
  | _ => Ok None
  end.

(** [elem.text.strip() if elem else default]; a tag is always true. *)
Definition text_or {A} (elem : option tag) (f : str -> A) (default : A) : A :=
  match elem with
  | Some e => f (strip (text e))
  | None => default
  end.

(** The Judge.me case: keep only the number before "out of". *)
Definition judge_me (rating_text : str) : str :=
  if contains (utf8 "judge.me") (lower rating_text) then
    match search judge_me_re rating_text with
    | Some g => g
    | None => utf8 "5"
    end
  else rating_text.

(** The body of the inner [try]: the record of one container. *)
Definition extract_review (c : tag) (selectors : ReviewSelectors.t)
  : outcome Review.t :=
  title_elem <- select_field c (ReviewSelectors.title selectors) ;;
  let title := text_or title_elem id (utf8 "Review") in
  rating_elem <- select_field c (ReviewSelectors.rating selectors) ;;
  let rating_text := text_or rating_elem id (utf8 "5") in
  let rating_text := judge_me rating_text in
  rating <- parse_rating rating_text ;;
  body_elem <- select_field c (ReviewSelectors.body selectors) ;;
  let body := text_or body_elem id (strip (text c)) in
  reviewer_elem <- select_field c (ReviewSelectors.reviewer selectors) ;;
  let reviewer := text_or reviewer_elem id (utf8 "Anonymous") in
  date_elem <- select_field c (ReviewSelectors.date selectors) ;;
  let date := text_or date_elem Some None in
  Ok {| Review.title := title; Review.body := body; Review.rating := rating;
        Review.reviewer := reviewer; Review.date := date |}.

(** The [for] loop: a container whose extraction raises is skipped. *)
Fixpoint extract_loop (containers : list tag) (selectors : ReviewSelectors.t)
         (reviews : list Review.t) : list Review.t :=
  match containers with
  | [] => reviews
  | c :: containers' =>
      match extract_review c selectors with
      | Ok r => extract_loop containers' selectors (reviews ++ [r])
      | Raise _ => extract_loop containers' selectors reviews
      end
  end.

(** The outer handler returns the empty list. *)
Definition extract_reviews_with_selectors
           (html_content : str) (selectors : ReviewSelectors.t)
  : outcome (list Review.t) :=
  match (soup <- BeautifulSoup html_content ;;
         containers <- select soup (ReviewSelectors.container selectors) ;;
         Ok (extract_loop containers selectors [])) with
  | Ok reviews => Ok reviews
  | Raise _ => Ok []
  end.
End Extractor.

(** ** The crawl: [get_next_page_url] and [get_reviews] *)

(** Selenium, as far as the program uses it.  [browser] is the state of the
    headless browser; every call may raise. *)
Class Selenium : Type := {
  browser : Type;
  web_element : Type;
  Chrome : outcome browser;
  driver_get : browser -> str -> outcome browser;
  wait_for_body : browser -> outcome unit;
  page_source : browser -> outcome str;
  find_elements : browser -> option str -> outcome (list web_element);
  element_text : web_element -> outcome str;
  get_attribute : web_element -> str -> outcome (option str)
}.

(** What the program does to the browser, in order: [driver.get(url)],
    with whether the call returned, and [driver.quit()]. *)
Inductive event : Type :=
  | EvGet (url : str) (completed : bool)
  | EvQuit.

(** The dictionary that [get_reviews] returns. *)
Record crawl_result : Type := {
  reviews_count : Z;
  pages_processed : Z;
  reviews : list Review.t
}.

Section Crawl.
Context `{Unicode} `{Bs4} `{Selenium}.

Definition setup_driver : outcome browser :=
  match Chrome with
  | Ok d => Ok d
  | Raise _ => Raise ScrapingError
  end.

Definition next_texts : list str :=
  [utf8 "next"; utf8 "›"; utf8 "»"; utf8 "forward"].

(** The [for] loop of [get_next_page_url]. *)
Fixpoint first_next (elements : list web_element) : outcome (option str) :=
  match elements with
  | [] => Ok None
  | element :: elements' =>
      t <- element_text element ;;
      if existsb (fun next_text => contains next_text (lower t)) next_texts
      then get_attribute element (utf8 "href")
      else first_next elements'
  end.

Definition get_next_page_url (driver : browser) (selectors : ReviewSelectors.t)
  : option str :=
  match (pagination_elements <-
           find_elements driver (ReviewSelectors.pagination selectors) ;;
         first_next pagination_elements) with
  | Ok r => r
  | Raise _ => None
  end.

(** The variables of [get_reviews] that the loop changes, and the events
    so far. *)
Record crawl_state : Type := {
  driver : browser;
  current_url : str;
  page_count : Z;
  all_reviews : list Review.t;
  trace : list event
}.

(** How the loop ends: it is left (by its condition or by [break]), or an
    exception leaves it. *)
Inductive loop_end : Type :=
  | Left (st : crawl_state)
  | Thrown (e : exn) (tr : list event).

Definition truthy (s : str) : bool :=
  match s with [] => false | _ :: _ => true end.

(** The [while] loop.  [n] bounds the number of iterations; it is not
    reached when [n] is at least [max_pages - page_count]
    (lemma [crawl_loop_fuel]). *)
Fixpoint crawl_loop (n : nat) (max_pages : Z) (selectors : ReviewSelectors.t)
         (st : crawl_state) : loop_end :=
  if truthy (current_url st) && (page_count st <? max_pages) then
    match n with
    | O => Left st
    | S n' =>
        match (html <- page_source (driver st) ;;
               extract_reviews_with_selectors html selectors) with
        | Raise e => Thrown e (trace st)
        | Ok reviews =>
            let all_reviews' := all_reviews st ++ reviews in
            let break current_url' trace' :=
              Left {| driver := driver st; current_url := current_url';
                      page_count := page_count st;
                      all_reviews := all_reviews'; trace := trace' |} in
            match get_next_page_url (driver st) selectors with
            | None => break (current_url st) (trace st)
            | Some next_url =>
                if negb (truthy next_url) || str_eqb next_url (current_url st)
                then break (current_url st) (trace st)
                else
                  match driver_get (driver st) next_url with
                  | Raise _ =>
                      break next_url (trace st ++ [EvGet next_url false])
                  | Ok driver' =>
                      crawl_loop n' max_pages selectors
                        {| driver := driver'; current_url := next_url;
                           page_count := page_count st + 1;
                           all_reviews := all_reviews';
                           trace := trace st ++ [EvGet next_url true] |}
                  end
            end
        end
    end
  else Left st.

(** [get_reviews(url, max_pages)]: the events and what the endpoint
    returns; every exception becomes an [HTTPException], and the browser
    is quit once it exists. *)
Definition get_reviews (url : str) (max_pages : Z)
  : list event * outcome crawl_result :=
  match setup_driver with
  | Raise _ => ([], Raise HTTPException)
  | Ok driver0 =>
      match driver_get driver0 url with
      | Raise _ => ([EvGet url false; EvQuit], Raise HTTPException)
      | Ok driver1 =>
          match wait_for_body driver1 with
          | Raise _ => ([EvGet url true; EvQuit], Raise HTTPException)
          | Ok _ =>
              let selectors := get_default_selectors in
              match crawl_loop (Z.to_nat max_pages) max_pages selectors
                      {| driver := driver1; current_url := url;
                         page_count := 0; all_reviews := [];
                         trace := [EvGet url true] |} with
              | Thrown _ tr => (tr ++ [EvQuit], Raise HTTPException)
              | Left st =>
                  (trace st ++ [EvQuit],
                   Ok {| reviews_count := Z.of_nat (List.length (all_reviews st));
                         pages_processed := page_count st + 1;
                         reviews := all_reviews st |})
              end
          end
      end
  end.
End Crawl.

(** ** The selector oracle: [get_llm_selectors] *)

(** The body of the request to the language model: the dictionary
    [{"model": ..., "prompt": ..., "stream": ...}]. *)
Module Generate.
Record t : Type := {
  model : str;
  prompt : str;
  stream : bool
}.
End Generate.

(** httpx, the JSON decoder and the validation of pydantic, as far as the
    program uses them.  Every call may raise; which exception it is does
    not matter, since the handlers of [get_llm_selectors] catch every
    [Exception]. *)
Class Httpx : Type := {
  client : Type;
  response : Type;
  json : Type;
  AsyncClient : outcome client;   (* the client is made and entered *)
  aclose : client -> outcome unit;   (* the client is left *)
  client_get : client -> str -> outcome response;
  client_post : client -> str -> Generate.t -> outcome response;
  status_code : response -> Z;
  response_json : response -> outcome json;
  getitem : json -> str -> outcome json;
  json_loads : json -> outcome json;
  ReviewSelectors_kwargs : json -> outcome ReviewSelectors.t
}.

(** The requests that the program sends, in order. *)
Inductive request : Type :=
  | ReqGet (url : str)
  | ReqPost (url : str) (body : Generate.t).

Definition OLLAMA_ENDPOINT : str := utf8 "http://localhost:11434/api/generate".

Definition version_url : str := utf8 "http://localhost:11434/api/version".

(** The f-string of the prompt; [html_sample[:2000]] is [firstn 2000]. *)
Definition prompt (html_sample url : str) : str :=
  utf8 "Analyze this HTML from " ++ url
  ++ utf8 " and identify the CSS selectors for review elements." ++ [10%N]
  ++ utf8 "    Return only a JSON object with these keys: container, title, rating, body, reviewer, date, pagination."
  ++ [10%N]
  ++ utf8 "    Each value should be a CSS selector string or null if not found."
  ++ [10%N]
  ++ utf8 "    Sample HTML:" ++ [10%N]
  ++ utf8 "    " ++ firstn 2000 html_sample
  ++ utf8 "  # Send first 2000 chars as sample" ++ [10%N]
  ++ utf8 "    ".

Section LlmSelectors.
Context `{Httpx}.

(** The inner [try] after a reply of status 200:
    [ReviewSelectors( **json.loads(response.json()["response"]))]. *)
Definition parse_reply (r : response) : outcome ReviewSelectors.t :=
  j <- response_json r ;;
  response_text <- getitem j (utf8 "response") ;;
  selectors <- json_loads response_text ;;
  ReviewSelectors_kwargs selectors.

(** The block under [async with]: the requests sent, and what the block
    returns or raises. *)
Definition ask_model (c : client) (html_sample url : str)
  : list request * outcome ReviewSelectors.t :=
  match client_get c version_url with
  | Raise _ => ([ReqGet version_url], Ok get_default_selectors)
  | Ok _ =>
      let body := {| Generate.model := utf8 "mistral";
                     Generate.prompt := prompt html_sample url;
                     Generate.stream := false |} in
      let sent := [ReqGet version_url; ReqPost OLLAMA_ENDPOINT body] in
      match client_post c OLLAMA_ENDPOINT body with
      | Raise e => (sent, Raise e)
      | Ok r =>
          if status_code r =? 200 then
            match parse_reply r with
            | Ok selectors => (sent, Ok selectors)
            | Raise _ => (sent, Ok get_default_selectors)
            end
          else (sent, Ok get_default_selectors)
      end
  end.

(** [get_llm_selectors(html_sample, url)]: the requests sent and the
    selectors returned.  The outer handler turns every exception, of the
    block or of entering and leaving the client, into the default
    selectors. *)
Definition get_llm_selectors (html_sample url : str)
  : list request * ReviewSelectors.t :=
  match AsyncClient with
  | Raise _ => ([], get_default_selectors)
  | Ok c =>
      let '(sent, r) := ask_model c html_sample url in
      match (selectors <- r ;; _ <- aclose c ;; Ok selectors) with
      | Ok selectors => (sent, selectors)
      | Raise _ => (sent, get_default_selectors)
      end
  end.
End LlmSelectors.

(** ** A small site to run the program on

    A test double for BeautifulSoup and Selenium: an element carries its
    text and its descendants, each under the selector that selects it; a
    page carries its source, the document that the source parses to and
    its pagination links. *)
Module Demo.
#[local] Set Warnings "-register-all".
Inductive elem : Type :=
  | Elem (text : str) (children : list (str * elem))
  | Broken.  (* an element on which every [select_one] raises *)

Definition elem_text (e : elem) : str :=
  match e with Elem t _ => t | Broken => [] end.
Definition elem_children (e : elem) : list (str * elem) :=
  match e with Elem _ c => c | Broken => [] end.

Definition select_all (e : elem) (sel : str) : list elem :=
  map snd (filter (fun kv => str_eqb (fst kv) sel) (elem_children e)).

Record page : Type := {
  source : str;
  document : elem;
  links : list (str * option str)  (* text and href of the pagination links *)
}.

Definition site := list (str * page).

Fixpoint lookup {A} (k : str) (l : list (str * A)) : option A :=
  match l with
  | [] => None
  | (k', v) :: l' => if str_eqb k' k then Some v else lookup k l'
  end.

Definition bs4 (w : site) : Bs4 := {|
  soup := elem;
  tag := elem;
  BeautifulSoup html :=
    match lookup html (map (fun up => (source (snd up), document (snd up))) w) with
    | Some d => Ok d
    | None => Ok (Elem [] [])
    end;
  select d sel := Ok (select_all d sel);
  select_one e sel :=
    match e with
    | Broken => Raise SelectorSyntaxError
    | Elem _ _ => Ok (hd_error (select_all e sel))
    end;
  text := elem_text
|}.

Definition selenium (w : site) : Selenium := {|
  browser := page;
  web_element := str * option str;
  Chrome := Ok {| source := []; document := Elem [] []; links := [] |};
  driver_get _ url :=
    match lookup url w with
    | Some p => Ok p
    | None => Raise WebDriverException
    end;
  wait_for_body _ := Ok tt;
  page_source p := Ok (source p);
  find_elements p sel :=
    match sel with
    | Some _ => Ok (links p)
    | None => Raise WebDriverException
    end;
  element_text e := Ok (fst e);
  get_attribute e _ := Ok (snd e)
|}.

(** A review container with a title, a rating text, a body, a reviewer
    and a date, under the default selectors. *)
Definition review (title rating body reviewer date : string) : str * elem :=
  let sel := get_default_selectors in
  let field (s : option str) (t : string) :=
    (match s with Some k => k | None => [] end, Elem (utf8 t) []) in
  (ReviewSelectors.container sel,
   Elem (utf8 body)
     [field (ReviewSelectors.title sel) title;
      field (ReviewSelectors.rating sel) rating;
      field (ReviewSelectors.body sel) body;
      field (ReviewSelectors.reviewer sel) reviewer;
      field (ReviewSelectors.date sel) date]).

Definition url1 : str := utf8 "https://shop.example/reviews".
Definition url2 : str := utf8 "https://shop.example/reviews?page=2".

(** Two pages: three reviews and a "Next" link, then two reviews and no
    link. *)
Definition two_pages : site :=
  [(url1, {| source := utf8 "<html>page 1</html>";
             document := Elem []
               [review "Great" "5 out of 5" "Works well" "Ann" "2024-01-02";
                review "Fine" "★★★★☆" "Does the job" "Bob" "2024-01-03";
                review "Poor" "2/5" "Broke soon" "Cy" "2024-01-04"];
             links := [(utf8 "1", Some url1); (utf8 "Next »", Some url2)] |});
   (url2, {| source := utf8 "<html>page 2</html>";
             document := Elem []
               [review "Good" "8/10" "Solid" "Di" "2024-01-05";
                review "Okay" "3" "Average" "Ed" "2024-01-06"];
             links := [(utf8 "1", Some url1)] |})].

(** One page whose only review shows six star glyphs. *)
Definition six_stars : site :=
  [(url1, {| source := utf8 "<html>six</html>";
             document := Elem []
               [review "Superb" "★★★★★★" "Beyond the scale" "Flo" "2024-01-07"];
             links := [] |})].

(** One page with a container that cannot be extracted between two that
    can, the second of them without a rating and without a date. *)
Definition broken_between : site :=
  [(url1, {| source := utf8 "<html>broken</html>";
             document := Elem []
               [review "Great" "5 out of 5" "Works well" "Ann" "2024-01-02";
                (ReviewSelectors.container get_default_selectors, Broken);
                (ReviewSelectors.container get_default_selectors,
                 Elem (utf8 " Plain text ") [])];
             links := [] |})].

Definition run (w : site) (url : str) (max_pages : Z) :=
  @get_reviews ascii_unicode (bs4 w) (selenium w) url max_pages.
End Demo.

(** *** Further sites and a language model service *)

(** One page whose "Next" link leads to a URL that cannot be loaded. *)
Definition dead_link : Demo.site :=
  [(Demo.url1,
    {| Demo.source := utf8 "<html>page 1</html>";
       Demo.document := Demo.Elem []
         [Demo.review "Great" "5 out of 5" "Works well" "Ann" "2024-01-02"];
       Demo.links := [(utf8 "NEXT", Some (utf8 "https://shop.example/gone"))] |})].

(** One page whose "Next" link leads to the page itself. *)
Definition self_link : Demo.site :=
  [(Demo.url1,
    {| Demo.source := utf8 "<html>page 1</html>";
       Demo.document := Demo.Elem []
         [Demo.review "Great" "5 out of 5" "Works well" "Ann" "2024-01-02"];
       Demo.links := [(utf8 "Next", Some Demo.url1)] |})].

(** A language model service for running [get_llm_selectors]: whether the
    probe is answered, the status of the reply, and the selectors that the
    reply decodes to, if it does. *)
Definition ollama (up : bool) (status : Z) (reply : option ReviewSelectors.t)
  : Httpx := {|
  client := unit;
  response := unit;
  json := unit;
  AsyncClient := Ok tt;
  aclose _ := Ok tt;
  client_get _ _ := if up then Ok tt else Raise WebDriverException;
  client_post _ _ _ := Ok tt;
  status_code _ := status;
  response_json _ := Ok tt;
  getitem _ _ := Ok tt;
  json_loads _ := Ok tt;
  ReviewSelectors_kwargs _ :=
    match reply with Some s => Ok s | None => Raise ValueError end
|}.


(** * Vocabulary of the properties *)

(** A numeral: one or more ASCII digits. *)
Definition numeral (ds : str) : Prop :=
  ds <> [] /\ Forall (fun c => is_ascii_digit c = true) ds.

(** Case analysis on the comparisons of code points in the goal. *)
Ltac ncases :=
  repeat match goal with
  | |- context [(?a <=? ?b)%N] => destruct (N.leb_spec a b)
  | |- context [(?a <? ?b)%N] => destruct (N.ltb_spec a b)
  | |- context [(?a =? ?b)%N] => destruct (N.eqb_spec a b)
  end; cbn [andb orb negb] in *; try reflexivity; try discriminate; try lia.

(** What may follow a number: nothing, or a character that is neither a
    digit nor a point. *)
Definition number_end `{Unicode} (r : str) : Prop :=
  match r with
  | [] => True
  | c :: _ => isdecimal c = false /\ c <> 46%N
  end.

(** The rating of a number [x]: the last rule of [parse_rating]. *)
Definition number_rating (x : float) : Z :=
  match (x' <- (if float_gt x (float_of_Z 5)
                then float_div x (float_of_Z 2) else Ok x) ;;
         clamp_round x') with
  | Ok r => r
  | Raise _ => 5
  end.

(** The rating of [x] on a scale of [y]: the "out of" and fraction rules. *)
Definition ratio_rating (x y : float) : Z :=
  match (q <- float_div (float_mul x (float_of_Z 5)) y ;; clamp_round q) with
  | Ok r => r
  | Raise _ => 5
  end.

(** A float that is not a NaN and not negative. *)
Definition nonneg_float (x : float) : Prop :=
  match x with
  | S754_zero s | S754_infinity s | S754_finite s _ _ => s = false
  | S754_nan => False
  end.

(** The double is an infinity, or a canonical finite double of value at
    least 10. *)
Definition at_least_10 (x : float) : Prop :=
  match x with
  | S754_infinity false => True
  | S754_finite false m e =>
      Zpos (digits2_pos m) = 53 /\ -52 <= e <= 971
      /\ (0 < e \/ 10 * 2 ^ (- e) <= Zpos m)
  | _ => False
  end.

(** Clamping to the scale: [min(5, max(1, n))]. *)
Definition clamp (n : Z) : Z := Z.min 5 (Z.max 1 n).

(** Following the spec's words, in exact arithmetic:
    clamp(round(N*5/M), 1, 5), rounding to the nearest integer (ties to
    even, as Python's [round]). *)
Definition spec_ratio (N M : Z) : Z := clamp (round_half_even_div (N * 5) M).

(** [r] is an integer nearest to [a / b], whatever the tie rule. *)
Definition nearest_to (r a b : Z) : Prop := 2 * Z.abs (r * b - a) <= b.

(** What one container adds to the result: its record, or nothing when its
    extraction raises. *)
Definition kept `{Unicode} `{Bs4} (selectors : ReviewSelectors.t) (c : tag)
  : list Review.t :=
  match extract_review c selectors with
  | Ok r => [r]
  | Raise _ => []
  end.

(** The number of [driver.get] calls in a trace that returned. *)
Fixpoint completed_gets (tr : list event) : Z :=
  match tr with
  | [] => 0
  | EvGet _ true :: tr' => 1 + completed_gets tr'
  | _ :: tr' => completed_gets tr'
  end.

(** The reviews of a result, and none for an exception. *)
Definition reviews_of (r : outcome crawl_result) : list Review.t :=
  match r with Ok res => reviews res | Raise _ => [] end.

(** The text of a pagination link reads as a link to the next page: the
    test of [get_next_page_url]. *)
Definition says_next `{Unicode} (t : str) : bool :=
  existsb (fun next_text => contains next_text (lower t)) next_texts.

(** A pagination element whose text is read without an exception and does
    not read as a link to the next page. *)
Definition not_next `{Unicode} `{Selenium} (b : web_element) : Prop :=
  exists t, element_text b = Ok t /\ says_next t = false.

Definition is_get (e : event) : bool :=
  match e with EvGet _ _ => true | EvQuit => false end.

(** The number of [driver.get] calls in a trace, returned or not. *)
Definition gets (tr : list event) : Z :=
  Z.of_nat (List.length (filter is_get tr)).

(** The events when the loop ends. *)
Definition end_trace `{Selenium} (en : loop_end) : list event :=
  match en with Left st => trace st | Thrown _ tr => tr end.

(** * Properties *)

(** ** Strings *)

Lemma startswith_app (p s : str) : startswith p (p ++ s) = true.
Proof.
  induction p as [|a p IH]; simpl; [reflexivity|].
  now rewrite N.eqb_refl, IH.
Qed.

Lemma contains_unfold (sub s : str) :
  contains sub s =
  startswith sub s || match s with [] => false | _ :: s' => contains sub s' end.
Proof. destruct s; reflexivity. Qed.

Lemma contains_app (sub pre post : str) :
  contains sub (pre ++ sub ++ post) = true.
Proof.
  induction pre as [|a pre IH].
  - rewrite contains_unfold. cbn [app]. now rewrite startswith_app.
  - rewrite contains_unfold. cbn [app]. rewrite IH. apply orb_true_r.
Qed.

Lemma startswith_head (c a : char) (sub s : str) :
  c <> a -> startswith (c :: sub) (a :: s) = false.
Proof.
  intros Hne. simpl. apply N.eqb_neq in Hne. now rewrite Hne.
Qed.

Lemma contains_absent (c : char) (sub s : str) :
  ~ In c s -> contains (c :: sub) s = false.
Proof.
  induction s as [|a s IH]; intros Hin; [reflexivity|].
  cbn [contains]. rewrite startswith_head, IH; [reflexivity| |].
  - intros Hc. apply Hin. now right.
  - intros ->. apply Hin. now left.
Qed.

Lemma count_nonneg (s : str) (c : char) : 0 <= count s c.
Proof.
  induction s as [|a s IH]; simpl; [lia|]. destruct (a =? c)%N; lia.
Qed.

Lemma count_app (s1 s2 : str) (c : char) :
  count (s1 ++ s2) c = count s1 c + count s2 c.
Proof.
  induction s1 as [|a s1 IH]; simpl; [reflexivity|]. rewrite IH. lia.
Qed.

Lemma count_rev (s : str) (c : char) : count (rev s) c = count s c.
Proof.
  induction s as [|a s IH]; simpl; [reflexivity|].
  rewrite count_app, IH. simpl. lia.
Qed.

Lemma contains_char (c : char) (s : str) :
  contains [c] s = (0 <? count s c).
Proof.
  induction s as [|a s IH]; [reflexivity|].
  cbn [contains count startswith]. rewrite IH, andb_true_r.
  pose proof (count_nonneg s c).
  rewrite (N.eqb_sym c a).
  destruct (a =? c)%N; cbn [orb].
  - symmetry. apply Z.ltb_lt. lia.
  - now rewrite Z.add_0_l.
Qed.

Lemma count_repeat (c : char) (k : nat) : count (repeat c k) c = Z.of_nat k.
Proof.
  induction k as [|k IH]; [reflexivity|].
  cbn [repeat count]. rewrite N.eqb_refl, IH. lia.
Qed.

Section StripFacts.
Context `{Unicode}.

Lemma lstrip_keep (c : char) (s : str) :
  isspace c = false -> lstrip (c :: s) = c :: s.
Proof. intros Hc. simpl. now rewrite Hc. Qed.

Lemma strip_id (s : str) (a b : char) :
  hd_error s = Some a -> isspace a = false ->
  hd_error (rev s) = Some b -> isspace b = false ->
  strip s = s.
Proof.
  intros Ha Hsa Hb Hsb. unfold strip, rstrip.
  destruct s as [|a' s]; [discriminate|]. injection Ha as ->.
  rewrite lstrip_keep by assumption.
  destruct (rev (a :: s)) as [|b' r] eqn:E; [discriminate|].
  injection Hb as ->. rewrite lstrip_keep by assumption.
  rewrite <- E. apply rev_involutive.
Qed.

Lemma lstrip_Forall (P : char -> Prop) (s : str) :
  Forall P s -> Forall P (lstrip s).
Proof.
  induction 1 as [|a s Ha Hs IH]; simpl; [constructor|].
  destruct (isspace a); [assumption | now constructor].
Qed.

Lemma strip_Forall (P : char -> Prop) (s : str) :
  Forall P s -> Forall P (strip s).
Proof.
  intros Hs. unfold strip, rstrip.
  apply Forall_rev, lstrip_Forall, Forall_rev, lstrip_Forall, Hs.
Qed.

Lemma lstrip_count (s : str) (c : char) :
  isspace c = false -> count (lstrip s) c = count s c.
Proof.
  intros Hc. induction s as [|a s IH]; [reflexivity|].
  simpl. destruct (isspace a) eqn:Ea; [|reflexivity].
  rewrite IH. destruct (a =? c)%N eqn:E; [|reflexivity].
  apply N.eqb_eq in E. congruence.
Qed.

Lemma strip_count (s : str) (c : char) :
  isspace c = false -> count (strip s) c = count s c.
Proof.
  intros Hc. unfold strip, rstrip.
  now rewrite count_rev, lstrip_count, count_rev, lstrip_count.
Qed.

Lemma lstrip_blank (s : str) :
  Forall (fun c => isspace c = true) s -> lstrip s = [].
Proof.
  induction 1 as [|a s Ha Hs IH]; simpl; [reflexivity|]. now rewrite Ha.
Qed.

Lemma strip_blank (s : str) :
  Forall (fun c => isspace c = true) s -> strip s = [].
Proof.
  intros Hs. unfold strip, rstrip. now rewrite (lstrip_blank s Hs).
Qed.
End StripFacts.

(** ** [split] *)

Lemma last_app (s1 s2 : str) (b : char) :
  hd_error (rev s2) = Some b -> hd_error (rev (s1 ++ s2)) = Some b.
Proof.
  rewrite rev_app_distr. destruct (rev s2); [discriminate | auto].
Qed.

Lemma split_go_absent (c : char) (sep s cur : str) :
  ~ In c s -> split_go (c :: sep) O cur s = [rev cur ++ s].
Proof.
  revert cur. induction s as [|a s IH]; intros cur Hin.
  - simpl. now rewrite app_nil_r.
  - cbn [split_go]. rewrite startswith_head.
    + rewrite IH.
      * simpl. now rewrite <- app_assoc.
      * intros Hc. apply Hin. now right.
    + intros ->. apply Hin. now left.
Qed.

Lemma split_go_skip (sep a s cur : str) :
  split_go sep (List.length a) cur (a ++ s) = split_go sep O cur s.
Proof.
  induction a as [|x a IH]; [reflexivity|]. simpl. exact IH.
Qed.

Lemma split_found (c : char) (sep a b : str) :
  ~ In c a ->
  split (a ++ (c :: sep) ++ b) (c :: sep) = a :: split b (c :: sep).
Proof.
  intros Hin. unfold split.
  assert (G : forall cur, split_go (c :: sep) O cur (a ++ (c :: sep) ++ b)
                          = (rev cur ++ a) :: split_go (c :: sep) O [] b).
  { induction a as [|x a IH]; intros cur.
    - rewrite app_nil_r. cbn [app].
      change (split_go (c :: sep) O cur (c :: sep ++ b))
        with (if startswith (c :: sep) ((c :: sep) ++ b)
              then rev cur :: split_go (c :: sep) (List.length (c :: sep) - 1) [] (sep ++ b)
              else split_go (c :: sep) O (c :: cur) (sep ++ b)).
      rewrite startswith_app.
      replace (List.length (c :: sep) - 1)%nat with (List.length sep) by (simpl; lia).
      now rewrite split_go_skip.
    - cbn [app split_go]. rewrite startswith_head.
      + rewrite IH.
        * simpl. now rewrite <- app_assoc.
        * intros Hc. apply Hin. now right.
      + intros ->. apply Hin. now left. }
  apply (G []).
Qed.

Lemma split_go_Forall (P : char -> Prop) (sep s cur : str) (k : nat) :
  Forall P cur -> Forall P s -> Forall (Forall P) (split_go sep k cur s).
Proof.
  revert k cur. induction s as [|a s IH]; intros k cur Hcur Hs.
  - simpl. constructor; [now apply Forall_rev | constructor].
  - inversion Hs as [|? ? Ha Hs']; subst. cbn [split_go].
    destruct k as [|k]; [|now apply IH].
    destruct (startswith sep (a :: s)).
    + constructor; [now apply Forall_rev | apply IH; [constructor | assumption]].
    + apply IH; [now constructor | assumption].
Qed.

Lemma split_Forall (P : char -> Prop) (s sep : str) (i : nat) :
  Forall P s -> Forall P (nth i (split s sep) []).
Proof.
  intros Hs.
  assert (HF : Forall (Forall P) (split s sep))
    by (apply split_go_Forall; [constructor | assumption]).
  revert i. induction HF as [|x l Hx Hl IH]; intros [|i]; simpl;
    try constructor; auto.
Qed.

(** ** Numerals, the number pattern and [float] *)

Lemma digit_range (c : char) :
  is_ascii_digit c = true -> (48 <= c <= 57)%N.
Proof. unfold is_ascii_digit. ncases. Qed.

Lemma digit_plain (c : char) : is_ascii_digit c = true -> plain c.
Proof. intros Hc%digit_range. left. lia. Qed.

Lemma digits_value_nonneg (ds : str) (acc : Z) :
  Forall (fun c => is_ascii_digit c = true) ds -> 0 <= acc ->
  0 <= digits_value acc ds.
Proof.
  intros Hds. revert acc. induction Hds as [|c ds Hc Hds IH]; intros acc Hacc.
  - exact Hacc.
  - cbn [digits_value]. apply IH. apply digit_range in Hc. lia.
Qed.

Lemma span_digits_all (ds r : str) :
  Forall (fun c => is_ascii_digit c = true) ds ->
  hd 0%N r = 0%N \/ is_ascii_digit (hd 0%N r) = false ->
  span_digits (ds ++ r) = (ds, r).
Proof.
  intros Hds Hr. induction Hds as [|c ds Hc Hds IH].
  - destruct r as [|c r]; [reflexivity|]. simpl in *.
    destruct Hr as [-> | ->]; reflexivity.
  - cbn [app span_digits]. now rewrite Hc, IH.
Qed.

Lemma span_digits_none (s : str) :
  Forall (fun c => is_ascii_digit c = false) s -> span_digits s = ([], s).
Proof. intros [|c s' Hc _]; simpl; [reflexivity | now rewrite Hc]. Qed.

Lemma float_of_decimal_int (v : Z) :
  0 <= v -> float_of_decimal false v 0 = float_of_Z v.
Proof.
  intros Hv. destruct v as [|p|p]; [reflexivity| |lia].
  unfold float_of_decimal, float_of_Z. simpl. now rewrite Pos.mul_1_r.
Qed.

Lemma c_lstrip_keep (c : char) (s : str) :
  c_isspace c = false -> c_lstrip (c :: s) = c :: s.
Proof. intros Hc. simpl. now rewrite Hc. Qed.

Lemma c_lstrip_Forall (P : char -> Prop) (s : str) :
  Forall P s -> Forall P (c_lstrip s).
Proof.
  induction 1 as [|a s Ha Hs IH]; simpl; [constructor|].
  destruct (c_isspace a); [assumption | now constructor].
Qed.

Lemma c_strip_Forall (P : char -> Prop) (s : str) :
  Forall P s -> Forall P (c_strip s).
Proof.
  intros Hs. unfold c_strip.
  apply Forall_rev, c_lstrip_Forall, Forall_rev, c_lstrip_Forall, Hs.
Qed.

Lemma drop_underscores_Forall (P : char -> Prop) (s r : str) (prev : char) :
  Forall P s -> drop_underscores prev s = Ok r -> Forall P r.
Proof.
  intros Hs. revert prev r.
  induction Hs as [|c s Hc Hs IH]; intros prev r; simpl.
  - destruct (prev =? 95)%N; [discriminate|]. intros [= <-]. constructor.
  - destruct (c =? 95)%N.
    + destruct (is_ascii_digit prev); [apply IH | discriminate].
    + destruct ((prev =? 95)%N && negb (is_ascii_digit c)); [discriminate|].
      destruct (drop_underscores c s) as [r'|e] eqn:E; simpl; [|discriminate].
      intros [= <-]. constructor; [assumption | now apply (IH c)].
Qed.

Lemma str_eqb_head (a b : char) (s t : str) :
  a <> b -> str_eqb (a :: s) (b :: t) = false.
Proof.
  intros Hne. unfold str_eqb. rewrite startswith_head by assumption.
  apply andb_false_r.
Qed.

Lemma numeral_head (ds : str) :
  numeral ds ->
  exists c ds', ds = c :: ds' /\ is_ascii_digit c = true
                /\ Forall (fun c => is_ascii_digit c = true) ds'.
Proof.
  intros [Hne Hds]. destruct ds as [|c ds']; [contradiction|].
  inversion Hds as [|? ? Hc Hr]; subst. exists c, ds'. auto.
Qed.

Lemma numeral_last (ds : str) :
  numeral ds -> exists c, hd_error (rev ds) = Some c /\ is_ascii_digit c = true.
Proof.
  intros [Hne Hds]. apply Forall_rev in Hds.
  destruct (rev ds) as [|c r] eqn:E.
  - apply (f_equal (@rev N)) in E. rewrite rev_involutive in E. contradiction.
  - inversion Hds as [|? ? Hc Hr]; subst. exists c. now split.
Qed.

(** A numeral without sign, point, exponent or underscore is read as the
    double nearest to its value. *)
Lemma parse_float_literal_numeral (ds : str) :
  numeral ds ->
  parse_float_literal ds = Ok (float_of_Z (digits_value 0 ds)).
Proof.
  intros Hn. destruct (numeral_head ds Hn) as (c & ds' & -> & Hc & Hds').
  pose proof (digit_range c Hc) as Hr.
  unfold parse_float_literal.
  assert (Hs : take_sign (c :: ds') = (false, c :: ds')).
  { unfold take_sign. ncases. }
  rewrite Hs.
  assert (Hl : ascii_lower c = c) by (unfold ascii_lower; ncases).
  cbn [map]. rewrite Hl.
  change (utf8 "inf") with [105; 110; 102]%N.
  change (utf8 "infinity") with [105; 110; 102; 105; 110; 105; 116; 121]%N.
  change (utf8 "nan") with [110; 97; 110]%N.
  rewrite !str_eqb_head by lia. cbn [orb].
  replace (c :: ds') with ((c :: ds') ++ []) at 1 by apply app_nil_r.
  rewrite span_digits_all; [|now constructor|now left].
  rewrite app_nil_r. cbn [parse_exponent bind List.length].
  rewrite Z.sub_0_r.
  rewrite float_of_decimal_int; [reflexivity|].
  apply digits_value_nonneg; [now constructor | lia].
Qed.

(** A text without ASCII digits is no numeral: reading it raises
    [ValueError] or gives an infinity or NaN. *)
Lemma parse_float_literal_no_digit (s : str) :
  Forall (fun c => is_ascii_digit c = false) s ->
  parse_float_literal s = Raise ValueError
  \/ (exists b, parse_float_literal s = Ok (S754_infinity b))
  \/ parse_float_literal s = Ok S754_nan.
Proof.
  intros Hs. unfold parse_float_literal.
  assert (H1 : Forall (fun c => is_ascii_digit c = false) (snd (take_sign s))).
  { destruct Hs as [|c s Hc Hs]; simpl; [constructor|].
    destruct (c =? 45)%N; [assumption|].
    destruct (c =? 43)%N; [assumption | now constructor]. }
  destruct (take_sign s) as [neg s1]. simpl in H1.
  destruct (_ || _); [right; left; eauto|].
  destruct (str_eqb _ _); [now right; right|].
  rewrite (span_digits_none s1 H1).
  left. destruct H1 as [|c s2 Hc H2]; [reflexivity|].
  destruct (c =? 46)%N; [|reflexivity].
  now rewrite (span_digits_none s2 H2).
Qed.

Section NumberFacts.
Context `{Unicode}.

Lemma digit_not_space (c : char) : is_ascii_digit c = true -> isspace c = false.
Proof.
  intros Hc. rewrite isspace_plain by now apply digit_plain.
  apply digit_range in Hc. unfold ascii_space. ncases.
Qed.

Lemma digit_decimal (c : char) : is_ascii_digit c = true -> isdecimal c = true.
Proof.
  intros Hc. unfold isdecimal. rewrite decimal_plain by now apply digit_plain.
  unfold ascii_decimal. now rewrite Hc.
Qed.

Lemma not_decimal_not_digit (c : char) :
  isdecimal c = false -> is_ascii_digit c = false.
Proof.
  intros Hc. destruct (is_ascii_digit c) eqn:E; [|reflexivity].
  apply digit_decimal in E. congruence.
Qed.

Lemma numeral_strip (ds : str) : numeral ds -> strip ds = ds.
Proof.
  intros Hn. destruct (numeral_head ds Hn) as (c & ds' & -> & Hc & _).
  destruct (numeral_last _ Hn) as (b & Hb & Hdb).
  apply (strip_id _ c b); auto using digit_not_space.
Qed.

Lemma to_ascii_numeral_id (s : str) :
  Forall (fun c => (c < 127)%N) s -> to_ascii_numeral s = s.
Proof.
  induction 1 as [|c s Hc Hs IH]; simpl; [reflexivity|].
  apply N.ltb_lt in Hc. now rewrite Hc, IH.
Qed.

Lemma to_ascii_numeral_no_digit (s : str) :
  Forall (fun c => isdecimal c = false) s ->
  Forall (fun c => is_ascii_digit c = false) (to_ascii_numeral s).
Proof.
  induction 1 as [|c s Hc Hs IH]; simpl; [constructor|].
  destruct (c <? 127)%N.
  - constructor; [now apply not_decimal_not_digit | assumption].
  - destruct (isspace c); [now constructor|].
    unfold isdecimal in Hc. destruct (decimal c); [discriminate|].
    now constructor.
Qed.

Lemma float_of_str_numeral (ds : str) :
  numeral ds -> float_of_str ds = Ok (float_of_Z (digits_value 0 ds)).
Proof.
  intros Hn. unfold float_of_str.
  destruct (numeral_head ds Hn) as (c & ds' & E & Hc & Hds').
  destruct (numeral_last ds Hn) as (b & Hb & Hdb).
  destruct Hn as [Hne Hds].
  rewrite to_ascii_numeral_id.
  2:{ eapply Forall_impl; [|exact Hds]. intros a Ha%digit_range. simpl. lia. }
  assert (Hcs : forall a, is_ascii_digit a = true -> c_isspace a = false).
  { intros a Ha%digit_range. unfold c_isspace. ncases. }
  assert (Hstrip : c_strip ds = ds).
  { unfold c_strip. subst ds. rewrite c_lstrip_keep by auto.
    destruct (rev (c :: ds')) as [|b' r] eqn:Er; [discriminate|].
    injection Hb as ->. rewrite c_lstrip_keep by auto.
    rewrite <- Er. apply rev_involutive. }
  rewrite Hstrip, contains_absent.
  - cbn [bind]. apply parse_float_literal_numeral. now split.
  - intros Hin. rewrite Forall_forall in Hds.
    apply Hds, digit_range in Hin. lia.
Qed.

Lemma float_of_str_no_digit (s : str) :
  Forall (fun c => isdecimal c = false) s ->
  float_of_str s = Raise ValueError
  \/ (exists b, float_of_str s = Ok (S754_infinity b))
  \/ float_of_str s = Ok S754_nan.
Proof.
  intros Hs. unfold float_of_str.
  pose proof (c_strip_Forall _ _ (to_ascii_numeral_no_digit s Hs)) as H1.
  destruct (contains [95%N] _).
  - destruct (drop_underscores _ _) as [s2|e] eqn:E; cbn [bind].
    + apply parse_float_literal_no_digit.
      eapply drop_underscores_Forall; eauto.
    + left. f_equal. revert E. generalize (c_strip (to_ascii_numeral s)) 0%N.
      intros l. induction l as [|a l IH]; intros prev; simpl.
      * destruct (prev =? 95)%N; congruence.
      * destruct (a =? 95)%N.
        { destruct (is_ascii_digit prev); [apply IH | congruence]. }
        destruct (_ && _); [congruence|].
        destruct (drop_underscores a l) eqn:E'; simpl; [discriminate|].
        intros [= <-]. now apply (IH a).
  - cbn [bind]. now apply parse_float_literal_no_digit.
Qed.

(** *** The number pattern *)

Lemma many_all {R} (p : char -> bool) (k : str -> nat -> option R)
      (ds r : str) (pos : nat) (x : R) :
  Forall (fun c => p c = true) ds ->
  hd_error r = None \/ (exists c, hd_error r = Some c /\ p c = false) ->
  k r (pos + List.length ds)%nat = Some x ->
  many p k (ds ++ r) pos = Some x.
Proof.
  intros Hds Hr. revert pos.
  induction Hds as [|c ds Hc Hds IH]; intros pos Hk.
  - simpl in *. rewrite Nat.add_0_r in Hk.
    destruct r as [|c r]; [exact Hk|].
    destruct Hr as [Hr | (c' & [= <-] & Hc')]; [discriminate|].
    simpl. now rewrite Hc'.
  - cbn [app many]. rewrite Hc, (IH (S pos)); [reflexivity|].
    rewrite <- Hk. f_equal. simpl. lia.
Qed.

Lemma rmatch_number (ds r : str) (g : nat) :
  numeral ds -> number_end r ->
  rmatch number_re g (ds ++ r) O = Some (List.length ds, g).
Proof.
  intros Hn Hr. destruct (numeral_head ds Hn) as (c & ds' & -> & Hc & Hds').
  unfold number_re. cbn [app rmatch].
  rewrite (digit_decimal c Hc).
  apply many_all.
  - eapply Forall_impl; [|exact Hds']. apply digit_decimal.
  - destruct r as [|a r]; [now left|]. right. exists a. now destruct Hr.
  - destruct r as [|a r]; [reflexivity|]. destruct Hr as [Ha Hne].
    cbn [rmatch many]. apply not_eq_sym, N.eqb_neq in Hne.
    now rewrite Hne, Ha.
Qed.

Lemma rmatch_number_fail (s : str) (g pos : nat) :
  match s with [] => True | c :: _ => isdecimal c = false end ->
  rmatch number_re g s pos = None.
Proof. destruct s as [|c s]; simpl; [reflexivity|]. now intros ->. Qed.

Lemma findall_number_first (pre ds r : str) :
  Forall (fun c => isdecimal c = false) pre -> numeral ds -> number_end r ->
  exists rest, findall number_re (pre ++ ds ++ r) = ds :: rest.
Proof.
  intros Hpre Hn Hr. unfold findall.
  induction Hpre as [|c pre Hc Hpre IH].
  - cbn [app]. destruct (numeral_head ds Hn) as (c & ds' & -> & _).
    assert (Hm := rmatch_number (c :: ds') r O Hn Hr).
    cbn [app] in *. cbn [findall_go]. rewrite Hm.
    eexists. f_equal.
    change (c :: ds' ++ r) with ((c :: ds') ++ r).
    now rewrite firstn_app, firstn_all, Nat.sub_diag, firstn_O, app_nil_r.
  - cbn [app findall_go]. rewrite rmatch_number_fail by exact Hc. exact IH.
Qed.

Lemma findall_number_none (s : str) :
  Forall (fun c => isdecimal c = false) s -> findall number_re s = [].
Proof.
  unfold findall. induction 1 as [|c s Hc Hs IH]; [reflexivity|].
  cbn [findall_go]. now rewrite rmatch_number_fail.
Qed.

Lemma extract_first_number_numeral (pre ds r : str) :
  Forall (fun c => isdecimal c = false) pre -> numeral ds -> number_end r ->
  extract_first_number (pre ++ ds ++ r)
  = Ok (Some (float_of_Z (digits_value 0 ds))).
Proof.
  intros Hpre Hn Hr. unfold extract_first_number.
  destruct (findall_number_first pre ds r Hpre Hn Hr) as [rest ->].
  now rewrite float_of_str_numeral.
Qed.

Lemma extract_first_number_none (s : str) :
  Forall (fun c => isdecimal c = false) s -> extract_first_number s = Ok None.
Proof.
  intros Hs. unfold extract_first_number. now rewrite findall_number_none.
Qed.
End NumberFacts.

(** ** The rules of [parse_rating] on numerals *)

Lemma Forall_digit_not_in (c : char) (ds : str) :
  Forall (fun c => is_ascii_digit c = true) ds ->
  is_ascii_digit c = false -> ~ In c ds.
Proof.
  intros Hds Hc Hin. rewrite Forall_forall in Hds. apply Hds in Hin. congruence.
Qed.

Section RatingFacts.
Context `{Unicode}.

Lemma lower_fixed (s : str) :
  Forall plain s -> Forall (fun c => ascii_lower c = c) s -> lower s = s.
Proof.
  intros Hp Hf. rewrite lower_plain by assumption.
  induction Hf as [|c s Hc Hs IH]; [reflexivity|].
  inversion Hp; subst. simpl. rewrite Hc, IH; auto.
Qed.

Lemma digit_lower (c : char) : is_ascii_digit c = true -> ascii_lower c = c.
Proof. intros Hc%digit_range. unfold ascii_lower. ncases. Qed.

Lemma numeral_lower (ds : str) : numeral ds -> lower ds = ds.
Proof.
  intros [_ Hds]. apply lower_fixed.
  - eapply Forall_impl; [|exact Hds]. apply digit_plain.
  - eapply Forall_impl; [|exact Hds]. apply digit_lower.
Qed.

Lemma plain_not_decimal (c : char) :
  plain c -> is_ascii_digit c = false -> isdecimal c = false.
Proof.
  intros Hp Hc. unfold isdecimal. rewrite decimal_plain by assumption.
  unfold ascii_decimal. now rewrite Hc.
Qed.

Lemma rule_out_of_absent (text : str) :
  ~ In 111%N text -> rule_out_of text = Ok None.
Proof.
  intros Hin. unfold rule_out_of.
  change (utf8 "out of") with [111; 117; 116; 32; 111; 102]%N.
  now rewrite contains_absent.
Qed.

Lemma rule_stars_absent (text : str) :
  ~ In star text -> rule_stars text = Ok None.
Proof. intros Hin. unfold rule_stars. now rewrite contains_absent. Qed.

Lemma rule_fraction_absent (text : str) :
  ~ In 47%N text -> rule_fraction text = Ok None.
Proof.
  intros Hin. unfold rule_fraction. change (utf8 "/") with [47%N].
  now rewrite contains_absent.
Qed.

Lemma rule_number_numeral (ds r : str) :
  numeral ds -> number_end r ->
  match rule_number (ds ++ r) with
  | Ok (Some v) => v = number_rating (float_of_Z (digits_value 0 ds))
  | Ok None => False
  | Raise _ => number_rating (float_of_Z (digits_value 0 ds)) = 5
  end.
Proof.
  intros Hn Hr. unfold rule_number, number_rating.
  rewrite (extract_first_number_numeral [] ds r) by (auto; constructor).
  cbn [bind].
  destruct (if float_gt _ _ then _ else _) as [x'|e]; cbn [bind]; [|reflexivity].
  destruct (clamp_round x'); reflexivity.
Qed.

(** A text that is a numeral is rated by the last rule. *)
Lemma parse_rating_numeral (ds : str) :
  numeral ds ->
  parse_rating ds = Ok (number_rating (float_of_Z (digits_value 0 ds))).
Proof.
  intros Hn. unfold parse_rating, parse_rating_body.
  rewrite numeral_strip, numeral_lower by assumption.
  destruct (numeral_head ds Hn) as (c & ds' & E & _).
  destruct Hn as [Hne Hds].
  assert (Hnot : forall a, is_ascii_digit a = false -> ~ In a ds)
    by (intros a; now apply Forall_digit_not_in).
  destruct ds as [|c0 ds0]; [contradiction|].
  cbn [first_return].
  rewrite rule_out_of_absent, rule_stars_absent, rule_fraction_absent
    by (apply Hnot; reflexivity).
  cbn [bind].
  pose proof (rule_number_numeral (c0 :: ds0) [] (conj Hne Hds) I) as Hr.
  rewrite app_nil_r in Hr.
  destruct (rule_number (c0 :: ds0)) as [[v|]|e]; cbn [bind];
    [now subst | contradiction | now rewrite Hr].
Qed.

(** "N out of M" for numerals [N] and [M]. *)
Lemma parse_rating_out_of (ds1 ds2 : str) :
  numeral ds1 -> numeral ds2 ->
  parse_rating (ds1 ++ utf8 " out of " ++ ds2)
  = Ok (ratio_rating (float_of_Z (digits_value 0 ds1))
                     (float_of_Z (digits_value 0 ds2))).
Proof.
  intros Hn1 Hn2. unfold parse_rating, parse_rating_body.
  destruct (numeral_head ds1 Hn1) as (c & ds1' & E1 & Hc & _).
  destruct (numeral_last ds2 Hn2) as (b & Hb & Hdb).
  pose proof Hn1 as [_ Hds1]. pose proof Hn2 as [_ Hds2].
  change (utf8 " out of ") with ([32%N] ++ utf8 "out of" ++ [32%N]).
  set (sep := utf8 "out of").
  assert (Hs : strip (ds1 ++ ([32%N] ++ sep ++ [32%N]) ++ ds2)
               = ds1 ++ ([32%N] ++ sep ++ [32%N]) ++ ds2).
  { apply (strip_id _ c b); auto using digit_not_space.
    - now rewrite E1.
    - now apply last_app, last_app. }
  rewrite Hs.
  assert (Hl : lower (ds1 ++ ([32%N] ++ sep ++ [32%N]) ++ ds2)
               = ds1 ++ ([32%N] ++ sep ++ [32%N]) ++ ds2).
  { apply lower_fixed; rewrite !Forall_app; repeat split.
    - eapply Forall_impl; [|exact Hds1]. apply digit_plain.
    - repeat constructor.
    - subst sep. repeat constructor.
    - repeat constructor.
    - eapply Forall_impl; [|exact Hds2]. apply digit_plain.
    - eapply Forall_impl; [|exact Hds1]. apply digit_lower.
    - repeat constructor.
    - subst sep. repeat constructor.
    - repeat constructor.
    - eapply Forall_impl; [|exact Hds2]. apply digit_lower. }
  rewrite Hl.
  replace (ds1 ++ ([32%N] ++ sep ++ [32%N]) ++ ds2)
    with ((ds1 ++ [32%N]) ++ sep ++ ([32%N] ++ ds2))
    by (now rewrite <- !app_assoc).
  destruct ((ds1 ++ [32%N]) ++ sep ++ [32%N] ++ ds2) as [|c0 t0] eqn:Et.
  { rewrite E1 in Et. discriminate. }
  rewrite <- Et. clear Et c0 t0.
  cbn [first_return]. unfold rule_out_of at 1. fold sep.
  rewrite contains_app.
  assert (Ho1 : ~ In 111%N (ds1 ++ [32%N])).
  { rewrite in_app_iff. intros [Hin|[Hin|[]]]; [|discriminate].
    revert Hin. now apply Forall_digit_not_in. }
  assert (Ho2 : ~ In 111%N ([32%N] ++ ds2)).
  { rewrite in_app_iff. intros [[Hin|[]]|Hin]; [discriminate|].
    revert Hin. now apply Forall_digit_not_in. }
  assert (Hsp : split ((ds1 ++ [32%N]) ++ sep ++ ([32%N] ++ ds2)) sep
                = [ds1 ++ [32%N]; [32%N] ++ ds2]).
  { subst sep. change (utf8 "out of") with (111%N :: [117; 116; 32; 111; 102]%N).
    rewrite split_found by exact Ho1.
    unfold split. now rewrite split_go_absent. }
  rewrite Hsp.
  cbn [List.length Nat.leb rev app nth].
  rewrite (extract_first_number_numeral [] ds1 [32%N]);
    [|constructor|assumption|].
  2:{ split; [|discriminate]. apply plain_not_decimal; [now left | reflexivity]. }
  replace (32%N :: ds2) with ([32%N] ++ ds2 ++ []) by (now rewrite app_nil_r).
  rewrite (extract_first_number_numeral [32%N] ds2 []); [| |assumption|exact I].
  2:{ repeat constructor. apply plain_not_decimal; [now left | reflexivity]. }
  cbn [bind]. unfold ratio_rating.
  destruct (float_div _ _) as [q|e]; cbn [bind]; [|reflexivity].
  destruct (clamp_round q); reflexivity.
Qed.
End RatingFacts.

(** ** Binary64 facts *)

Lemma digits2_bounds (p : positive) :
  2 ^ (Zpos (digits2_pos p) - 1) <= Zpos p < 2 ^ Zpos (digits2_pos p).
Proof.
  induction p as [p IH|p IH|]; cbn [digits2_pos].
  - rewrite Pos2Z.inj_succ, Z.pow_succ_r by lia.
    replace (Z.succ (Zpos (digits2_pos p)) - 1)
      with (Z.succ (Zpos (digits2_pos p) - 1)) by lia.
    rewrite Z.pow_succ_r by lia. lia.
  - rewrite Pos2Z.inj_succ, Z.pow_succ_r by lia.
    replace (Z.succ (Zpos (digits2_pos p)) - 1)
      with (Z.succ (Zpos (digits2_pos p) - 1)) by lia.
    rewrite Z.pow_succ_r by lia. lia.
  - simpl. lia.
Qed.

Lemma digits2_unique (p : positive) (n : Z) :
  2 ^ (n - 1) <= Zpos p < 2 ^ n -> Zpos (digits2_pos p) = n.
Proof.
  intros [Hlo Hhi]. pose proof (digits2_bounds p) as [Dlo Dhi].
  assert (Hn : 0 < n).
  { destruct (Z.lt_ge_cases 0 n) as [|Hle]; [assumption|].
    destruct (Z.eq_dec n 0) as [->|]; [simpl in Hhi; lia|].
    rewrite Z.pow_neg_r in Hhi by lia. lia. }
  destruct (Z.lt_trichotomy (Zpos (digits2_pos p)) n) as [Hlt|[Heq|Hgt]];
    [|assumption|].
  - assert (2 ^ Zpos (digits2_pos p) <= 2 ^ (n - 1))
      by (apply Z.pow_le_mono_r; lia). lia.
  - assert (2 ^ n <= 2 ^ (Zpos (digits2_pos p) - 1))
      by (apply Z.pow_le_mono_r; lia). lia.
Qed.

Lemma shr_1_m (r : shr_record) : 0 <= shr_m r -> shr_m (shr_1 r) = shr_m r / 2.
Proof.
  destruct r as [m rb sb]. cbn [shr_m]. intros Hm.
  destruct m as [|[p|p|]|p]; cbn [shr_1 shr_m]; try lia; try reflexivity.
  - rewrite Pos2Z.inj_xI. apply (Z.div_unique _ _ _ 1); lia.
  - rewrite Pos2Z.inj_xO. apply (Z.div_unique _ _ _ 0); lia.
Qed.

Lemma pow2_xO (k : positive) : 2 ^ Zpos k~0 = 2 ^ Zpos k * 2 ^ Zpos k.
Proof.
  replace (Zpos k~0) with (Zpos k + Zpos k) by lia.
  apply Z.pow_add_r; lia.
Qed.

Lemma pow2_xI (k : positive) : 2 ^ Zpos k~1 = 2 * (2 ^ Zpos k * 2 ^ Zpos k).
Proof.
  replace (Zpos k~1) with (Z.succ (Zpos k + Zpos k)) by lia.
  rewrite Z.pow_succ_r, Z.pow_add_r by lia. reflexivity.
Qed.

Lemma iter_shr_1_m (k : positive) (r : shr_record) :
  0 <= shr_m r ->
  shr_m (iter_pos shr_1 k r) = shr_m r / 2 ^ Zpos k.
Proof.
  revert r. induction k as [k IH|k IH|]; intros r Hr; cbn [iter_pos].
  - assert (H1 : 0 <= shr_m (shr_1 r))
      by (rewrite shr_1_m by assumption; apply Z.div_pos; lia).
    assert (H2 : 0 <= shr_m (iter_pos shr_1 k (shr_1 r)))
      by (rewrite IH by assumption; apply Z.div_pos; lia).
    rewrite IH, IH, shr_1_m by assumption.
    rewrite !Z.div_div by lia. now rewrite pow2_xI, Z.mul_assoc.
  - assert (H2 : 0 <= shr_m (iter_pos shr_1 k r))
      by (rewrite IH by assumption; apply Z.div_pos; lia).
    rewrite IH, IH by assumption.
    rewrite !Z.div_div by lia. now rewrite pow2_xO.
  - rewrite shr_1_m by assumption. reflexivity.
Qed.

Lemma shr_nonneg (r : shr_record) (e n : Z) :
  0 <= shr_m r -> 0 <= shr_m (fst (shr r e n)).
Proof.
  intros Hr. destruct n as [|k|k]; cbn [shr fst]; try assumption.
  rewrite iter_shr_1_m by assumption. apply Z.div_pos; lia.
Qed.

Lemma shr_record_of_loc_m (m : Z) (l : location) :
  shr_m (shr_record_of_loc m l) = m.
Proof. destruct l as [|[]]; reflexivity. Qed.

Lemma round_nearest_even_bounds (m : Z) (l : location) :
  m <= round_nearest_even m l <= m + 1.
Proof.
  destruct l as [|[]]; cbn [round_nearest_even]; try lia.
  destruct (Z.even m); lia.
Qed.

(** Rounding a mantissa that is not negative gives no NaN. *)
Lemma binary_round_aux_cases (s : bool) (mx ex : Z) (l : location) :
  0 <= mx ->
  binary_round_aux prec emax s mx ex l = S754_zero s
  \/ (exists m e, binary_round_aux prec emax s mx ex l = S754_finite s m e)
  \/ binary_round_aux prec emax s mx ex l = S754_infinity s.
Proof.
  intros Hm. unfold binary_round_aux, shr_fexp.
  set (n1 := _ - ex).
  pose proof (shr_nonneg (shr_record_of_loc mx l) ex n1) as H1.
  rewrite shr_record_of_loc_m in H1. specialize (H1 Hm).
  destruct (shr (shr_record_of_loc mx l) ex n1) as [r1 e1]. cbn [fst] in H1.
  set (m1 := round_nearest_even _ _).
  assert (Hm1 : 0 <= m1)
    by (pose proof (round_nearest_even_bounds (shr_m r1) (loc_of_shr_record r1));
        subst m1; lia).
  set (n2 := _ - e1).
  pose proof (shr_nonneg (shr_record_of_loc m1 loc_Exact) e1 n2) as H2.
  rewrite shr_record_of_loc_m in H2. specialize (H2 Hm1).
  destruct (shr (shr_record_of_loc m1 loc_Exact) e1 n2) as [r2 e2].
  cbn [fst] in H2.
  destruct (shr_m r2) as [|p|p]; [now left| |lia].
  destruct (e2 <=? emax - prec); [right; left; eauto | now right; right].
Qed.

Lemma binary_round_aux_nonneg (mx ex : Z) (l : location) :
  0 <= mx -> nonneg_float (binary_round_aux prec emax false mx ex l).
Proof.
  intros Hm.
  destruct (binary_round_aux_cases false mx ex l Hm)
    as [-> | [(m & e & ->) | ->]]; reflexivity.
Qed.

Lemma float_of_Z_nonneg (v : Z) : 0 <= v -> nonneg_float (float_of_Z v).
Proof.
  intros Hv. destruct v as [|p|p]; [reflexivity| |lia].
  unfold float_of_Z, binary_normalize, binary_round.
  destruct (shl_align _ _ _) as [mz ez].
  apply binary_round_aux_nonneg. lia.
Qed.

Lemma iter_xO (p k : positive) : Zpos (Pos.iter xO p k) = Zpos p * 2 ^ Zpos k.
Proof.
  rewrite (Pos.iter_swap_gen _ _ Zpos xO (Z.mul 2)) by reflexivity.
  rewrite <- Z.shiftl_mul_pow2 by lia. reflexivity.
Qed.

(** A mantissa of 53 bits with an exponent in range is kept as it is. *)
Lemma binary_round_aux_canonical (s : bool) (m : positive) (e : Z) :
  Zpos (digits2_pos m) = 53 -> -1074 <= e <= 971 ->
  binary_round_aux prec emax s (Zpos m) e loc_Exact = S754_finite s m e.
Proof.
  intros Hd He. unfold binary_round_aux, shr_fexp. cbn [Zdigits2].
  rewrite Hd.
  replace (fexp prec emax (53 + e) - e) with 0
    by (unfold fexp, emin, prec, emax; lia).
  cbn [shr shr_record_of_loc loc_of_shr_record round_nearest_even shr_m Zdigits2].
  rewrite Hd.
  replace (fexp prec emax (53 + e) - e) with 0
    by (unfold fexp, emin, prec, emax; lia).
  cbn [shr shr_m].
  replace (e <=? emax - prec) with true
    by (symmetry; apply Z.leb_le; unfold prec, emax; lia).
  reflexivity.
Qed.

Lemma float_two : float_of_Z 2 = S754_finite false 4503599627370496 (-51).
Proof. reflexivity. Qed.

Lemma float_five : float_of_Z 5 = S754_finite false 5629499534213120 (-50).
Proof. reflexivity. Qed.

(** Halving a double whose exponent is in range is exact. *)
Lemma SFdiv_two (m : positive) (e : Z) :
  Zpos (digits2_pos m) = 53 -> -1000 <= e <= 971 ->
  SFdiv prec emax (S754_finite false m e) (float_of_Z 2)
  = S754_finite false m (e - 1).
Proof.
  intros Hd He. rewrite float_two. unfold SFdiv, SFdiv_core_binary.
  cbn [Zdigits2]. rewrite Hd.
  change (Zpos (digits2_pos 4503599627370496)) with 53.
  replace (fexp prec emax (53 + e - (53 + -51))) with (e - 2)
    by (unfold fexp, emin, prec, emax; lia).
  replace (Z.min (e - 2) (e - -51)) with (e - 2) by lia.
  replace (e - -51 - (e - 2)) with 53 by lia.
  cbv iota.
  rewrite Z.shiftl_mul_pow2 by lia.
  replace (Zpos m * 2 ^ 53) with (Zpos m~0 * 4503599627370496) by lia.
  pose proof (Z_div_mod (Zpos m~0 * 4503599627370496) 4503599627370496
                        ltac:(lia)) as Hdm.
  destruct (Z.div_eucl _ _) as [q r]. destruct Hdm as [Hq Hr].
  assert (r = 0 /\ q = Zpos m~0) as [-> ->] by lia.
  change (new_location 4503599627370496 0) with loc_Exact.
  cbn [xorb].
  unfold binary_round_aux, shr_fexp. cbn [Zdigits2 digits2_pos].
  rewrite Pos2Z.inj_succ, Hd.
  replace (fexp prec emax (Z.succ 53 + (e - 2)) - (e - 2)) with 1
    by (unfold fexp, emin, prec, emax; lia).
  cbn [shr shr_record_of_loc iter_pos shr_1 fst snd loc_of_shr_record orb
       round_nearest_even shr_m Zdigits2].
  rewrite Hd.
  replace (fexp prec emax (53 + (e - 2 + 1)) - (e - 2 + 1)) with 0
    by (unfold fexp, emin, prec, emax; lia).
  cbn [shr shr_m].
  replace (e - 2 + 1 <=? emax - prec) with true
    by (symmetry; apply Z.leb_le; unfold prec, emax; lia).
  f_equal. lia.
Qed.

Lemma float_of_Z_big (v : Z) : 10 <= v -> at_least_10 (float_of_Z v).
Proof.
  intros Hv. destruct v as [|p|p]; try lia.
  unfold float_of_Z, binary_normalize, binary_round.
  pose proof (digits2_bounds p) as [Dlo Dhi].
  set (d := Zpos (digits2_pos p)) in *.
  assert (Hd1 : 1 <= d) by (subst d; lia).
  rewrite Z.add_0_r.
  destruct (Z.le_gt_cases d 53) as [Hle|Hgt].
  - (* the integer fits in 53 bits *)
    replace (fexp prec emax d) with (d - 53)
      by (unfold fexp, emin, prec, emax; lia).
    unfold shl_align. rewrite Z.sub_0_r.
    destruct (d - 53) as [|k|k] eqn:Ek; try lia.
    + rewrite binary_round_aux_canonical by (fold d; lia).
      cbn [at_least_10]. fold d. repeat split; try lia.
    + assert (Hk : Zpos k = 53 - d) by lia.
      assert (Hm : Zpos (Pos.iter xO p k) = Zpos p * 2 ^ Zpos k) by apply iter_xO.
      assert (Hp : 2 ^ (d - 1) * 2 ^ Zpos k = 2 ^ 52).
      { rewrite <- Z.pow_add_r by lia. f_equal. lia. }
      assert (Hq : 2 ^ d * 2 ^ Zpos k = 2 ^ 53).
      { rewrite <- Z.pow_add_r by lia. f_equal. lia. }
      assert (Hpos : 0 < 2 ^ Zpos k) by (apply Z.pow_pos_nonneg; lia).
      assert (Hdm : Zpos (digits2_pos (Pos.iter xO p k)) = 53).
      { apply digits2_unique. rewrite Hm. change (53 - 1) with 52. nia. }
      rewrite binary_round_aux_canonical by lia.
      cbn [at_least_10]. repeat split; try lia.
      right. rewrite Hm. replace (- Zneg k) with (Zpos k) by lia. nia.
  - (* the integer is rounded to 53 bits *)
    replace (fexp prec emax d) with (d - 53)
      by (unfold fexp, emin, prec, emax; lia).
    unfold shl_align. rewrite Z.sub_0_r.
    destruct (d - 53) as [|k|k] eqn:Ek; try lia.
    unfold binary_round_aux, shr_fexp. cbn [Zdigits2]. fold d.
    rewrite Z.add_0_r.
    replace (fexp prec emax d - 0) with (Zpos k)
      by (unfold fexp, emin, prec, emax; lia).
    cbn [shr shr_record_of_loc].
    set (r1 := iter_pos shr_1 k _).
    assert (Hr1 : shr_m r1 = Zpos p / 2 ^ Zpos k)
      by (subst r1; rewrite iter_shr_1_m; [reflexivity | cbn; lia]).
    assert (Hpos : 0 < 2 ^ Zpos k) by (apply Z.pow_pos_nonneg; lia).
    assert (Hp : 2 ^ 52 * 2 ^ Zpos k = 2 ^ (d - 1)).
    { rewrite <- Z.pow_add_r by lia. f_equal. lia. }
    assert (Hq : 2 ^ 53 * 2 ^ Zpos k = 2 ^ d).
    { rewrite <- Z.pow_add_r by lia. f_equal. lia. }
    assert (Hb : 2 ^ 52 <= shr_m r1 < 2 ^ 53).
    { rewrite Hr1. split.
      - apply Z.div_le_lower_bound; lia.
      - apply Z.div_lt_upper_bound; lia. }
    pose proof (round_nearest_even_bounds (shr_m r1) (loc_of_shr_record r1)) as Hrn.
    destruct (round_nearest_even _ _) as [|m1|m1]; try lia.
    cbn [Zdigits2].
    destruct (Z.eq_dec (Zpos m1) (2 ^ 53)) as [E|NE].
    + (* the mantissa carries into a 54th bit *)
      change (2 ^ 53) with 9007199254740992 in E. injection E as ->.
      change (Zpos (digits2_pos 9007199254740992)) with 54.
      replace (fexp prec emax (54 + (0 + Zpos k)) - (0 + Zpos k)) with 1
        by (unfold fexp, emin, prec, emax; lia).
      cbn [shr shr_record_of_loc iter_pos shr_1 fst snd shr_m].
      destruct (_ <=? _) eqn:El; cbn [at_least_10]; [|exact I].
      apply Z.leb_le in El. unfold prec, emax in El.
      repeat split; try lia.
    + assert (Hdm : Zpos (digits2_pos m1) = 53)
        by (apply digits2_unique; change (53 - 1) with 52; lia).
      rewrite Hdm.
      replace (fexp prec emax (53 + (0 + Zpos k)) - (0 + Zpos k)) with 0
        by (unfold fexp, emin, prec, emax; lia).
      cbn [shr shr_record_of_loc shr_m].
      destruct (_ <=? _) eqn:El; cbn [at_least_10]; [|exact I].
      apply Z.leb_le in El. unfold prec, emax in El.
      repeat split; try lia.
Qed.

Lemma round_half_even_div_lower (m d : Z) :
  0 < d -> m / d <= round_half_even_div m d.
Proof.
  intros Hd. unfold round_half_even_div.
  destruct (2 * (m mod d) ?= d); [destruct (Z.even _)| |]; lia.
Qed.

(** A double of value at least 10 is rated 5. *)
Lemma number_rating_big (x : float) : at_least_10 x -> number_rating x = 5.
Proof.
  intros Hx. unfold number_rating.
  destruct x as [s|[|]| |[|] m e]; try contradiction.
  - reflexivity.
  - destruct Hx as (Hd & He & Hv).
    assert (He' : -50 < e).
    { destruct Hv as [Hv|Hv]; [lia|].
      destruct (Z.lt_ge_cases (-50) e) as [|Hle]; [assumption|].
      pose proof (digits2_bounds m) as [_ Hhi]. rewrite Hd in Hhi.
      assert (2 ^ 50 <= 2 ^ (- e)) by (apply Z.pow_le_mono_r; lia).
      change (2 ^ 50) with 1125899906842624 in *.
      change (2 ^ 53) with 9007199254740992 in *. lia. }
    assert (Hgt : float_gt (S754_finite false m e) (float_of_Z 5) = true).
    { rewrite float_five. unfold float_gt, SFltb, SFcompare.
      replace (-50 ?= e) with Lt by (symmetry; apply Z.compare_lt_iff; lia).
      reflexivity. }
    rewrite Hgt. unfold float_div. rewrite float_two at 1. cbn [is_zero bind].
    rewrite SFdiv_two by lia.
    unfold clamp_round, py_round. cbn [bind].
    destruct (0 <=? e - 1) eqn:E0.
    + apply Z.leb_le in E0.
      pose proof (digits2_bounds m) as [Hlo _]. rewrite Hd in Hlo.
      change (2 ^ (53 - 1)) with 4503599627370496 in Hlo.
      assert (0 < 2 ^ (e - 1)) by (apply Z.pow_pos_nonneg; lia).
      assert (5 <= Zpos m * 2 ^ (e - 1)) by nia.
      f_equal. lia.
    + apply Z.leb_gt in E0. destruct Hv as [Hv|Hv]; [lia|].
      assert (Hpos : 0 < 2 ^ (- e)) by (apply Z.pow_pos_nonneg; lia).
      assert (Hpw : 2 ^ (- (e - 1)) = 2 * 2 ^ (- e)).
      { replace (- (e - 1)) with (Z.succ (- e)) by lia.
        apply Z.pow_succ_r. lia. }
      pose proof (round_half_even_div_lower (Zpos m) (2 ^ (- (e - 1)))
                    ltac:(lia)) as Hr.
      assert (5 <= Zpos m / 2 ^ (- (e - 1)))
        by (apply Z.div_le_lower_bound; lia).
      f_equal. lia.
Qed.

(** On every integer above 5 the last rule computes, exactly, half the
    integer rounded to the nearest integer (ties to even) and clamped. *)
Lemma number_rating_above_5 (v : Z) :
  5 < v -> number_rating (float_of_Z v) = clamp (round_half_even_div v 2).
Proof.
  intros Hv. destruct (Z.lt_ge_cases v 10) as [Hlt|Hge].
  - assert (Hin : In v [6; 7; 8; 9]) by (simpl; lia).
    repeat (destruct Hin as [<-|Hin]; [reflexivity|]). contradiction.
  - rewrite number_rating_big by now apply float_of_Z_big.
    pose proof (round_half_even_div_lower v 2 ltac:(lia)).
    assert (5 <= v / 2) by (apply Z.div_le_lower_bound; lia).
    unfold clamp. lia.
Qed.

Lemma SFdiv_finite_cases (s1 s2 : bool) (m1 m2 : positive) (e1 e2 : Z) :
  SFdiv prec emax (S754_finite s1 m1 e1) (S754_finite s2 m2 e2) <> S754_nan.
Proof.
  unfold SFdiv, SFdiv_core_binary.
  set (sh := _ - Z.min _ _).
  set (m' := match sh with 0 => _ | Zpos _ => _ | Zneg _ => _ end).
  assert (Hm' : 0 <= m').
  { subst m'. destruct sh; try lia. apply Z.shiftl_nonneg. lia. }
  pose proof (Z_div_mod m' (Zpos m2) ltac:(lia)) as Hdm.
  destruct (Z.div_eucl m' (Zpos m2)) as [q r]. destruct Hdm as [Hq Hr].
  assert (0 <= q) by nia.
  destruct (binary_round_aux_cases (xorb s1 s2) q (Z.min
     (fexp prec emax (Zdigits2 (Zpos m1) + e1 - (Zdigits2 (Zpos m2) + e2)))
     (e1 - e2)) (new_location (Zpos m2) r) ltac:(assumption))
    as [-> | [(m & e & ->) | ->]]; discriminate.
Qed.

(** The scale rules raise no [ValueError] on a rating below 10. *)
Lemma ratio_small (v : Z) (y : float) :
  0 <= v < 10 -> nonneg_float y ->
  (q <- float_div (float_mul (float_of_Z v) (float_of_Z 5)) y ;; clamp_round q)
  <> Raise ValueError.
Proof.
  intros Hv Hy.
  assert (Ha : float_mul (float_of_Z v) (float_of_Z 5) = S754_zero false
               \/ exists m e, float_mul (float_of_Z v) (float_of_Z 5)
                              = S754_finite false m e).
  { assert (Hin : In v [0; 1; 2; 3; 4; 5; 6; 7; 8; 9]) by (simpl; lia).
    destruct Hin as [<-|Hin]; [now left|].
    repeat (destruct Hin as [<-|Hin];
            [right; vm_compute; eexists; eexists; reflexivity|]).
    contradiction. }
  unfold float_div.
  destruct y as [sy|sy| |sy my ey]; cbn [is_zero]; try discriminate;
    try contradiction; cbn [bind].
  - destruct Ha as [-> | (m & e & ->)]; discriminate.
  - destruct Ha as [-> | (m & e & ->)]; [discriminate|].
    pose proof (SFdiv_finite_cases false sy m my e ey) as Hn.
    unfold clamp_round.
    destruct (SFdiv prec emax _ _); try discriminate. contradiction.
Qed.

Section FractionFacts.
Context `{Unicode}.

(** "N/M" for numerals [N] and [M]. *)
Lemma parse_rating_fraction (ds1 ds2 : str) :
  numeral ds1 -> numeral ds2 ->
  parse_rating (ds1 ++ utf8 "/" ++ ds2)
  = Ok (ratio_rating (float_of_Z (digits_value 0 ds1))
                     (float_of_Z (digits_value 0 ds2))).
Proof.
  intros Hn1 Hn2. unfold parse_rating, parse_rating_body.
  destruct (numeral_head ds1 Hn1) as (c & ds1' & E1 & Hc & _).
  destruct (numeral_last ds2 Hn2) as (b & Hb & Hdb).
  pose proof Hn1 as [_ Hds1]. pose proof Hn2 as [_ Hds2].
  change (utf8 "/") with [47%N].
  assert (Hs : strip (ds1 ++ [47%N] ++ ds2) = ds1 ++ [47%N] ++ ds2).
  { apply (strip_id _ c b); auto using digit_not_space.
    - now rewrite E1.
    - now apply last_app, last_app. }
  rewrite Hs.
  assert (Hl : lower (ds1 ++ [47%N] ++ ds2) = ds1 ++ [47%N] ++ ds2).
  { apply lower_fixed; rewrite !Forall_app; repeat split.
    - eapply Forall_impl; [|exact Hds1]. apply digit_plain.
    - repeat constructor.
    - eapply Forall_impl; [|exact Hds2]. apply digit_plain.
    - eapply Forall_impl; [|exact Hds1]. apply digit_lower.
    - repeat constructor.
    - eapply Forall_impl; [|exact Hds2]. apply digit_lower. }
  rewrite Hl.
  assert (Hnot : forall a, is_ascii_digit a = false -> a <> 47%N ->
                           ~ In a (ds1 ++ [47%N] ++ ds2)).
  { intros a Ha Hne. rewrite !in_app_iff.
    intros [Hin|[[Hin|[]]|Hin]]; [|congruence|];
      revert Hin; now apply Forall_digit_not_in. }
  destruct (ds1 ++ [47%N] ++ ds2) as [|c0 t0] eqn:Et.
  { rewrite E1 in Et. discriminate. }
  rewrite <- Et in *. clear Et c0 t0.
  cbn [first_return].
  rewrite rule_out_of_absent, rule_stars_absent
    by (apply Hnot; [reflexivity | discriminate]).
  cbn [bind]. unfold rule_fraction. change (utf8 "/") with [47%N].
  replace (ds1 ++ [47%N] ++ ds2) with (ds1 ++ [47%N] ++ ds2 ++ [])
    by (now rewrite app_nil_r).
  rewrite contains_app.
  assert (Hsp : split (ds1 ++ [47%N] ++ ds2 ++ []) [47%N] = [ds1; ds2]).
  { rewrite app_nil_r, split_found by (now apply Forall_digit_not_in).
    unfold split. rewrite split_go_absent by (now apply Forall_digit_not_in).
    reflexivity. }
  rewrite Hsp. cbn [List.length Nat.eqb nth].
  rewrite !numeral_strip, !float_of_str_numeral by assumption.
  cbn [bind]. unfold ratio_rating.
  set (x := float_of_Z (digits_value 0 ds1)).
  set (y := float_of_Z (digits_value 0 ds2)).
  destruct (q <- float_div (float_mul x (float_of_Z 5)) y ;; clamp_round q)
    as [r|e] eqn:Eq; [reflexivity|].
  assert (Hv1 : 0 <= digits_value 0 ds1)
    by (apply digits_value_nonneg; [assumption | lia]).
  assert (Hv2 : 0 <= digits_value 0 ds2)
    by (apply digits_value_nonneg; [assumption | lia]).
  destruct e; try reflexivity.
  (* [ValueError]: control reaches the last rule *)
  cbn [bind].
  destruct (Z.lt_ge_cases (digits_value 0 ds1) 10) as [Hlt|Hge].
  { exfalso.
    exact (ratio_small (digits_value 0 ds1) y (conj Hv1 Hlt)
             (float_of_Z_nonneg _ Hv2) Eq). }
  pose proof (rule_number_numeral ds1 ([47%N] ++ ds2 ++ []) Hn1) as Hr.
  fold x in Hr. rewrite (number_rating_big x) in Hr
    by (now apply float_of_Z_big).
  assert (Hend : number_end ([47%N] ++ ds2 ++ [])).
  { split; [|discriminate].
    apply plain_not_decimal; [now left | reflexivity]. }
  specialize (Hr Hend).
  destruct (rule_number _) as [[v|]|e]; cbn [bind].
  - now rewrite Hr.
  - contradiction.
  - reflexivity.
Qed.
End FractionFacts.

(** *** Exactness of the scale rules on integers *)

Lemma round_half_even_div_eq (m d q : Z) :
  0 < d -> q * d <= m < (q + 1) * d ->
  round_half_even_div m d
  = match 2 * (m - q * d) ?= d with
    | Lt => q
    | Gt => q + 1
    | Eq => if Z.even q then q else q + 1
    end.
Proof.
  intros Hd Hm. unfold round_half_even_div.
  assert (Hq : m / d = q) by (symmetry; apply (Z.div_unique _ _ _ (m - q * d)); lia).
  assert (Hr : m mod d = m - q * d) by (rewrite Z.mod_eq, Hq by lia; lia).
  now rewrite Hq, Hr.
Qed.

(** An integer [m] nearest to [A * D / B] is rounded, as a multiple of
    [1 / D], to the same integer as [A / B], when [D] is even and exceeds
    [B]. *)
Lemma round_nearest_scaled (A B m D : Z) :
  0 <= A -> 0 < B -> B < D -> Z.even D = true ->
  Z.abs (2 * m * B - 2 * A * D) <= B ->
  round_half_even_div m D = round_half_even_div A B.
Proof.
  intros HA HB HD Hev Hn.
  apply Z.even_spec in Hev as [h Hh].
  pose proof (Z.div_mod A B ltac:(lia)) as Hdm.
  pose proof (Z.mod_pos_bound A B HB) as Hrb.
  set (j := A / B) in *. set (r := A mod B) in *.
  assert (HAj : A = j * B + r) by lia.
  rewrite (round_half_even_div_eq A B j) by lia.
  replace (A - j * B) with r by lia.
  destruct (Z.compare_spec (2 * r) B) as [He|Hl|Hg].
  - (* tie *)
    assert (Hm : m = j * D + h) by nia.
    rewrite (round_half_even_div_eq m D j) by nia.
    replace (2 * (m - j * D)) with D by lia. now rewrite Z.compare_refl.
  - assert (Hlo : j * D <= m) by nia.
    assert (Hhi : 2 * m < (2 * j + 1) * D) by nia.
    rewrite (round_half_even_div_eq m D j) by nia.
    replace (2 * (m - j * D) ?= D) with Lt; [reflexivity|].
    symmetry. apply Z.compare_lt_iff. lia.
  - assert (Hlo : (2 * j + 1) * D < 2 * m) by nia.
    assert (Hhi : m <= (j + 1) * D) by nia.
    destruct (Z.eq_dec m ((j + 1) * D)) as [->|Hne].
    + rewrite (round_half_even_div_eq _ D (j + 1)) by nia.
      replace (2 * ((j + 1) * D - (j + 1) * D)) with 0 by lia.
      replace (0 ?= D) with Lt; [reflexivity|].
      symmetry. apply Z.compare_lt_iff. lia.
    + rewrite (round_half_even_div_eq m D j) by nia.
      replace (2 * (m - j * D) ?= D) with Gt; [reflexivity|].
      symmetry. apply Z.compare_gt_iff. lia.
Qed.

(** A positive integer below 2^53 is a double: its mantissa is the integer
    shifted to 53 bits. *)
Lemma float_of_Z_exact (v : Z) :
  0 < v < 2 ^ 53 ->
  exists m e,
    float_of_Z v = S754_finite false m e
    /\ Zpos (digits2_pos m) = 53 /\ -52 <= e <= 0
    /\ Zpos m = v * 2 ^ (- e).
Proof.
  intros [Hv0 Hv]. destruct v as [|p|p]; try lia.
  unfold float_of_Z, binary_normalize, binary_round.
  pose proof (digits2_bounds p) as [Dlo Dhi].
  set (d := Zpos (digits2_pos p)) in *.
  assert (Hd1 : 1 <= d) by (subst d; lia).
  assert (Hle : d <= 53).
  { destruct (Z.le_gt_cases d 53) as [|Hgt]; [assumption|].
    assert (2 ^ 53 <= 2 ^ (d - 1)) by (apply Z.pow_le_mono_r; lia). lia. }
  rewrite Z.add_0_r.
  replace (fexp prec emax d) with (d - 53)
    by (unfold fexp, emin, prec, emax; lia).
  unfold shl_align. rewrite Z.sub_0_r.
  destruct (d - 53) as [|k|k] eqn:Ek; try lia.
  - rewrite binary_round_aux_canonical by (fold d; lia).
    exists p, 0. fold d. repeat split; try lia.
  - assert (Hk : Zpos k = 53 - d) by lia.
    assert (Hm : Zpos (Pos.iter xO p k) = Zpos p * 2 ^ Zpos k) by apply iter_xO.
    assert (Hp : 2 ^ (d - 1) * 2 ^ Zpos k = 2 ^ 52).
    { rewrite <- Z.pow_add_r by lia. f_equal. lia. }
    assert (Hq : 2 ^ d * 2 ^ Zpos k = 2 ^ 53).
    { rewrite <- Z.pow_add_r by lia. f_equal. lia. }
    assert (Hpos : 0 < 2 ^ Zpos k) by (apply Z.pow_pos_nonneg; lia).
    assert (Hdm : Zpos (digits2_pos (Pos.iter xO p k)) = 53).
    { apply digits2_unique. rewrite Hm. change (53 - 1) with 52. nia. }
    rewrite binary_round_aux_canonical by lia.
    exists (Pos.iter xO p k), (Zneg k). repeat split; try lia.
    rewrite Hm. reflexivity.
Qed.

(** Shifting out [k] zero bits is exact. *)
Lemma iter_shr_1_exact (k : positive) (m : Z) :
  0 <= m ->
  iter_pos shr_1 k (Build_shr_record (m * 2 ^ Zpos k) false false)
  = Build_shr_record m false false.
Proof.
  assert (H1 : forall m, 0 <= m ->
             shr_1 (Build_shr_record (m * 2) false false)
             = Build_shr_record m false false).
  { intros [|q|q] Hq; try lia; rewrite Z.mul_comm; reflexivity. }
  revert m. induction k as [k IH|k IH|]; intros m Hm; cbn [iter_pos].
  - rewrite pow2_xI.
    replace (m * (2 * (2 ^ Zpos k * 2 ^ Zpos k)))
      with (m * 2 ^ Zpos k * 2 ^ Zpos k * 2) by lia.
    assert (0 < 2 ^ Zpos k) by (apply Z.pow_pos_nonneg; lia).
    rewrite H1 by nia. rewrite IH by nia. now apply IH.
  - rewrite pow2_xO.
    replace (m * (2 ^ Zpos k * 2 ^ Zpos k))
      with (m * 2 ^ Zpos k * 2 ^ Zpos k) by lia.
    assert (0 < 2 ^ Zpos k) by (apply Z.pow_pos_nonneg; lia).
    rewrite IH by nia. now apply IH.
  - change (2 ^ 1) with 2. now apply H1.
Qed.

(** A mantissa of 53 bits followed by [n] zero bits is rounded to the
    53 bits. *)
Lemma binary_round_aux_exact (s : bool) (m : positive) (e n : Z) :
  Zpos (digits2_pos m) = 53 -> 0 <= n -> -1074 <= e + n <= 971 ->
  binary_round_aux prec emax s (Zpos m * 2 ^ n) e loc_Exact
  = S754_finite s m (e + n).
Proof.
  intros Hd Hn He. destruct n as [|k|k]; try lia.
  { rewrite Z.mul_1_r, Z.add_0_r.
    apply binary_round_aux_canonical; [assumption | lia]. }
  assert (Hpos : 0 < 2 ^ Zpos k) by (apply Z.pow_pos_nonneg; lia).
  pose proof (digits2_bounds m) as [Dlo Dhi]. rewrite Hd in Dlo, Dhi.
  change (53 - 1) with 52 in Dlo.
  destruct (Zpos m * 2 ^ Zpos k) as [|P|P] eqn:EP; try lia.
  assert (HdP : Zpos (digits2_pos P) = 53 + Zpos k).
  { apply digits2_unique. rewrite <- EP.
    replace (53 + Zpos k - 1) with (52 + Zpos k) by lia.
    rewrite !Z.pow_add_r by lia. nia. }
  unfold binary_round_aux, shr_fexp. cbn [Zdigits2]. rewrite HdP.
  replace (fexp prec emax (53 + Zpos k + e) - e) with (Zpos k)
    by (unfold fexp, emin, prec, emax; lia).
  cbn [shr shr_record_of_loc]. rewrite <- EP, iter_shr_1_exact by lia.
  cbn [loc_of_shr_record shr_m round_nearest_even Zdigits2]. rewrite Hd.
  replace (fexp prec emax (53 + (e + Zpos k)) - (e + Zpos k)) with 0
    by (unfold fexp, emin, prec, emax; lia).
  cbn [shr shr_record_of_loc shr_m].
  replace (e + Zpos k <=? emax - prec) with true
    by (symmetry; apply Z.leb_le; unfold prec, emax; lia).
  reflexivity.
Qed.

(** Five times an integer, as long as the product is below 2^53, is
    computed exactly. *)
Lemma float_mul_five_exact (N : Z) :
  0 < N -> N * 5 < 2 ^ 53 ->
  float_mul (float_of_Z N) (float_of_Z 5) = float_of_Z (N * 5).
Proof.
  intros HN H5.
  destruct (float_of_Z_exact N ltac:(lia)) as (mN & eN & EN & HdN & HeN & HmN).
  destruct (float_of_Z_exact (N * 5) ltac:(lia))
    as (mA & eA & EA & HdA & HeA & HmA).
  rewrite EN, EA, float_five. unfold float_mul, SFmul. cbn [xorb].
  assert (HpN : 0 < 2 ^ (- eN)) by (apply Z.pow_pos_nonneg; lia).
  assert (HpA : 0 < 2 ^ (- eA)) by (apply Z.pow_pos_nonneg; lia).
  (* the exponent of the product is not below that of the factor *)
  assert (Hee : eN <= eA).
  { destruct (Z.le_gt_cases eN eA) as [|Hgt]; [assumption|].
    pose proof (digits2_bounds mN) as [LN UN]. rewrite HdN in LN, UN.
    pose proof (digits2_bounds mA) as [LA UA]. rewrite HdA in LA, UA.
    assert (Hs : 2 ^ (- eA) = 2 ^ (- eN) * 2 ^ (eN - eA)).
    { rewrite <- Z.pow_add_r by lia. f_equal. lia. }
    assert (2 <= 2 ^ (eN - eA)).
    { change 2 with (2 ^ 1) at 1. apply Z.pow_le_mono_r; lia. }
    change (53 - 1) with 52 in *. nia. }
  assert (Hprod : Zpos (mN * 5629499534213120)
                  = Zpos mA * 2 ^ (eA - eN + 50)).
  { rewrite Pos2Z.inj_mul, HmN, HmA.
    replace (eA - eN + 50) with ((eA - eN) + 50) by lia.
    rewrite Z.pow_add_r by lia. change (2 ^ 50) with 1125899906842624.
    assert (Hs : 2 ^ (- eN) = 2 ^ (- eA) * 2 ^ (eA - eN)).
    { rewrite <- Z.pow_add_r by lia. f_equal. lia. }
    rewrite Hs. lia. }
  rewrite Hprod, binary_round_aux_exact by lia.
  f_equal. lia.
Qed.

(** The position of [q + r / Y] between [q] and [q + 1]. *)
Lemma new_location_spec (Y r : Z) :
  0 < Y -> 0 <= r < Y ->
  new_location Y r
  = if r =? 0 then loc_Exact else loc_Inexact (2 * r ?= Y).
Proof.
  intros HY Hr. unfold new_location, new_location_even, new_location_odd.
  destruct (Z.even Y) eqn:Ev; [reflexivity|].
  destruct (r =? 0); [reflexivity|]. f_equal.
  assert (Hodd : Z.odd Y = true) by (rewrite <- Z.negb_even, Ev; reflexivity).
  apply Z.odd_spec in Hodd as [h Hh].
  destruct (Z.compare_spec (2 * r + 1) Y), (Z.compare_spec (2 * r) Y);
    try reflexivity; lia.
Qed.

Lemma loc_of_shr_record_of_loc (m : Z) (l : location) :
  loc_of_shr_record (shr_record_of_loc m l) = l.
Proof. destruct l as [|[]]; reflexivity. Qed.

(** The last step of rounding: a mantissa of 53 bits is kept, 2^53 is
    renormalised. *)
Lemma shr_fexp_carry (m1 e1 : Z) :
  2 ^ 52 <= m1 <= 2 ^ 53 -> -1074 <= e1 <= 970 ->
  (let '(mrs, e) := shr_fexp prec emax m1 e1 loc_Exact in
   match shr_m mrs with
   | 0 => S754_zero false
   | Zpos m => if e <=? emax - prec then S754_finite false m e
               else S754_infinity false
   | Zneg _ => S754_nan
   end)
  = if m1 <? 2 ^ 53 then S754_finite false (Z.to_pos m1) e1
    else S754_finite false 4503599627370496 (e1 + 1).
Proof.
  intros Hm He. change (2 ^ 52) with 4503599627370496 in *.
  change (2 ^ 53) with 9007199254740992 in *.
  destruct m1 as [|p|p]; try lia.
  destruct (Z.ltb_spec (Zpos p) 9007199254740992) as [Hlt|Hge].
  - assert (Hd : Zpos (digits2_pos p) = 53)
      by (apply digits2_unique; change (2 ^ (53 - 1)) with 4503599627370496;
          change (2 ^ 53) with 9007199254740992; lia).
    unfold shr_fexp. cbn [Zdigits2]. rewrite Hd.
    replace (fexp prec emax (53 + e1) - e1) with 0
      by (unfold fexp, emin, prec, emax; lia).
    cbn [shr shr_record_of_loc shr_m].
    replace (e1 <=? emax - prec) with true
      by (symmetry; apply Z.leb_le; unfold prec, emax; lia).
    reflexivity.
  - assert (Hp : p = 9007199254740992%positive) by lia. subst p.
    unfold shr_fexp. cbn [Zdigits2].
    change (Zpos (digits2_pos 9007199254740992)) with 54.
    replace (fexp prec emax (54 + e1) - e1) with 1
      by (unfold fexp, emin, prec, emax; lia).
    cbn [shr shr_record_of_loc iter_pos shr_1 shr_m].
    replace (e1 + 1 <=? emax - prec) with true
      by (symmetry; apply Z.leb_le; unfold prec, emax; lia).
    reflexivity.
Qed.

(** The first step of rounding a quotient [q0 + r / Y] of 53 or 54 bits:
    the mantissa [m1], in units of [2^n] with [n] 0 or 1, is nearest to
    the quotient. *)
Lemma shr_fexp_quotient (q0 r Y e' : Z) :
  2 ^ 52 <= q0 < 2 ^ 54 -> 0 <= r < Y -> -1074 <= e' <= 960 ->
  exists rec n,
    shr_fexp prec emax q0 e'
      (if r =? 0 then loc_Exact else loc_Inexact (2 * r ?= Y))
    = (rec, e' + n)
    /\ (n = 0 \/ n = 1)
    /\ 2 ^ 52 <= round_nearest_even (shr_m rec) (loc_of_shr_record rec)
       <= 2 ^ 53
    /\ Z.abs (2 * round_nearest_even (shr_m rec) (loc_of_shr_record rec)
              * Y * 2 ^ n - 2 * (q0 * Y + r)) <= Y * 2 ^ n.
Proof.
  intros Hq Hr He. change (2 ^ 52) with 4503599627370496 in *.
  change (2 ^ 53) with 9007199254740992 in *.
  change (2 ^ 54) with 18014398509481984 in *.
  destruct q0 as [|p|p]; try lia.
  set (loc := if r =? 0 then loc_Exact else loc_Inexact (2 * r ?= Y)).
  destruct (Z.lt_ge_cases (Zpos p) 9007199254740992) as [Hlt|Hge].
  - (* 53 bits: no shift *)
    assert (Hd : Zpos (digits2_pos p) = 53)
      by (apply digits2_unique; change (2 ^ (53 - 1)) with 4503599627370496;
          change (2 ^ 53) with 9007199254740992; lia).
    exists (shr_record_of_loc (Zpos p) loc), 0.
    unfold shr_fexp. cbn [Zdigits2]. rewrite Hd.
    replace (fexp prec emax (53 + e') - e') with 0
      by (unfold fexp, emin, prec, emax; lia).
    cbn [shr]. rewrite Z.add_0_r, shr_record_of_loc_m, loc_of_shr_record_of_loc.
    split; [reflexivity|]. split; [now left|].
    change (2 ^ 0) with 1. subst loc.
    destruct (Z.eqb_spec r 0) as [->|Hr0]; cbn [round_nearest_even].
    { split; lia. }
    destruct (Z.compare_spec (2 * r) Y); cbn [round_nearest_even];
      [destruct (Z.even (Zpos p))| |]; split; lia.
  - (* 54 bits: one bit is shifted out *)
    assert (Hd : Zpos (digits2_pos p) = 54)
      by (apply digits2_unique; change (2 ^ (54 - 1)) with 9007199254740992;
          change (2 ^ 54) with 18014398509481984; lia).
    exists (shr_1 (shr_record_of_loc (Zpos p) loc)), 1.
    unfold shr_fexp. cbn [Zdigits2]. rewrite Hd.
    replace (fexp prec emax (54 + e') - e') with 1
      by (unfold fexp, emin, prec, emax; lia).
    cbn [shr iter_pos].
    split; [reflexivity|]. split; [now right|].
    change (2 ^ 1) with 2. subst loc.
    destruct p as [p1|p1|]; try lia.
    + (* odd quotient *)
      destruct (Z.eqb_spec r 0) as [->|Hr0];
        [|destruct (Z.compare_spec (2 * r) Y)];
        cbn [shr_record_of_loc shr_1 shr_m loc_of_shr_record orb
             round_nearest_even];
        try destruct (Z.even (Zpos p1)); split; lia.
    + destruct (Z.eqb_spec r 0) as [->|Hr0];
        [|destruct (Z.compare_spec (2 * r) Y)];
        cbn [shr_record_of_loc shr_1 shr_m loc_of_shr_record orb
             round_nearest_even];
        split; lia.
Qed.

Lemma round_half_even_div_double (a d : Z) :
  0 <= a -> 0 < d ->
  round_half_even_div (2 * a) (2 * d) = round_half_even_div a d.
Proof.
  intros Ha Hd.
  pose proof (Z.div_mod a d ltac:(lia)) as Hdm.
  pose proof (Z.mod_pos_bound a d Hd) as Hb.
  rewrite (round_half_even_div_eq (2 * a) (2 * d) (a / d)) by lia.
  rewrite (round_half_even_div_eq a d (a / d)) by lia.
  destruct (Z.compare_spec (2 * (2 * a - a / d * (2 * d))) (2 * d)),
           (Z.compare_spec (2 * (a - a / d * d)) d); try reflexivity; lia.
Qed.

(** The quotient of two doubles that are integers [A < 2^52] and
    [B < 2^53], rounded to an integer, is [A / B] rounded to an integer:
    the rounding of the quotient to a double does not show. *)
Lemma py_round_SFdiv_exact (mA mB : positive) (eA eB A B : Z) :
  Zpos (digits2_pos mA) = 53 -> Zpos (digits2_pos mB) = 53 ->
  -52 <= eA <= -1 -> -52 <= eB <= 0 -> 0 < A -> 0 < B ->
  Zpos mA = A * 2 ^ (- eA) -> Zpos mB = B * 2 ^ (- eB) ->
  py_round (SFdiv prec emax (S754_finite false mA eA)
                            (S754_finite false mB eB))
  = Ok (round_half_even_div A B).
Proof.
  intros HdA HdB HeA HeB HA HB HmA HmB.
  pose proof (digits2_bounds mA) as [LA UA]. rewrite HdA in LA, UA.
  pose proof (digits2_bounds mB) as [LB UB]. rewrite HdB in LB, UB.
  change (2 ^ (53 - 1)) with 4503599627370496 in *.
  change (2 ^ 53) with 9007199254740992 in *.
  unfold SFdiv, SFdiv_core_binary. cbn [Zdigits2 xorb]. rewrite HdA, HdB.
  replace (fexp prec emax (53 + eA - (53 + eB))) with (eA - eB - 53)
    by (unfold fexp, emin, prec, emax; lia).
  replace (Z.min (eA - eB - 53) (eA - eB)) with (eA - eB - 53) by lia.
  replace (eA - eB - (eA - eB - 53)) with 53 by lia.
  cbv iota. rewrite Z.shiftl_mul_pow2 by lia.
  change (2 ^ 53) with 9007199254740992.
  pose proof (Z_div_mod (Zpos mA * 9007199254740992) (Zpos mB) ltac:(lia))
    as Hdm.
  destruct (Z.div_eucl _ _) as [q0 r]. destruct Hdm as [Hq Hr].
  rewrite new_location_spec by lia.
  assert (Hq0 : 2 ^ 52 <= q0 < 2 ^ 54).
  { change (2 ^ 52) with 4503599627370496.
    change (2 ^ 54) with 18014398509481984. nia. }
  destruct (shr_fexp_quotient q0 r (Zpos mB) (eA - eB - 53) Hq0 Hr ltac:(lia))
    as (rec & n & Hs & Hn & Hm1 & Hnear).
  unfold binary_round_aux. rewrite Hs.
  set (m1 := round_nearest_even (shr_m rec) (loc_of_shr_record rec)) in *.
  set (e1 := eA - eB - 53 + n) in *.
  rewrite (shr_fexp_carry m1 e1) by (subst e1; lia).
  (* the nearest integer to A / B in units of 1 / D *)
  set (D := 2 ^ (- e1)).
  assert (He1 : - e1 = (- eA - n) + (53 + eB)) by (subst e1; lia).
  assert (HpB : 0 < 2 ^ (- eB)) by (apply Z.pow_pos_nonneg; lia).
  assert (Hpn : 2 ^ n = 1 \/ 2 ^ n = 2) by (destruct Hn as [->| ->]; auto).
  assert (HD1 : 2 ^ (53 + eB) <= D).
  { subst D. apply Z.pow_le_mono_r; lia. }
  assert (HBD : B < D).
  { assert (Hs2 : 2 ^ (53 + eB) * 2 ^ (- eB) = 9007199254740992).
    { rewrite <- Z.pow_add_r by lia. now replace (53 + eB + - eB) with 53 by lia. }
    assert (B < 2 ^ (53 + eB)); [|lia].
    apply (Z.mul_lt_mono_pos_r (2 ^ (- eB))); [assumption|].
    rewrite Hs2, <- HmB. lia. }
  assert (HDev : Z.even D = true).
  { subst D. replace (- e1) with (Z.succ (- e1 - 1)) by lia.
    rewrite Z.pow_succ_r by (subst e1; lia). apply Z.even_mul. }
  set (S := 2 ^ (- eB) * 2 ^ n).
  assert (HS : 0 < S).
  { subst S. apply Z.mul_pos_pos; [assumption|].
    destruct Hpn as [-> | ->]; lia. }
  assert (HDS : D * S = 2 ^ (- eA) * 9007199254740992).
  { subst D S. rewrite <- !Z.pow_add_r by (subst e1; lia).
    change 9007199254740992 with (2 ^ 53).
    rewrite <- Z.pow_add_r by lia. f_equal. subst e1. lia. }
  assert (Hscaled : Z.abs (2 * m1 * B - 2 * A * D) <= B).
  { assert (Heq : 2 * m1 * Zpos mB * 2 ^ n - 2 * (q0 * Zpos mB + r)
                  = (2 * m1 * B - 2 * A * D) * S).
    { transitivity (2 * m1 * (B * 2 ^ (- eB)) * 2 ^ n
                    - 2 * (A * 2 ^ (- eA) * 9007199254740992)).
      - rewrite <- HmB, <- HmA, Hq. ring.
      - replace ((2 * m1 * B - 2 * A * D) * S)
          with (2 * m1 * B * S - 2 * A * (D * S)) by ring.
        rewrite HDS. subst S. ring. }
    rewrite Heq, Z.abs_mul, (Z.abs_eq S) in Hnear by lia.
    apply (Z.mul_le_mono_pos_r _ _ S); [assumption|].
    replace (B * S) with (Zpos mB * 2 ^ n); [exact Hnear|].
    rewrite HmB. subst S. ring. }
  pose proof (round_nearest_scaled A B m1 D ltac:(lia) HB HBD HDev Hscaled)
    as Hround.
  rewrite <- Hround.
  assert (HDpos : 2 <= D) by lia.
  destruct (Z.ltb_spec m1 (2 ^ 53)) as [Hlt|Hge].
  - cbn [py_round].
    replace (0 <=? e1) with false
      by (symmetry; apply Z.leb_gt; subst e1; lia).
    rewrite Z2Pos.id by lia. reflexivity.
  - assert (Hm1eq : m1 = 2 * 4503599627370496)
      by (change (2 ^ 53) with 9007199254740992 in *; lia).
    cbn [py_round].
    destruct (Z.leb_spec 0 (e1 + 1)) as [H0|H0].
    + assert (e1 = -1) by (subst e1; lia).
      assert (HD2 : D = 2) by (subst D; replace (- e1) with 1 by lia; reflexivity).
      replace (e1 + 1) with 0 by lia. rewrite HD2, Hm1eq.
      change (2 ^ 0) with 1. vm_compute. reflexivity.
    + assert (HDd : D = 2 * 2 ^ (- (e1 + 1))).
      { subst D. replace (- e1) with (Z.succ (- (e1 + 1))) by lia.
        apply Z.pow_succ_r. lia. }
      rewrite HDd, Hm1eq, round_half_even_div_double; [reflexivity|lia|].
      apply Z.pow_pos_nonneg; lia.
Qed.

(** For an integer rating [N] below 2^52 / 5 = 900719925474099.2 and an
    integer scale [M] from 1 to below 2^53, the scale rules compute
    clamp(round(N*5/M), 1, 5) exactly. *)
Lemma ratio_rating_exact (N M : Z) :
  0 <= N -> N * 5 < 2 ^ 52 -> 0 < M < 2 ^ 53 ->
  ratio_rating (float_of_Z N) (float_of_Z M) = spec_ratio N M.
Proof.
  intros HN H5 HM. unfold ratio_rating, spec_ratio, clamp.
  destruct (float_of_Z_exact M HM) as (mB & eB & EB & HdB & HeB & HmB).
  destruct (Z.eq_dec N 0) as [->|Hne].
  { rewrite EB. change (0 * 5) with 0.
    rewrite (round_half_even_div_eq 0 M 0) by lia.
    replace (2 * (0 - 0 * M) ?= M) with Lt by (symmetry; apply Z.compare_lt_iff; lia).
    reflexivity. }
  assert (H53 : 2 ^ 52 < 2 ^ 53) by reflexivity.
  rewrite float_mul_five_exact by lia.
  destruct (float_of_Z_exact (N * 5) ltac:(lia))
    as (mA & eA & EA & HdA & HeA & HmA).
  assert (HeA1 : eA <= -1).
  { destruct (Z.eq_dec eA 0) as [->|]; [|lia].
    pose proof (digits2_bounds mA) as [LA _]. rewrite HdA in LA.
    change (2 ^ (53 - 1)) with (2 ^ 52) in LA. simpl (2 ^ (- 0)) in HmA. lia. }
  rewrite EA, EB. unfold float_div, clamp_round. cbn [is_zero bind].
  rewrite (py_round_SFdiv_exact mA mB eA eB (N * 5) M) by (auto; lia).
  reflexivity.
Qed.

Lemma ratio_rating_zero (x : float) : ratio_rating x (float_of_Z 0) = 5.
Proof. reflexivity. Qed.

(** ** The claims about [parse_rating] *)

(** C5, counterexample: the text "9" is rated 4, not 5: half of 9 is 4.5,
    and [round] takes a tie to the even integer. *)
Lemma nine_is_rated_4 :
  parse_rating (utf8 "9") = Ok 4 /\ parse_rating (utf8 "9") <> Ok 5.
Proof. split; [vm_compute; reflexivity | vm_compute; discriminate]. Qed.

(** C5, amended: for a numeral whose value [n] exceeds 5, [parse_rating]
    returns half of [n], rounded to the nearest integer with ties to even
    and clamped to 1..5. *)
Theorem numeral_above_5_is_halved `{Unicode} (ds : str) :
  numeral ds -> 5 < digits_value 0 ds ->
  parse_rating ds = Ok (clamp (round_half_even_div (digits_value 0 ds) 2)).
Proof.
  intros Hn Hv. rewrite parse_rating_numeral by assumption.
  now rewrite number_rating_above_5.
Qed.

(** The text "7": half of 7 is 3.5, rounded to 4. *)
Lemma numeral_above_5_is_halved_witness : parse_rating (utf8 "7") = Ok 4.
Proof.
  apply (numeral_above_5_is_halved (utf8 "7")).
  - split; [discriminate | repeat constructor].
  - vm_compute. reflexivity.
Defined.

(** C6, counterexample: with N = 70000000000000002 and
    M = 100000000000000003 the text "N out of M" is rated 4, while N*5/M is
    below 3.5, so that every rounding to a nearest integer gives 3. *)
Lemma out_of_is_not_exact :
  let N := 70000000000000002 in
  let M := 100000000000000003 in
  0 < N <= M
  /\ parse_rating (utf8 "70000000000000002 out of 100000000000000003")
     <> Ok (spec_ratio N M)
  /\ parse_rating (utf8 "70000000000000002 out of 100000000000000003") = Ok 4
  /\ forall r, nearest_to r (N * 5) M -> clamp r = 3.
Proof.
  cbv zeta. split; [lia|]. split; [|split].
  - vm_compute. discriminate.
  - vm_compute. reflexivity.
  - unfold nearest_to, clamp. intros r Hr. lia.
Qed.

(** C6, amended: for numerals N and M, the texts "N out of M" and "N/M" are
    rated by [ratio_rating] on the doubles nearest to N and M: N*5/M in
    binary64 arithmetic, rounded to the nearest integer (ties to even) and
    clamped to 1..5, and the default 5 when M is zero or the quotient is
    not finite.  For N*5 below 2^52 and M from 1 to below 2^53 this is
    clamp(round(N*5/M), 1, 5) in exact arithmetic. *)
Theorem ratio_forms `{Unicode} (ds1 ds2 : str) :
  numeral ds1 -> numeral ds2 ->
  let N := digits_value 0 ds1 in
  let M := digits_value 0 ds2 in
  parse_rating (ds1 ++ utf8 " out of " ++ ds2)
  = Ok (ratio_rating (float_of_Z N) (float_of_Z M))
  /\ parse_rating (ds1 ++ utf8 "/" ++ ds2)
     = Ok (ratio_rating (float_of_Z N) (float_of_Z M))
  /\ (M = 0 -> ratio_rating (float_of_Z N) (float_of_Z M) = 5)
  /\ (N * 5 < 2 ^ 52 -> 0 < M < 2 ^ 53 ->
      ratio_rating (float_of_Z N) (float_of_Z M) = spec_ratio N M).
Proof.
  intros Hn1 Hn2 N M. repeat split.
  - now apply parse_rating_out_of.
  - now apply parse_rating_fraction.
  - intros ->. apply ratio_rating_zero.
  - intros HN HM. apply ratio_rating_exact; [|assumption..].
    destruct Hn1 as [_ Hds].
    apply digits_value_nonneg; [assumption | lia].
Qed.

(** The examples of the spec. *)
Lemma ratio_forms_witness :
  parse_rating (utf8 "4 out of 5") = Ok 4
  /\ parse_rating (utf8 "7 out of 10") = Ok 4
  /\ parse_rating (utf8 "8/10") = Ok 4.
Proof.
  assert (N4 : numeral (utf8 "4")) by (split; [discriminate | repeat constructor]).
  assert (N5 : numeral (utf8 "5")) by (split; [discriminate | repeat constructor]).
  assert (N7 : numeral (utf8 "7")) by (split; [discriminate | repeat constructor]).
  assert (N8 : numeral (utf8 "8")) by (split; [discriminate | repeat constructor]).
  assert (N10 : numeral (utf8 "10")) by (split; [discriminate | repeat constructor]).
  split; [|split].
  - exact (proj1 (ratio_forms (utf8 "4") (utf8 "5") N4 N5)).
  - exact (proj1 (ratio_forms (utf8 "7") (utf8 "10") N7 N10)).
  - exact (proj1 (proj2 (ratio_forms (utf8 "8") (utf8 "10") N8 N10))).
Defined.

(** *** Star glyphs *)

Lemma count_map_lower_star (s : str) :
  count (map ascii_lower s) star = count s star.
Proof.
  induction s as [|c s IH]; [reflexivity|]. cbn [map count]. rewrite IH.
  f_equal. unfold ascii_lower, star. ncases.
Qed.

Section StarFacts.
Context `{Unicode}.

Lemma star_not_space : isspace star = false.
Proof. rewrite isspace_plain by now right. reflexivity. Qed.

(** The count of star glyphs survives [strip] and [lower]. *)
Lemma normalised_star_count (t : str) :
  Forall plain t -> count (lower (strip t)) star = count t star.
Proof.
  intros Hp. rewrite lower_plain by now apply strip_Forall.
  rewrite count_map_lower_star. apply strip_count, star_not_space.
Qed.

(** A text of ASCII characters and star glyphs with at least one glyph,
    on which the "out of" rule does not return, is rated by the number of
    its glyphs, whatever that number is. *)
Lemma parse_rating_stars (t : str) :
  Forall plain t ->
  rule_out_of (lower (strip t)) = Ok None ->
  0 < count t star ->
  parse_rating t = Ok (count t star).
Proof.
  intros Hp Ho Hk. unfold parse_rating, parse_rating_body.
  pose proof (normalised_star_count t Hp) as Hc.
  destruct (lower (strip t)) as [|c s] eqn:E.
  { simpl in Hc. lia. }
  cbn [first_return]. rewrite Ho. cbn [bind]. unfold rule_stars.
  rewrite contains_char, Hc.
  replace (0 <? count t star) with true by (symmetry; now apply Z.ltb_lt).
  reflexivity.
Qed.
End StarFacts.

(** C4: a text of ASCII characters and star glyphs with [k >= 1] glyphs,
    on which the "out of" rule does not return, is rated [k]: the count is
    returned as it is and is not clamped, so that six glyphs are rated 6. *)
Theorem stars_are_counted_unclamped `{Unicode} (t : str) :
  Forall plain t ->
  rule_out_of (lower (strip t)) = Ok None ->
  1 <= count t star ->
  parse_rating t = Ok (count t star).
Proof.
  intros Hp Ho Hk. apply parse_rating_stars; auto. lia.
Qed.

(** Six glyphs. *)
Lemma stars_are_counted_unclamped_witness :
  parse_rating (utf8 "★★★★★★") = Ok 6.
Proof.
  apply (stars_are_counted_unclamped (utf8 "★★★★★★")).
  - replace (utf8 "★★★★★★") with (repeat star 6) by (vm_compute; reflexivity).
    apply Forall_forall. intros c Hc%repeat_spec. now right.
  - vm_compute. reflexivity.
  - vm_compute. discriminate.
Defined.

(** Every rating is in 1..5, except on the star rule, which returns the
    number of glyphs of the stripped and lowered text. *)
Lemma clamp_round_range (x : float) (r : Z) :
  clamp_round x = Ok r -> 1 <= r <= 5.
Proof.
  unfold clamp_round. destruct (py_round x); cbn [bind]; [|discriminate].
  intros [= <-]. lia.
Qed.

Lemma parse_rating_range `{Unicode} (rating_text : str) (r : Z) :
  parse_rating rating_text = Ok r ->
  1 <= r <= 5
  \/ (5 < r /\ r = count (lower (strip rating_text)) star).
Proof.
  unfold parse_rating, parse_rating_body.
  set (text := lower (strip rating_text)).
  destruct text as [|c s] eqn:E.
  { intros [= <-]. left. lia. }
  rewrite <- E. clear E c s. cbn [first_return].
  assert (Hc : forall x v, (v' <- clamp_round x ;; Ok (Some v')) = Ok (Some v) ->
                           1 <= v <= 5).
  { intros x v. destruct (clamp_round x) as [v'|] eqn:Ec; cbn [bind];
      [|discriminate]. intros [= <-]. eapply clamp_round_range; eauto. }
  (* the "out of" rule *)
  assert (H1 : forall v, rule_out_of text = Ok (Some v) -> 1 <= v <= 5).
  { intros v. unfold rule_out_of.
    destruct (contains _ text); [|discriminate].
    destruct (_ <=? _)%nat; [|discriminate].
    destruct (extract_first_number _) as [[rv|]|]; cbn [bind]; try discriminate;
      destruct (extract_first_number _) as [[sc|]|]; cbn [bind];
      try discriminate.
    destruct (float_div _ _) as [q|]; cbn [bind]; [|discriminate]. apply Hc. }
  (* the fraction rule *)
  assert (H3 : forall v, rule_fraction text = Ok (Some v) -> 1 <= v <= 5).
  { intros v. unfold rule_fraction.
    destruct (contains _ text); [|discriminate].
    destruct (_ =? _)%nat; [|discriminate].
    destruct (num <- _ ;; _) as [v'|[]] eqn:En; try discriminate.
    intros [= <-].
    destruct (float_of_str _) as [num|]; cbn [bind] in En; [|discriminate].
    destruct (float_of_str _) as [den|]; cbn [bind] in En; [|discriminate].
    destruct (float_div _ _) as [q|]; cbn [bind] in En; [|discriminate].
    eapply clamp_round_range; eauto. }
  (* the number rule *)
  assert (H4 : forall v, rule_number text = Ok (Some v) -> 1 <= v <= 5).
  { intros v. unfold rule_number.
    destruct (extract_first_number text) as [[x|]|]; cbn [bind];
      try discriminate.
    destruct (if float_gt _ _ then _ else _) as [x'|]; cbn [bind];
      [|discriminate]. apply Hc. }
  destruct (rule_out_of text) as [[v|]|] eqn:E1; cbn [bind].
  { intros [= <-]. left. now apply H1. }
  2:{ intros [= <-]. left. lia. }
  unfold rule_stars. rewrite contains_char.
  destruct (0 <? count text star) eqn:Es; cbn [bind].
  { apply Z.ltb_lt in Es. intros [= <-].
    destruct (Z.le_gt_cases (count text star) 5); [left; lia | right; lia]. }
  destruct (rule_fraction text) as [[v|]|] eqn:E3; cbn [bind].
  { intros [= <-]. left. now apply H3. }
  2:{ intros [= <-]. left. lia. }
  destruct (rule_number text) as [[v|]|] eqn:E4; cbn [bind].
  { intros [= <-]. left. now apply H4. }
  all: intros [= <-]; left; lia.
Qed.

(** *** Texts without a number *)

Section DefaultFacts.
Context `{Unicode}.

Lemma rule_out_of_no_digit (s : str) :
  Forall (fun c => isdecimal c = false) s -> rule_out_of s = Ok None.
Proof.
  intros Hs. unfold rule_out_of.
  destruct (contains _ s); [|reflexivity].
  destruct (_ <=? _)%nat; [|reflexivity].
  rewrite !extract_first_number_none by now apply split_Forall.
  reflexivity.
Qed.

Lemma rule_fraction_no_digit (s : str) :
  Forall (fun c => isdecimal c = false) s -> rule_fraction s = Ok None.
Proof.
  intros Hs. unfold rule_fraction.
  destruct (contains _ s); [|reflexivity].
  destruct (_ =? _)%nat; [|reflexivity].
  pose proof (float_of_str_no_digit (strip (nth 0 (split s (utf8 "/")) []))
                ltac:(now apply strip_Forall, split_Forall)) as H0.
  pose proof (float_of_str_no_digit (strip (nth 1 (split s (utf8 "/")) []))
                ltac:(now apply strip_Forall, split_Forall)) as H1.
  unfold float_div, float_mul, clamp_round. rewrite float_five.
  destruct H0 as [-> | [[b0 ->] | ->]]; cbn [bind]; try reflexivity;
    destruct H1 as [-> | [[b1 ->] | ->]]; reflexivity.
Qed.

Lemma rule_number_no_digit (s : str) :
  Forall (fun c => isdecimal c = false) s -> rule_number s = Ok None.
Proof.
  intros Hs. unfold rule_number. now rewrite extract_first_number_none.
Qed.
End DefaultFacts.

Lemma parse_rating_returns `{Unicode} (rating_text : str) :
  exists r, parse_rating rating_text = Ok r.
Proof.
  unfold parse_rating. destruct (parse_rating_body rating_text); eauto.
Qed.

(** C7: [parse_rating] returns a value on every text and never raises; a
    text that is empty or blank is rated 5, and so is a text in which,
    once stripped and lowered, no rule finds anything to parse: no decimal
    digit and no star glyph. *)
Theorem parse_rating_never_raises `{Unicode} (rating_text : str) :
  (exists r, parse_rating rating_text = Ok r)
  /\ (rating_text = [] -> parse_rating rating_text = Ok 5)
  /\ (Forall (fun c => isspace c = true) rating_text ->
      parse_rating rating_text = Ok 5)
  /\ (Forall (fun c => isdecimal c = false /\ c <> star)
             (lower (strip rating_text)) ->
      parse_rating rating_text = Ok 5).
Proof.
  assert (Hblank : Forall (fun c => isspace c = true) rating_text ->
                   parse_rating rating_text = Ok 5).
  { intros Hb. unfold parse_rating, parse_rating_body.
    rewrite strip_blank by assumption.
    now rewrite (lower_plain []) by constructor. }
  repeat split.
  - apply parse_rating_returns.
  - intros ->. apply Hblank. constructor.
  - exact Hblank.
  - intros Hs. unfold parse_rating, parse_rating_body.
    destruct (lower (strip rating_text)) as [|c s]; [reflexivity|].
    assert (Hd : Forall (fun c => isdecimal c = false) (c :: s))
      by (eapply Forall_impl; [|exact Hs]; now intros a [Ha _]).
    assert (Hst : ~ In star (c :: s)).
    { intros Hin. rewrite Forall_forall in Hs. now apply Hs in Hin. }
    cbn [first_return].
    rewrite rule_out_of_no_digit, rule_stars_absent, rule_fraction_no_digit,
      rule_number_no_digit by assumption.
    reflexivity.
Qed.

(** A blank text, and a text without a number. *)
Lemma parse_rating_never_raises_witness :
  parse_rating (utf8 "  ") = Ok 5 /\ parse_rating (utf8 "n/a") = Ok 5.
Proof.
  split.
  - apply (parse_rating_never_raises (utf8 "  ")). repeat constructor.
  - apply (parse_rating_never_raises (utf8 "n/a")).
    repeat constructor; discriminate.
Defined.

(** ** The claims about the record extractor *)

Section ExtractorFacts.
Context `{Unicode} `{Bs4}.

Lemma extract_loop_flat_map (containers : list tag)
      (selectors : ReviewSelectors.t) (reviews : list Review.t) :
  extract_loop containers selectors reviews
  = reviews ++ flat_map (kept selectors) containers.
Proof.
  revert reviews. induction containers as [|c cs IH]; intros reviews.
  - simpl. now rewrite app_nil_r.
  - cbn [extract_loop flat_map]. unfold kept at 1.
    destruct (extract_review c selectors); rewrite IH.
    + now rewrite <- app_assoc.
    + reflexivity.
Qed.

Lemma parse_rating_5 : parse_rating (utf8 "5") = Ok 5.
Proof.
  rewrite parse_rating_numeral
    by (split; [discriminate | repeat constructor]).
  vm_compute. reflexivity.
Qed.

Lemma judge_me_5 : judge_me (utf8 "5") = utf8 "5".
Proof.
  unfold judge_me.
  rewrite numeral_lower by (split; [discriminate | repeat constructor]).
  change (utf8 "judge.me") with (106%N :: utf8 "udge.me").
  rewrite contains_absent; [reflexivity|].
  intros [Hin|[]]. discriminate.
Qed.

Lemma extract_review_fields (c : tag) (selectors : ReviewSelectors.t)
      (te re be ue de : option tag) :
  select_field c (ReviewSelectors.title selectors) = Ok te ->
  select_field c (ReviewSelectors.rating selectors) = Ok re ->
  select_field c (ReviewSelectors.body selectors) = Ok be ->
  select_field c (ReviewSelectors.reviewer selectors) = Ok ue ->
  select_field c (ReviewSelectors.date selectors) = Ok de ->
  exists rating,
    parse_rating (judge_me (text_or re id (utf8 "5"))) = Ok rating
    /\ extract_review c selectors
       = Ok {| Review.title := text_or te id (utf8 "Review");
               Review.body := text_or be id (strip (text c));
               Review.rating := rating;
               Review.reviewer := text_or ue id (utf8 "Anonymous");
               Review.date := text_or de Some None |}.
Proof.
  intros Ht Hr Hb Hu Hd. unfold extract_review.
  rewrite Ht, Hr, Hb, Hu, Hd. cbn [bind].
  destruct (parse_rating_returns (judge_me (text_or re id (utf8 "5"))))
  as [rating Hp].
  exists rating. rewrite Hp. cbn [bind]. auto.
Qed.
End ExtractorFacts.

(** C8: [extract_reviews_with_selectors] never raises.  When the document
    cannot be parsed, or its containers cannot be selected, it returns the
    empty list.  Otherwise each container adds its own record, or nothing
    when its extraction raises, whatever happens to the containers around
    it.  A container whose five fields are looked up without an exception
    yields a record, with the default in every field whose element is
    absent: "Review", the text of the container, "Anonymous", no date, and
    the rating of the text "5". *)
Theorem extraction_isolates_failures `{Unicode} `{Bs4}
        (html_content : str) (selectors : ReviewSelectors.t) :
  (exists reviews,
      extract_reviews_with_selectors html_content selectors = Ok reviews)
  /\ (forall e, BeautifulSoup html_content = Raise e ->
        extract_reviews_with_selectors html_content selectors = Ok [])
  /\ (forall sp e, BeautifulSoup html_content = Ok sp ->
        select sp (ReviewSelectors.container selectors) = Raise e ->
        extract_reviews_with_selectors html_content selectors = Ok [])
  /\ (forall sp containers, BeautifulSoup html_content = Ok sp ->
        select sp (ReviewSelectors.container selectors) = Ok containers ->
        extract_reviews_with_selectors html_content selectors
        = Ok (flat_map (kept selectors) containers)
        /\ forall before c after e,
             containers = before ++ c :: after ->
             extract_review c selectors = Raise e ->
             extract_reviews_with_selectors html_content selectors
             = Ok (flat_map (kept selectors) before
                   ++ flat_map (kept selectors) after))
  /\ (forall c te re be ue de,
        select_field c (ReviewSelectors.title selectors) = Ok te ->
        select_field c (ReviewSelectors.rating selectors) = Ok re ->
        select_field c (ReviewSelectors.body selectors) = Ok be ->
        select_field c (ReviewSelectors.reviewer selectors) = Ok ue ->
        select_field c (ReviewSelectors.date selectors) = Ok de ->
        exists rating,
          kept selectors c
          = [{| Review.title := text_or te id (utf8 "Review");
                Review.body := text_or be id (strip (text c));
                Review.rating := rating;
                Review.reviewer := text_or ue id (utf8 "Anonymous");
                Review.date := text_or de Some None |}]).
Proof.
split; [|split; [|split; [|split]]].
- unfold extract_reviews_with_selectors. destruct (_ <- _ ;; _); eauto.
- intros e He. unfold extract_reviews_with_selectors. now rewrite He.
- intros sp e Hp Hs. unfold extract_reviews_with_selectors.
  rewrite Hp. cbn [bind]. now rewrite Hs.
- intros sp containers Hp Hs.
  assert (Hall : extract_reviews_with_selectors html_content selectors
                 = Ok (flat_map (kept selectors) containers)).
  { unfold extract_reviews_with_selectors. rewrite Hp. cbn [bind].
    rewrite Hs. cbn [bind]. now rewrite extract_loop_flat_map. }
  split; [exact Hall|].
  intros before c after e -> He. rewrite Hall, flat_map_app.
  cbn [flat_map]. unfold kept at 2. now rewrite He.
- intros c te re be ue de Ht Hr Hb Hu Hd.
  destruct (extract_review_fields c selectors te re be ue de Ht Hr Hb Hu Hd)
    as (rating & _ & He).
  exists rating. unfold kept. now rewrite He.
Qed.

(** C9: when the rating selector is absent (or empty), or selects no
    element in the container, the text "5" is normalised and the record
    that the container yields has rating 5. *)
Theorem absent_rating_defaults_to_5 `{Unicode} `{Bs4}
        (c : tag) (selectors : ReviewSelectors.t) (r : Review.t) :
  ReviewSelectors.rating selectors = None
  \/ ReviewSelectors.rating selectors = Some []
  \/ (exists s, ReviewSelectors.rating selectors = Some s
                /\ select_one c s = Ok None) ->
  extract_review c selectors = Ok r ->
  parse_rating (judge_me (utf8 "5")) = Ok (Review.rating r)
  /\ Review.rating r = 5.
Proof.
  intros Hsel He.
  assert (Hf : select_field c (ReviewSelectors.rating selectors) = Ok None).
  { unfold select_field.
    destruct Hsel as [-> | [-> | (s & -> & Hs)]]; try reflexivity.
    destruct s; [reflexivity | exact Hs]. }
  unfold extract_review in He.
  destruct (select_field c (ReviewSelectors.title selectors)) as [te|];
    [|discriminate].
  cbn [bind] in He. rewrite Hf in He. cbn [bind text_or] in He.
  rewrite judge_me_5, parse_rating_5 in *. cbn [bind] in He.
  destruct (select_field c (ReviewSelectors.body selectors)); [|discriminate].
  destruct (select_field c (ReviewSelectors.reviewer selectors)); [|discriminate].
  destruct (select_field c (ReviewSelectors.date selectors)); [|discriminate].
  cbn [bind] in He. injection He as <-. auto.
Qed.

(** ** The claims about the crawl *)

Lemma completed_gets_app (tr1 tr2 : list event) :
  completed_gets (tr1 ++ tr2) = completed_gets tr1 + completed_gets tr2.
Proof.
  induction tr1 as [|[u [|]|] tr1 IH]; cbn [app completed_gets]; lia.
Qed.

Lemma completed_gets_nonneg (tr : list event) : 0 <= completed_gets tr.
Proof. induction tr as [|[u [|]|] tr IH]; cbn [completed_gets]; lia. Qed.

Section CrawlFacts.
Context `{Unicode} `{Bs4} `{Selenium}.

(** When the loop is left, the page counter has grown by the number of
    navigations that returned, the counter is at most [max_pages] (or is
    unchanged), and the reviews were only added to. *)
Lemma crawl_loop_left (n : nat) (max_pages : Z)
      (selectors : ReviewSelectors.t) (st st' : crawl_state) :
  crawl_loop n max_pages selectors st = Left st' ->
  exists tr,
    trace st' = trace st ++ tr
    /\ page_count st' = page_count st + completed_gets tr
    /\ (page_count st' = page_count st \/ page_count st' <= max_pages)
    /\ (~ (page_count st < max_pages) -> st' = st).
Proof.
  revert st. induction n as [|n IH]; intros st; cbn [crawl_loop].
  - destruct (truthy (current_url st) && (page_count st <? max_pages)) eqn:G;
      intros [= <-]; exists []; rewrite app_nil_r; cbn; repeat split; auto; lia.
  - destruct (truthy (current_url st) && (page_count st <? max_pages)) eqn:G.
    2:{ intros [= <-]. exists []. rewrite app_nil_r. cbn.
        repeat split; auto; lia. }
    apply andb_prop in G as [_ G%Z.ltb_lt].
    destruct (_ <- _ ;; _) as [reviews|e]; [|discriminate].
    destruct (get_next_page_url (driver st) selectors) as [next_url|].
    2:{ intros [= <-]. exists []. rewrite app_nil_r. cbn.
        repeat split; auto; lia. }
    destruct (negb (truthy next_url) || str_eqb next_url (current_url st)).
    { intros [= <-]. exists []. rewrite app_nil_r. cbn.
      repeat split; auto; lia. }
    destruct (driver_get (driver st) next_url) as [driver'|e].
    2:{ intros [= <-]. exists [EvGet next_url false]. cbn.
        repeat split; auto; lia. }
    intros Hl. apply IH in Hl as (tr & Ht & Hc & Hb & _).
    cbn [trace page_count] in Ht, Hc, Hb.
    pose proof (completed_gets_nonneg tr) as Hnn.
    exists (EvGet next_url true :: tr). rewrite Ht, <- app_assoc.
    cbn [app completed_gets]. split; [reflexivity|].
    split; [lia|]. split; [lia|]. intros Hc'. lia.
Qed.

(** The bound [n] on the iterations is not reached when it is at least
    [max_pages - page_count]: more fuel changes nothing. *)
Lemma crawl_loop_fuel (n m : nat) (max_pages : Z)
      (selectors : ReviewSelectors.t) (st : crawl_state) :
  (Z.to_nat (max_pages - page_count st) <= n)%nat ->
  (Z.to_nat (max_pages - page_count st) <= m)%nat ->
  crawl_loop n max_pages selectors st = crawl_loop m max_pages selectors st.
Proof.
  revert m st. induction n as [|n IH]; intros m st Hn Hm.
  - cbn [crawl_loop].
    destruct (truthy (current_url st) && (page_count st <? max_pages)) eqn:G.
    + apply andb_prop in G as [_ G%Z.ltb_lt]. lia.
    + destruct m; cbn [crawl_loop]; now rewrite G.
  - destruct m as [|m].
    + cbn [crawl_loop].
      destruct (truthy (current_url st) && (page_count st <? max_pages)) eqn:G;
        [|reflexivity].
      apply andb_prop in G as [_ G%Z.ltb_lt]. lia.
    + cbn [crawl_loop].
      destruct (truthy (current_url st) && (page_count st <? max_pages)) eqn:G;
        [|reflexivity].
      apply andb_prop in G as [_ G%Z.ltb_lt].
      destruct (_ <- _ ;; _) as [reviews|e]; [|reflexivity].
      destruct (get_next_page_url (driver st) selectors) as [next_url|];
        [|reflexivity].
      destruct (negb (truthy next_url) || str_eqb next_url (current_url st));
        [reflexivity|].
      destruct (driver_get (driver st) next_url) as [driver'|e];
        [|reflexivity].
      apply IH; cbn; lia.
Qed.
End CrawlFacts.

(** C10: when [get_reviews] returns a result, the trace begins with the
    navigation to the start URL, and [pages_processed] is one plus the
    number of later navigations that returned.  For [max_pages <= 0] the
    loop body never runs: no later navigation, [pages_processed] is 1 and
    the list of reviews is empty; and this result is returned whenever the
    browser starts and loads the start URL. *)
Theorem pages_processed_counts_navigations `{Unicode} `{Bs4} `{Selenium}
        (url : str) (max_pages : Z) :
  (forall tr res,
      get_reviews url max_pages = (tr, Ok res) ->
      exists tr',
        tr = EvGet url true :: tr'
        /\ pages_processed res = 1 + completed_gets tr'
        /\ (max_pages <= 0 ->
            tr' = [EvQuit] /\ pages_processed res = 1 /\ reviews res = []))
  /\ (max_pages <= 0 ->
      forall driver0 driver1,
        Chrome = Ok driver0 -> driver_get driver0 url = Ok driver1 ->
        wait_for_body driver1 = Ok tt ->
        get_reviews url max_pages
        = ([EvGet url true; EvQuit],
           Ok {| reviews_count := 0; pages_processed := 1; reviews := [] |})).
Proof.
  split.
  - intros tr res. unfold get_reviews.
    destruct setup_driver as [driver0|]; [|discriminate].
    destruct (driver_get driver0 url) as [driver1|]; [|discriminate].
    destruct (wait_for_body driver1); [|discriminate].
    destruct (crawl_loop _ _ _ _) as [st|e tr0] eqn:El; [|discriminate].
    intros [= <- <-].
    apply crawl_loop_left in El as (tr' & Ht & Hc & _ & Hz).
    cbn [trace page_count] in Ht, Hc, Hz.
    exists (tr' ++ [EvQuit]). rewrite Ht. cbn [pages_processed reviews app].
    split; [reflexivity|]. split.
    + rewrite completed_gets_app. cbn [completed_gets]. lia.
    + intros Hm. specialize (Hz ltac:(lia)). subst st.
      cbn [trace page_count all_reviews app] in *.
      injection Ht as <-. auto.
  - intros Hm driver0 driver1 Hc Hg Hw. unfold get_reviews, setup_driver.
    rewrite Hc, Hg, Hw.
    replace (Z.to_nat max_pages) with O by lia. cbn [crawl_loop].
    destruct (_ && _); reflexivity.
Qed.

(** The page counter never exceeds [max_pages] by more than the initial
    page: [pages_processed] is at most [max_pages + 1], and 1 when
    [max_pages] is not positive. *)
Lemma pages_processed_bound `{Unicode} `{Bs4} `{Selenium}
      (url : str) (max_pages : Z) (tr : list event) (res : crawl_result) :
  get_reviews url max_pages = (tr, Ok res) ->
  1 <= pages_processed res <= Z.max max_pages 0 + 1.
Proof.
  unfold get_reviews.
  destruct setup_driver as [driver0|]; [|discriminate].
  destruct (driver_get driver0 url) as [driver1|]; [|discriminate].
  destruct (wait_for_body driver1); [|discriminate].
  destruct (crawl_loop _ _ _ _) as [st|e tr0] eqn:El; [|discriminate].
  intros [= <- <-].
  apply crawl_loop_left in El as (tr' & _ & Hc & Hb & _).
  cbn [page_count pages_processed] in *.
  pose proof (completed_gets_nonneg tr'). lia.
Qed.

(** C2: on the site of two pages, with [max_pages = 1], the first page is
    extracted, the second is loaded, and [pages_processed] is 2, which
    exceeds [max_pages]. *)
Theorem pages_processed_exceeds_max_pages :
  exists tr res,
    Demo.run Demo.two_pages Demo.url1 1 = (tr, Ok res)
    /\ pages_processed res = 2
    /\ ~ (pages_processed res <= 1).
Proof.
  eexists. eexists. split; [vm_compute; reflexivity|].
  split; [reflexivity|]. cbn. lia.
Qed.

(** With [max_pages = 1] the reviews returned are those of the start page
    alone (or none, when the start URL is empty): the body of the loop runs
    at most once. *)
Lemma max_pages_1_extracts_start_page `{Unicode} `{Bs4} `{Selenium}
      (url : str) (tr : list event) (res : crawl_result) :
  get_reviews url 1 = (tr, Ok res) ->
  reviews res = []
  \/ exists driver0 driver1 html,
       Chrome = Ok driver0 /\ driver_get driver0 url = Ok driver1
       /\ page_source driver1 = Ok html
       /\ extract_reviews_with_selectors html get_default_selectors
          = Ok (reviews res).
Proof.
  unfold get_reviews, setup_driver.
  destruct Chrome as [driver0|] eqn:EC; [|discriminate].
  destruct (driver_get driver0 url) as [driver1|] eqn:EG; [|discriminate].
  destruct (wait_for_body driver1); [|discriminate].
  change (Z.to_nat 1) with 1%nat. cbn [crawl_loop].
  cbn [current_url page_count driver all_reviews trace].
  destruct (truthy url && (0 <? 1)).
  2:{ intros [= <- <-]. now left. }
  destruct (page_source driver1) as [html|] eqn:EP; [|discriminate].
  cbn [bind].
  destruct (extract_reviews_with_selectors html get_default_selectors)
    as [reviews0|] eqn:Ex; [|discriminate].
  assert (Hres : reviews res = reviews0 ->
                 reviews res = []
                 \/ exists d0 d1 html0,
                      Ok driver0 = Ok d0 /\ driver_get d0 url = Ok d1
                      /\ page_source d1 = Ok html0
                      /\ extract_reviews_with_selectors html0
                           get_default_selectors = Ok (reviews res)).
  { intros ->. right. exists driver0, driver1, html. auto. }
  destruct (get_next_page_url driver1 get_default_selectors) as [next_url|].
  2:{ intros [= <- <-]. now apply Hres. }
  destruct (negb (truthy next_url) || str_eqb next_url url).
  { intros [= <- <-]. now apply Hres. }
  destruct (driver_get driver1 next_url) as [driver2|].
  2:{ intros [= <- <-]. now apply Hres. }
  cbn [current_url page_count]. change (0 + 1 <? 1) with false.
  rewrite andb_false_r. intros [= <- <-]. now apply Hres.
Qed.

(** C3: on the site of two pages, with [max_pages = 1], the program
    navigates to the URL of the second page after it has extracted the
    first; the reviews it returns are the three of the first page. *)
Theorem max_pages_1_loads_second_page :
  exists res,
    Demo.run Demo.two_pages Demo.url1 1
    = ([EvGet Demo.url1 true; EvGet Demo.url2 true; EvQuit], Ok res)
    /\ reviews_count res = 3
    /\ map Review.title (reviews res)
       = [utf8 "Great"; utf8 "Fine"; utf8 "Poor"].
Proof.
  eexists. split; [vm_compute; reflexivity|]. split; reflexivity.
Qed.

(** C1: a container whose rating element shows six star glyphs yields a
    record of rating 6, outside 1..5, and [get_reviews] returns it. *)
Theorem six_stars_record_has_rating_6 :
  @extract_reviews_with_selectors ascii_unicode (Demo.bs4 Demo.six_stars)
    (utf8 "<html>six</html>") get_default_selectors
  = Ok [{| Review.title := utf8 "Superb";
           Review.body := utf8 "Beyond the scale";
           Review.rating := 6;
           Review.reviewer := utf8 "Flo";
           Review.date := Some (utf8 "2024-01-07") |}]
  /\ exists tr res,
       Demo.run Demo.six_stars Demo.url1 5 = (tr, Ok res)
       /\ map Review.rating (reviews res) = [6].
Proof.
  split; [vm_compute; reflexivity|].
  eexists. eexists. split; [vm_compute; reflexivity | reflexivity].
Qed.

(** The end-to-end scenario of the spec: five records and two pages. *)
Example two_pages_crawl :
  exists tr res,
    Demo.run Demo.two_pages Demo.url1 5 = (tr, Ok res)
    /\ reviews_count res = 5 /\ pages_processed res = 2
    /\ map Review.rating (reviews res) = [5; 4; 2; 4; 3].
Proof.
  eexists. eexists. split; [vm_compute; reflexivity|]. repeat split.
Qed.

(** A container that cannot be extracted, between two that can; the last
    one has no field element at all. *)
Lemma extraction_isolates_failures_witness :
  @extract_reviews_with_selectors ascii_unicode (Demo.bs4 Demo.broken_between)
    (utf8 "<html>broken</html>") get_default_selectors
  = Ok [{| Review.title := utf8 "Great";
           Review.body := utf8 "Works well";
           Review.rating := 5;
           Review.reviewer := utf8 "Ann";
           Review.date := Some (utf8 "2024-01-02") |};
        {| Review.title := utf8 "Review";
           Review.body := utf8 "Plain text";
           Review.rating := 5;
           Review.reviewer := utf8 "Anonymous";
           Review.date := None |}].
Proof.
  pose proof (@extraction_isolates_failures ascii_unicode
                (Demo.bs4 Demo.broken_between)
                (utf8 "<html>broken</html>") get_default_selectors)
    as (_ & _ & _ & Hk & _).
  destruct (Hk _ _ eq_refl eq_refl) as [_ Hskip].
  rewrite (Hskip [_] Demo.Broken [_] SelectorSyntaxError eq_refl eq_refl).
  vm_compute. reflexivity.
Defined.

(** A container without a rating element. *)
Lemma absent_rating_defaults_to_5_witness :
  Review.rating
    {| Review.title := utf8 "Review";
       Review.body := utf8 "Plain text";
       Review.rating := 5;
       Review.reviewer := utf8 "Anonymous";
       Review.date := None |} = 5.
Proof.
  refine (proj2 (@absent_rating_defaults_to_5 ascii_unicode (Demo.bs4 [])
                   (Demo.Elem (utf8 " Plain text ") []) get_default_selectors
                   _ _ _)).
  - right. right. eexists. split; reflexivity.
  - vm_compute. reflexivity.
Defined.

(** The crawl of the two pages: one navigation after the first. *)
Lemma pages_processed_counts_navigations_witness :
  exists tr',
    fst (Demo.run Demo.two_pages Demo.url1 5) = EvGet Demo.url1 true :: tr'
    /\ 2 = 1 + completed_gets tr'.
Proof.
  destruct (proj1 (@pages_processed_counts_navigations ascii_unicode
                     (Demo.bs4 Demo.two_pages) (Demo.selenium Demo.two_pages)
                     Demo.url1 5)
              [EvGet Demo.url1 true; EvGet Demo.url2 true; EvQuit]
              {| reviews_count := 5; pages_processed := 2;
                 reviews := reviews_of (snd (Demo.run Demo.two_pages Demo.url1 5)) |})
    as (tr' & Ht & Hp & _).
  - vm_compute. reflexivity.
  - exists tr'. split; [|exact Hp].
    rewrite <- Ht. vm_compute. reflexivity.
Defined.

(** * Further properties *)

(** ** Further properties of [parse_rating] *)

(** X1: a rating is never below 1, and it is at most 5 unless the text,
    stripped and lowered, shows more than five star glyphs. *)
Theorem rating_within_scale `{Unicode} (rating_text : str) (r : Z) :
  parse_rating rating_text = Ok r ->
  1 <= r /\ (count (lower (strip rating_text)) star <= 5 -> r <= 5).
Proof.
  intros Hp. destruct (parse_rating_range _ _ Hp) as [Hr | [Hr Hc]].
  - split; [lia | intros _; lia].
  - split; [lia | intros Hk; lia].
Qed.

(** Three glyphs among other characters. *)
Lemma rating_within_scale_witness :
  parse_rating (utf8 "★★★☆☆") = Ok 3 /\ 1 <= 3 /\ 3 <= 5.
Proof.
  assert (Hp : parse_rating (utf8 "★★★☆☆") = Ok 3) by (vm_compute; reflexivity).
  split; [exact Hp|].
  destruct (rating_within_scale (utf8 "★★★☆☆") 3 Hp) as [H1 H5].
  split; [exact H1 | apply H5; vm_compute; discriminate].
Defined.

Lemma number_rating_small (n : Z) :
  0 <= n <= 5 -> number_rating (float_of_Z n) = Z.max 1 n.
Proof.
  intros Hn.
  assert (Hc : n = 0 \/ n = 1 \/ n = 2 \/ n = 3 \/ n = 4 \/ n = 5) by lia.
  destruct Hc as [->|[->|[->|[->|[->| ->]]]]]; vm_compute; reflexivity.
Qed.

(** X2: a numeral of value at most 5 is rated by its value, and 0 is
    rated 1. *)
Theorem numeral_up_to_5_is_kept `{Unicode} (ds : str) :
  numeral ds -> digits_value 0 ds <= 5 ->
  parse_rating ds = Ok (Z.max 1 (digits_value 0 ds)).
Proof.
  intros Hn Hv. rewrite parse_rating_numeral by assumption.
  rewrite number_rating_small; [reflexivity|].
  split; [|assumption]. destruct Hn as [_ Hds].
  apply digits_value_nonneg; [assumption | lia].
Qed.

(** The texts "0" and "03". *)
Lemma numeral_up_to_5_is_kept_witness :
  parse_rating (utf8 "0") = Ok 1 /\ parse_rating (utf8 "03") = Ok 3.
Proof.
  split.
  - apply (numeral_up_to_5_is_kept (utf8 "0")).
    + split; [discriminate | repeat constructor].
    + vm_compute. discriminate.
  - apply (numeral_up_to_5_is_kept (utf8 "03")).
    + split; [discriminate | repeat constructor].
    + vm_compute. discriminate.
Defined.

(** A text without a decimal digit, checked by evaluation. *)
Lemma no_decimal_check `{Unicode} (s : str) :
  forallb (fun c => negb (isdecimal c)) s = true ->
  Forall (fun c => isdecimal c = false) s.
Proof.
  intros Hs. apply Forall_forall. intros c Hc.
  rewrite forallb_forall in Hs. apply Hs in Hc.
  now destruct (isdecimal c).
Qed.

Section NormaliseFacts.
Context `{Unicode}.

Lemma lstrip_app (s b : str) :
  lstrip (s ++ b) = match lstrip s with [] => lstrip b | l => l ++ b end.
Proof.
  induction s as [|c s IH]; [reflexivity|].
  cbn [app lstrip]. destruct (isspace c); [exact IH | reflexivity].
Qed.

Lemma strip_surrounding (a t b : str) :
  Forall (fun c => isspace c = true) a ->
  Forall (fun c => isspace c = true) b ->
  strip (a ++ t ++ b) = strip t.
Proof.
  intros Ha Hb. unfold strip.
  rewrite lstrip_app, (lstrip_blank a Ha), lstrip_app, (lstrip_blank b Hb).
  destruct (lstrip t) as [|c l]; [reflexivity|].
  unfold rstrip. rewrite rev_app_distr, lstrip_app.
  rewrite (lstrip_blank (rev b)) by now apply Forall_rev.
  reflexivity.
Qed.

Lemma ascii_space_lower (c : char) :
  ascii_space (ascii_lower c) = ascii_space c.
Proof.
  unfold ascii_lower.
  destruct ((65 <=? c) && (c <=? 90))%N eqn:E; [|reflexivity].
  apply andb_prop in E as [E1%N.leb_le E2%N.leb_le].
  unfold ascii_space.
  replace (c + 32 <=? 13)%N with false by (symmetry; apply N.leb_gt; lia).
  replace (c + 32 <=? 32)%N with false by (symmetry; apply N.leb_gt; lia).
  replace (c <=? 13)%N with false by (symmetry; apply N.leb_gt; lia).
  replace (c <=? 32)%N with false by (symmetry; apply N.leb_gt; lia).
  now rewrite !andb_false_r.
Qed.

Lemma plain_lower (c : char) : plain c -> plain (ascii_lower c).
Proof.
  unfold plain, ascii_lower, star. intros [Hc | ->].
  - left. ncases.
  - now right.
Qed.

Lemma lstrip_map_lower (s : str) :
  Forall plain s -> lstrip (map ascii_lower s) = map ascii_lower (lstrip s).
Proof.
  induction 1 as [|c s Hc Hs IH]; [reflexivity|].
  cbn [map lstrip].
  rewrite (isspace_plain (ascii_lower c)) by now apply plain_lower.
  rewrite ascii_space_lower, <- (isspace_plain c) by assumption.
  destruct (isspace c); [exact IH | reflexivity].
Qed.

Lemma strip_map_lower (s : str) :
  Forall plain s -> strip (map ascii_lower s) = map ascii_lower (strip s).
Proof.
  intros Hs. unfold strip, rstrip.
  rewrite lstrip_map_lower, <- map_rev, lstrip_map_lower, map_rev;
    [reflexivity | | assumption].
  now apply Forall_rev, lstrip_Forall.
Qed.

Lemma lower_strip_plain (t : str) :
  Forall plain t -> lower (strip t) = strip (map ascii_lower t).
Proof.
  intros Ht. rewrite lower_plain by now apply strip_Forall.
  symmetry. now apply strip_map_lower.
Qed.

(** The number rule on a text whose first number is a numeral. *)
Lemma rule_number_first (pre ds suf : str) :
  Forall (fun c => isdecimal c = false) pre -> numeral ds -> number_end suf ->
  match rule_number (pre ++ ds ++ suf) with
  | Ok (Some v) => v = number_rating (float_of_Z (digits_value 0 ds))
  | Ok None => False
  | Raise _ => number_rating (float_of_Z (digits_value 0 ds)) = 5
  end.
Proof.
  intros Hpre Hn Hr. unfold rule_number, number_rating.
  rewrite (extract_first_number_numeral pre ds suf) by assumption.
  cbn [bind].
  destruct (if float_gt _ _ then _ else _) as [x'|e]; cbn [bind]; [|reflexivity].
  destruct (clamp_round x'); reflexivity.
Qed.

(** When the first three rules do not return, the first number of the
    text is rated. *)
Lemma parse_rating_first_number (t pre ds suf : str) :
  lower (strip t) = pre ++ ds ++ suf ->
  Forall (fun c => isdecimal c = false) pre -> numeral ds -> number_end suf ->
  rule_out_of (pre ++ ds ++ suf) = Ok None ->
  ~ In star (pre ++ ds ++ suf) ->
  rule_fraction (pre ++ ds ++ suf) = Ok None ->
  parse_rating t = Ok (number_rating (float_of_Z (digits_value 0 ds))).
Proof.
  intros E Hpre Hn Hr Ho Hs Hf. unfold parse_rating, parse_rating_body.
  rewrite E.
  destruct (pre ++ ds ++ suf) as [|c0 t0] eqn:Et.
  { destruct Hn as [Hne _]. destruct pre; [destruct ds|]; try discriminate.
    contradiction. }
  rewrite <- Et in *. clear Et c0 t0.
  cbn [first_return]. rewrite Ho. cbn [bind].
  rewrite rule_stars_absent by assumption. cbn [bind].
  rewrite Hf. cbn [bind].
  pose proof (rule_number_first pre ds suf Hpre Hn Hr) as Hnum.
  destruct (rule_number (pre ++ ds ++ suf)) as [[v|]|e]; cbn [bind];
    [now subst | contradiction | now rewrite Hnum].
Qed.

Lemma rule_out_of_not_contained (text : str) :
  contains (utf8 "out of") text = false -> rule_out_of text = Ok None.
Proof. intros Hc. unfold rule_out_of. now rewrite Hc. Qed.
End NormaliseFacts.

(** X3: white space around the text does not change the rating. *)
Theorem surrounding_space_is_ignored `{Unicode} (a t b : str) :
  Forall (fun c => isspace c = true) a ->
  Forall (fun c => isspace c = true) b ->
  parse_rating (a ++ t ++ b) = parse_rating t.
Proof.
  intros Ha Hb. unfold parse_rating, parse_rating_body.
  now rewrite strip_surrounding.
Qed.

(** A tab and blanks around "4 out of 5". *)
Lemma surrounding_space_is_ignored_witness :
  parse_rating (utf8 "	 4 out of 5  ") = parse_rating (utf8 "4 out of 5").
Proof.
  apply (surrounding_space_is_ignored [9%N; 32%N] (utf8 "4 out of 5")
           [32%N; 32%N]); repeat constructor.
Defined.

(** X4: two texts of ASCII characters and star glyphs that differ only in
    the case of their letters have the same rating. *)
Theorem letter_case_is_ignored `{Unicode} (t t' : str) :
  Forall plain t -> Forall plain t' ->
  map ascii_lower t = map ascii_lower t' ->
  parse_rating t = parse_rating t'.
Proof.
  intros Ht Ht' E. unfold parse_rating, parse_rating_body.
  now rewrite !lower_strip_plain, E by assumption.
Qed.

(** "4 OUT OF 5" and "4 Out of 5". *)
Lemma letter_case_is_ignored_witness :
  parse_rating (utf8 "4 OUT OF 5") = parse_rating (utf8 "4 Out of 5").
Proof.
  apply letter_case_is_ignored.
  - repeat constructor.
  - repeat constructor.
  - vm_compute. reflexivity.
Defined.

(** X5: in a text that, stripped and lowered, has neither "out of" nor a
    star glyph nor a slash, the first run of digits is rated like the
    numeral alone, whatever stands before it (a sign, words) and whatever
    follows it other than a digit or a point. *)
Theorem first_number_is_rated `{Unicode} (t pre ds suf : str) :
  lower (strip t) = pre ++ ds ++ suf ->
  Forall (fun c => isdecimal c = false) pre -> numeral ds -> number_end suf ->
  contains (utf8 "out of") (lower (strip t)) = false ->
  ~ In star (lower (strip t)) ->
  ~ In 47%N (lower (strip t)) ->
  parse_rating t = parse_rating ds.
Proof.
  intros E Hpre Hn Hr Ho Hs Hf. rewrite E in *.
  rewrite (parse_rating_numeral ds Hn).
  apply (parse_rating_first_number t pre ds suf); auto.
  - now apply rule_out_of_not_contained.
  - now apply rule_fraction_absent.
Qed.

(** "Rated 4 stars" and "-3". *)
Lemma first_number_is_rated_witness :
  parse_rating (utf8 "Rated 4 stars") = parse_rating (utf8 "4")
  /\ parse_rating (utf8 "-3") = parse_rating (utf8 "3").
Proof.
  split.
  - apply (first_number_is_rated (utf8 "Rated 4 stars") (utf8 "rated ")
             (utf8 "4") (utf8 " stars")).
    + vm_compute. reflexivity.
    + repeat constructor.
    + split; [discriminate | repeat constructor].
    + split; [reflexivity | discriminate].
    + vm_compute. reflexivity.
    + vm_compute. intuition discriminate.
    + vm_compute. intuition discriminate.
  - apply (first_number_is_rated (utf8 "-3") (utf8 "-") (utf8 "3") []).
    + vm_compute. reflexivity.
    + repeat constructor.
    + split; [discriminate | repeat constructor].
    + exact I.
    + vm_compute. reflexivity.
    + vm_compute. intuition discriminate.
    + vm_compute. intuition discriminate.
Defined.

Section SlashFacts.
Context `{Unicode}.

Lemma numeral_plain (ds : str) : numeral ds -> Forall plain ds.
Proof.
  intros [_ Hds]. eapply Forall_impl; [|exact Hds]. apply digit_plain.
Qed.

Lemma numeral_fixed (ds : str) :
  numeral ds -> Forall (fun c => ascii_lower c = c) ds.
Proof.
  intros [_ Hds]. eapply Forall_impl; [|exact Hds]. apply digit_lower.
Qed.

Lemma numeral_not_in (c : char) (ds : str) :
  numeral ds -> is_ascii_digit c = false -> ~ In c ds.
Proof. intros [_ Hds]. now apply Forall_digit_not_in. Qed.

(** A text that begins and ends with a digit is not changed by [strip]. *)
Lemma strip_between_numerals (ds1 mid ds2 : str) :
  numeral ds1 -> numeral ds2 -> strip (ds1 ++ mid ++ ds2) = ds1 ++ mid ++ ds2.
Proof.
  intros Hn1 Hn2.
  destruct (numeral_head ds1 Hn1) as (c & ds1' & E1 & Hc & _).
  destruct (numeral_last ds2 Hn2) as (b & Hb & Hdb).
  apply (strip_id _ c b); auto using digit_not_space.
  - now rewrite E1.
  - now apply last_app, last_app.
Qed.

Lemma slash_number_end (r : str) : number_end (utf8 "/" ++ r).
Proof.
  split; [|discriminate].
  apply plain_not_decimal; [now left | reflexivity].
Qed.

(** The fraction rule falls through when the text has three parts. *)
Lemma rule_fraction_three_parts (ds1 ds2 ds3 : str) :
  numeral ds1 -> numeral ds2 -> numeral ds3 ->
  rule_fraction (ds1 ++ utf8 "/" ++ ds2 ++ utf8 "/" ++ ds3) = Ok None.
Proof.
  intros Hn1 Hn2 Hn3. unfold rule_fraction.
  rewrite (contains_app (utf8 "/") ds1).
  change (utf8 "/") with [47%N].
  rewrite (split_found 47%N [] ds1) by now apply numeral_not_in.
  rewrite (split_found 47%N [] ds2) by now apply numeral_not_in.
  unfold split. rewrite split_go_absent by now apply numeral_not_in.
  reflexivity.
Qed.

(** The fraction rule falls through when the second part is no numeral
    for [float]. *)
Lemma rule_fraction_bad_scale (ds rest : str) :
  numeral ds -> ~ In 47%N rest ->
  float_of_str (strip rest) = Raise ValueError ->
  rule_fraction (ds ++ utf8 "/" ++ rest) = Ok None.
Proof.
  intros Hn Hrest Hf. unfold rule_fraction.
  rewrite (contains_app (utf8 "/") ds).
  change (utf8 "/") with [47%N].
  rewrite (split_found 47%N [] ds) by now apply numeral_not_in.
  unfold split. rewrite split_go_absent by assumption.
  cbn [List.length Nat.eqb rev app nth].
  rewrite numeral_strip, float_of_str_numeral by assumption.
  cbn [bind]. rewrite Hf. reflexivity.
Qed.
End SlashFacts.

(** X6: a text of three numerals separated by slashes, such as a date, is
    no fraction: it is rated like its first numeral alone. *)
Theorem two_slashes_are_no_fraction `{Unicode} (ds1 ds2 ds3 : str) :
  numeral ds1 -> numeral ds2 -> numeral ds3 ->
  parse_rating (ds1 ++ utf8 "/" ++ ds2 ++ utf8 "/" ++ ds3) = parse_rating ds1.
Proof.
  intros Hn1 Hn2 Hn3.
  set (t := ds1 ++ utf8 "/" ++ ds2 ++ utf8 "/" ++ ds3).
  assert (Hp : Forall plain t).
  { subst t. rewrite !Forall_app.
    repeat split; try (now apply numeral_plain); repeat constructor. }
  assert (Hfix : Forall (fun c => ascii_lower c = c) t).
  { subst t. rewrite !Forall_app.
    repeat split; try (now apply numeral_fixed); repeat constructor. }
  assert (Hnot : forall c, is_ascii_digit c = false -> c <> 47%N -> ~ In c t).
  { intros c Hc Hne. subst t. rewrite !in_app_iff.
    change (utf8 "/") with [47%N].
    intros [Hin|[[Hin|[]]|[Hin|[[Hin|[]]|Hin]]]];
      try (now apply Hne);
      revert Hin; now apply numeral_not_in. }
  assert (E : lower (strip t) = [] ++ ds1 ++ (utf8 "/" ++ ds2 ++ utf8 "/" ++ ds3)).
  { subst t.
    replace (ds1 ++ utf8 "/" ++ ds2 ++ utf8 "/" ++ ds3)
      with (ds1 ++ (utf8 "/" ++ ds2 ++ utf8 "/") ++ ds3)
      by (now rewrite <- !app_assoc).
    rewrite strip_between_numerals by assumption.
    rewrite <- !app_assoc. now apply lower_fixed. }
  rewrite (parse_rating_numeral ds1 Hn1).
  apply (parse_rating_first_number t [] ds1 _ E);
    [constructor | assumption | apply slash_number_end | | | ].
  - apply rule_out_of_absent, Hnot; [reflexivity | discriminate].
  - apply Hnot; [reflexivity | discriminate].
  - now apply rule_fraction_three_parts.
Qed.

(** The date "12/25/2023" is rated like "12". *)
Lemma two_slashes_are_no_fraction_witness :
  parse_rating (utf8 "12/25/2023") = parse_rating (utf8 "12").
Proof.
  apply (two_slashes_are_no_fraction (utf8 "12") (utf8 "25") (utf8 "2023"));
    (split; [discriminate | repeat constructor]).
Defined.

(** X7: when [float] rejects what follows the slash, the fraction rule
    gives up and the scale is ignored: the text is rated like its first
    numeral alone. *)
Theorem unreadable_scale_is_ignored `{Unicode} (t ds rest : str) :
  lower (strip t) = ds ++ utf8 "/" ++ rest ->
  numeral ds ->
  ~ In 47%N rest ->
  float_of_str (strip rest) = Raise ValueError ->
  contains (utf8 "out of") (lower (strip t)) = false ->
  ~ In star (lower (strip t)) ->
  parse_rating t = parse_rating ds.
Proof.
  intros E Hn Hrest Hf Ho Hs. rewrite E in *.
  rewrite (parse_rating_numeral ds Hn).
  apply (parse_rating_first_number t [] ds (utf8 "/" ++ rest));
    [exact E | constructor | assumption | apply slash_number_end | | | ].
  - now apply rule_out_of_not_contained.
  - exact Hs.
  - now apply rule_fraction_bad_scale.
Qed.

(** "3/10 points" is rated like "3". *)
Lemma unreadable_scale_is_ignored_witness :
  parse_rating (utf8 "3/10 points") = parse_rating (utf8 "3").
Proof.
  apply (unreadable_scale_is_ignored (utf8 "3/10 points") (utf8 "3")
           (utf8 "10 points")).
  - vm_compute. reflexivity.
  - split; [discriminate | repeat constructor].
  - vm_compute. intuition discriminate.
  - vm_compute. reflexivity.
  - vm_compute. reflexivity.
  - vm_compute. intuition discriminate.
Defined.

(** ** The Judge.me case *)

Lemma many_all_snd (p : char -> bool) (k : str -> nat -> option (nat * nat))
      (ds r : str) (pos G : nat) :
  Forall (fun c => p c = true) ds ->
  hd_error r = None \/ (exists c, hd_error r = Some c /\ p c = false) ->
  option_map snd (k r (pos + List.length ds)%nat) = Some G ->
  option_map snd (many p k (ds ++ r) pos) = Some G.
Proof.
  intros Hds Hr Hk.
  destruct (k r (pos + List.length ds)%nat) as [x|] eqn:E; [|discriminate].
  now rewrite (many_all p k ds r pos x Hds Hr E).
Qed.

Lemma many_end_snd (p : char -> bool) (G : nat) (s : str) (pos : nat) :
  option_map snd (many p (rmatch [] G) s pos) = Some G.
Proof.
  revert pos. induction s as [|c s IH]; intros pos; [reflexivity|].
  cbn [many]. destruct (p c); [|reflexivity].
  specialize (IH (S pos)).
  destruct (many p (rmatch [] G) s (S pos)); [exact IH | discriminate].
Qed.

Lemma firstn_length_app (a b : str) : firstn (List.length a) (a ++ b) = a.
Proof. induction a as [|x a IH]; [reflexivity|]. simpl. now rewrite IH. Qed.

Lemma many_one_snd (p : char -> bool) (k : str -> nat -> option (nat * nat))
      (c c' : char) (s : str) (pos G : nat) :
  p c = true -> p c' = false ->
  option_map snd (k (c' :: s) (S pos)) = Some G ->
  option_map snd (many p k (c :: c' :: s) pos) = Some G.
Proof.
  intros Hc Hc' Hk.
  apply (many_all_snd p k [c] (c' :: s) pos G).
  - now repeat constructor.
  - right. now exists c'.
  - now rewrite Nat.add_1_r.
Qed.

Lemma many_stop {R} (p : char -> bool) (k : str -> nat -> option R)
      (c : char) (s : str) (pos : nat) :
  p c = false -> many p k (c :: s) pos = k (c :: s) pos.
Proof. intros Hc. simpl. now rewrite Hc. Qed.

Lemma rmatch_many (p : char -> bool) (pat : list node) (g : nat)
      (s : str) (pos : nat) :
  rmatch (Cls p Many :: pat) g s pos = many p (rmatch pat g) s pos.
Proof. reflexivity. Qed.

Lemma rmatch_many1 (p : char -> bool) (pat : list node) (g : nat)
      (c : char) (s : str) (pos : nat) :
  p c = true ->
  rmatch (Cls p Many1 :: pat) g (c :: s) pos = many p (rmatch pat g) s (S pos).
Proof. intros Hc. cbn [rmatch]. now rewrite Hc. Qed.

Lemma rmatch_one (p : char -> bool) (pat : list node) (g : nat)
      (c : char) (s : str) (pos : nat) :
  p c = true -> rmatch (Cls p One :: pat) g (c :: s) pos = rmatch pat g s (S pos).
Proof. intros Hc. cbn [rmatch]. now rewrite Hc. Qed.

Lemma rmatch_opt_skip (p : char -> bool) (pat : list node) (g : nat)
      (c : char) (s : str) (pos : nat) :
  p c = false ->
  rmatch (Cls p Opt :: pat) g (c :: s) pos = rmatch pat g (c :: s) pos.
Proof. intros Hc. cbn [rmatch]. now rewrite Hc. Qed.

Lemma rmatch_group (pat : list node) (g : nat) (s : str) (pos : nat) :
  rmatch (GroupEnd :: pat) g s pos = rmatch pat pos s pos.
Proof. reflexivity. Qed.

Section JudgeMeFacts.
Context `{Unicode}.

Lemma blank_space : isspace 32%N = true.
Proof. rewrite isspace_plain by now left. reflexivity. Qed.

Lemma blank_not_decimal : isdecimal 32%N = false.
Proof. apply plain_not_decimal; [now left | reflexivity]. Qed.

Lemma letter_o_not_space : isspace 111%N = false.
Proof. rewrite isspace_plain by now left. reflexivity. Qed.

Lemma rmatch_judge_me_fail (s : str) (g pos : nat) :
  match s with [] => True | c :: _ => isdecimal c = false end ->
  rmatch judge_me_re g s pos = None.
Proof. destruct s as [|c s]; simpl; [reflexivity|]. now intros ->. Qed.

Lemma search_judge_me_no_digit (s : str) :
  Forall (fun c => isdecimal c = false) s -> search judge_me_re s = None.
Proof.
  induction 1 as [|c s Hc Hs IH].
  - reflexivity.
  - cbn [search]. now rewrite rmatch_judge_me_fail.
Qed.

Lemma rmatch_judge_me (ds1 ds2 suf : str) (g : nat) :
  numeral ds1 -> numeral ds2 ->
  option_map snd
    (rmatch judge_me_re g (ds1 ++ utf8 " out of " ++ ds2 ++ suf) O)
  = Some (List.length ds1).
Proof.
  intros Hn1 Hn2.
  destruct (numeral_head ds1 Hn1) as (c1 & ds1' & -> & Hc1 & Hds1).
  destruct (numeral_head ds2 Hn2) as (c2 & ds2' & -> & Hc2 & Hds2).
  unfold judge_me_re.
  change (lit "out of")
    with [Cls (N.eqb 111) One; Cls (N.eqb 117) One; Cls (N.eqb 116) One;
          Cls (N.eqb 32) One; Cls (N.eqb 111) One; Cls (N.eqb 102) One].
  change (utf8 " out of ") with [32; 111; 117; 116; 32; 111; 102; 32]%N.
  cbn [app].
  rewrite rmatch_many1 by now apply digit_decimal.
  apply many_all_snd.
  { eapply Forall_impl; [|exact Hds1]. apply digit_decimal. }
  { right. exists 32%N. split; [reflexivity | apply blank_not_decimal]. }
  rewrite rmatch_opt_skip by reflexivity.
  rewrite rmatch_many, many_stop by apply blank_not_decimal.
  rewrite rmatch_group, rmatch_many.
  apply many_one_snd; [apply blank_space | apply letter_o_not_space |].
  rewrite !rmatch_one by reflexivity.
  rewrite rmatch_many.
  apply many_one_snd; [apply blank_space | now apply digit_not_space |].
  rewrite rmatch_many1 by now apply digit_decimal.
  rewrite many_end_snd. reflexivity.
Qed.

Lemma search_judge_me (pre ds1 ds2 suf : str) :
  Forall (fun c => isdecimal c = false) pre -> numeral ds1 -> numeral ds2 ->
  search judge_me_re (pre ++ ds1 ++ utf8 " out of " ++ ds2 ++ suf) = Some ds1.
Proof.
  intros Hpre Hn1 Hn2. induction Hpre as [|c pre Hc Hpre IH].
  - cbn [app]. pose proof (rmatch_judge_me ds1 ds2 suf O Hn1 Hn2) as Hm.
    destruct (numeral_head ds1 Hn1) as (c1 & ds1' & -> & _).
    cbn [app search] in *.
    destruct (rmatch judge_me_re 0 _ 0) as [[n g']|]; [|discriminate].
    cbn [option_map snd] in Hm. injection Hm as ->. f_equal.
    change (c1 :: ds1' ++ utf8 " out of " ++ ds2 ++ suf)
      with ((c1 :: ds1') ++ utf8 " out of " ++ ds2 ++ suf).
    exact (firstn_length_app (c1 :: ds1') _).
  - cbn [app search]. now rewrite rmatch_judge_me_fail.
Qed.
End JudgeMeFacts.

(** X8: a Judge.me rating text without a decimal digit is rated 5, star
    glyphs or not: the text is replaced by "5" before it is normalised. *)
Theorem judge_me_without_number_is_5 `{Unicode} (rating_text : str) :
  contains (utf8 "judge.me") (lower rating_text) = true ->
  Forall (fun c => isdecimal c = false) rating_text ->
  judge_me rating_text = utf8 "5"
  /\ parse_rating (judge_me rating_text) = Ok 5.
Proof.
  intros Hj Hd.
  assert (E : judge_me rating_text = utf8 "5").
  { unfold judge_me. now rewrite Hj, search_judge_me_no_digit. }
  split; [exact E|]. rewrite E. apply parse_rating_5.
Qed.

(** Three glyphs on a Judge.me widget. *)
Lemma judge_me_without_number_is_5_witness :
  parse_rating (judge_me (utf8 "★★★ Judge.me")) = Ok 5
  /\ parse_rating (utf8 "★★★ Judge.me") = Ok 3.
Proof.
  split.
  - apply (judge_me_without_number_is_5 (utf8 "★★★ Judge.me")).
    + vm_compute. reflexivity.
    + apply no_decimal_check. vm_compute. reflexivity.
  - vm_compute. reflexivity.
Defined.

(** X9: in a Judge.me rating text whose first number is a numeral N
    followed by " out of " and a numeral M, only N is kept: the record is
    rated like the text N alone, and the scale M plays no part. *)
Theorem judge_me_scale_is_dropped `{Unicode} (pre ds1 ds2 suf : str) :
  let rating_text := pre ++ ds1 ++ utf8 " out of " ++ ds2 ++ suf in
  contains (utf8 "judge.me") (lower rating_text) = true ->
  Forall (fun c => isdecimal c = false) pre ->
  numeral ds1 -> numeral ds2 ->
  judge_me rating_text = ds1
  /\ parse_rating (judge_me rating_text) = parse_rating ds1.
Proof.
  intros rating_text Hj Hpre Hn1 Hn2.
  assert (E : judge_me rating_text = ds1).
  { unfold judge_me. rewrite Hj. subst rating_text.
    now rewrite search_judge_me. }
  split; [exact E | now rewrite E].
Qed.

(** "3 out of 10" on a Judge.me widget is rated 3; without the widget's
    name the same numbers are rated 2. *)
Lemma judge_me_scale_is_dropped_witness :
  parse_rating (judge_me (utf8 "Judge.me: 3 out of 10 stars")) = Ok 3
  /\ parse_rating (utf8 "3 out of 10") = Ok 2.
Proof.
  split.
  - pose proof (@judge_me_scale_is_dropped ascii_unicode (utf8 "Judge.me: ")
                  (utf8 "3") (utf8 "10") (utf8 " stars")) as Hj.
    cbv zeta in Hj. destruct Hj as [_ Hj].
    + vm_compute. reflexivity.
    + apply no_decimal_check. vm_compute. reflexivity.
    + split; [discriminate | repeat constructor].
    + split; [discriminate | repeat constructor].
    + etransitivity; [exact Hj | vm_compute; reflexivity].
  - vm_compute. reflexivity.
Defined.

(** ** Further properties of [get_next_page_url] *)

Section NextPageFacts.
Context `{Unicode} `{Selenium}.

Lemma first_next_skips (before rest : list web_element) :
  Forall not_next before -> first_next (before ++ rest) = first_next rest.
Proof.
  induction 1 as [|b before (t & Ht & Hn) Hb IH]; [reflexivity|].
  cbn [app first_next]. rewrite Ht. cbn [bind].
  unfold says_next in Hn. now rewrite Hn.
Qed.
End NextPageFacts.

(** X10: the link that is followed is the first pagination element whose
    lowered text contains "next", "›", "»" or "forward": the result is its
    [href] attribute ([None] when reading the attribute raises), whatever
    elements come after it. *)
Theorem first_matching_link_wins `{Unicode} `{Selenium}
        (d : browser) (selectors : ReviewSelectors.t)
        (before after : list web_element) (e : web_element) (t : str) :
  find_elements d (ReviewSelectors.pagination selectors)
  = Ok (before ++ e :: after) ->
  Forall not_next before ->
  element_text e = Ok t -> says_next t = true ->
  get_next_page_url d selectors
  = match get_attribute e (utf8 "href") with Ok r => r | Raise _ => None end.
Proof.
  intros Hf Hb Ht Hn. unfold get_next_page_url. rewrite Hf. cbn [bind].
  rewrite first_next_skips by assumption.
  cbn [first_next]. rewrite Ht. cbn [bind].
  unfold says_next in Hn. now rewrite Hn.
Qed.

(** The links of the first page of the site of two pages: "1", then
    "Next »". *)
Lemma first_matching_link_wins_witness :
  @get_next_page_url ascii_unicode (Demo.selenium Demo.two_pages)
    {| Demo.source := []; Demo.document := Demo.Elem [] [];
       Demo.links := [(utf8 "1", Some Demo.url1);
                      (utf8 "Next »", Some Demo.url2);
                      (utf8 "Forward", Some Demo.url1)] |}
    get_default_selectors
  = Some Demo.url2.
Proof.
  apply (@first_matching_link_wins ascii_unicode (Demo.selenium Demo.two_pages)
           _ get_default_selectors
           [(utf8 "1", Some Demo.url1)]
           [(utf8 "Forward", Some Demo.url1)]
           (utf8 "Next »", Some Demo.url2) (utf8 "Next »")).
  - reflexivity.
  - constructor; [|constructor]. exists (utf8 "1"). split; reflexivity.
  - reflexivity.
  - vm_compute. reflexivity.
Defined.

(** X11: [get_next_page_url] gives [None] when the pagination elements
    cannot be found, when none of them reads as a link to the next page,
    and when the text of an element cannot be read before such a link is
    met, even if a later element is one. *)
Theorem no_next_page `{Unicode} `{Selenium}
        (d : browser) (selectors : ReviewSelectors.t) :
  (forall e, find_elements d (ReviewSelectors.pagination selectors) = Raise e ->
     get_next_page_url d selectors = None)
  /\ (forall elements,
        find_elements d (ReviewSelectors.pagination selectors) = Ok elements ->
        Forall not_next elements ->
        get_next_page_url d selectors = None)
  /\ (forall before b after e,
        find_elements d (ReviewSelectors.pagination selectors)
        = Ok (before ++ b :: after) ->
        Forall not_next before ->
        element_text b = Raise e ->
        get_next_page_url d selectors = None).
Proof.
  split; [|split].
  - intros e Hf. unfold get_next_page_url. now rewrite Hf.
  - intros elements Hf Hn. unfold get_next_page_url. rewrite Hf. cbn [bind].
    rewrite <- (app_nil_r elements). now rewrite first_next_skips.
  - intros before b after e Hf Hb Hr. unfold get_next_page_url.
    rewrite Hf. cbn [bind]. rewrite first_next_skips by assumption.
    cbn [first_next]. now rewrite Hr.
Qed.

(** The links of the second page of the site of two pages: only "1". *)
Lemma no_next_page_witness :
  @get_next_page_url ascii_unicode (Demo.selenium Demo.two_pages)
    {| Demo.source := []; Demo.document := Demo.Elem [] [];
       Demo.links := [(utf8 "1", Some Demo.url1)] |}
    get_default_selectors
  = None.
Proof.
  refine (proj1 (proj2 (@no_next_page ascii_unicode
                          (Demo.selenium Demo.two_pages) _
                          get_default_selectors)) _ eq_refl _).
  constructor; [|constructor]. exists (utf8 "1"). split; reflexivity.
Defined.

(** ** Further properties of [get_reviews] *)

Lemma gets_app (tr1 tr2 : list event) : gets (tr1 ++ tr2) = gets tr1 + gets tr2.
Proof. unfold gets. rewrite filter_app, length_app. lia. Qed.

Lemma gets_all (tr : list event) :
  Forall (fun e => is_get e = true) tr -> gets tr = Z.of_nat (List.length tr).
Proof.
  intros Htr. unfold gets. f_equal. f_equal.
  induction Htr as [|e tr He Htr IH]; [reflexivity|].
  cbn [filter]. now rewrite He, IH.
Qed.

Lemma str_eqb_refl (s : str) : str_eqb s s = true.
Proof.
  unfold str_eqb. rewrite Nat.eqb_refl.
  rewrite <- (app_nil_r s) at 2. apply startswith_app.
Qed.

Section CrawlEventFacts.
Context `{Unicode} `{Bs4} `{Selenium}.

Lemma extract_reviews_returns (html : str) (selectors : ReviewSelectors.t) :
  exists reviews, extract_reviews_with_selectors html selectors = Ok reviews.
Proof.
  unfold extract_reviews_with_selectors. destruct (_ <- _ ;; _); eauto.
Qed.

(** The loop adds only [driver.get] events, at most one for each page
    that the counter still allows. *)
Lemma crawl_loop_events (n : nat) (max_pages : Z)
      (selectors : ReviewSelectors.t) (st : crawl_state) :
  exists tr,
    end_trace (crawl_loop n max_pages selectors st) = trace st ++ tr
    /\ Forall (fun e => is_get e = true) tr
    /\ Z.of_nat (List.length tr) <= Z.max 0 (max_pages - page_count st).
Proof.
  revert st. induction n as [|n IH]; intros st; cbn [crawl_loop].
  - destruct (truthy (current_url st) && (page_count st <? max_pages));
      exists []; cbn [end_trace trace List.length]; rewrite app_nil_r;
      repeat split; auto; lia.
  - destruct (truthy (current_url st) && (page_count st <? max_pages)) eqn:G.
    2:{ exists []. cbn [end_trace trace List.length]. rewrite app_nil_r.
        repeat split; auto; lia. }
    apply andb_prop in G as [_ G%Z.ltb_lt].
    destruct (_ <- _ ;; _) as [reviews|e].
    2:{ exists []. cbn [end_trace trace List.length]. rewrite app_nil_r.
        repeat split; auto; lia. }
    destruct (get_next_page_url (driver st) selectors) as [next_url|].
    2:{ exists []. cbn [end_trace trace List.length]. rewrite app_nil_r.
        repeat split; auto; lia. }
    destruct (negb (truthy next_url) || str_eqb next_url (current_url st)).
    { exists []. cbn [end_trace trace List.length]. rewrite app_nil_r.
      repeat split; auto; lia. }
    destruct (driver_get (driver st) next_url) as [driver'|e].
    + match goal with
      | |- context [crawl_loop n max_pages selectors ?s] =>
          destruct (IH s) as (tr & Ht & Hg & Hl)
      end.
      cbn [trace page_count] in Ht, Hl.
      exists (EvGet next_url true :: tr). rewrite Ht, <- app_assoc.
      split; [reflexivity|]. split; [now constructor|].
      cbn [List.length]. lia.
    + exists [EvGet next_url false]. cbn [end_trace trace].
      split; [reflexivity|]. split; [now repeat constructor|].
      cbn [List.length]. lia.
Qed.

(** When [driver.page_source] never raises, the loop is left and throws
    nothing. *)
Lemma crawl_loop_returns (n : nat) (max_pages : Z)
      (selectors : ReviewSelectors.t) (st : crawl_state) :
  (forall d, exists html, page_source d = Ok html) ->
  exists st', crawl_loop n max_pages selectors st = Left st'.
Proof.
  intros Hps. revert st. induction n as [|n IH]; intros st; cbn [crawl_loop].
  - destruct (_ && _); eauto.
  - destruct (_ && _); [|eauto].
    destruct (Hps (driver st)) as [html ->]. cbn [bind].
    destruct (extract_reviews_returns html selectors) as [reviews ->].
    destruct (get_next_page_url (driver st) selectors) as [next_url|]; [|eauto].
    destruct (_ || _); [eauto|].
    destruct (driver_get (driver st) next_url); eauto.
Qed.

(** What holds of every extracted record holds of every collected one. *)
Lemma crawl_loop_reviews (Q : Review.t -> Prop) (n : nat) (max_pages : Z)
      (selectors : ReviewSelectors.t) (st st' : crawl_state) :
  (forall html reviews,
      extract_reviews_with_selectors html selectors = Ok reviews ->
      Forall Q reviews) ->
  Forall Q (all_reviews st) ->
  crawl_loop n max_pages selectors st = Left st' ->
  Forall Q (all_reviews st').
Proof.
  intros Hex. revert st. induction n as [|n IH]; intros st Hst; cbn [crawl_loop].
  - destruct (_ && _); now intros [= <-].
  - destruct (_ && _); [|now intros [= <-]].
    destruct (page_source (driver st)) as [html|]; cbn [bind]; [|discriminate].
    destruct (extract_reviews_with_selectors html selectors) as [reviews|] eqn:Ex;
      [|discriminate].
    assert (Hall : Forall Q (all_reviews st ++ reviews)).
    { apply Forall_app. split; [assumption | now apply (Hex html)]. }
    destruct (get_next_page_url (driver st) selectors) as [next_url|];
      [|now intros [= <-]].
    destruct (_ || _); [now intros [= <-]|].
    destruct (driver_get (driver st) next_url); [|now intros [= <-]].
    apply IH. exact Hall.
Qed.

Lemma extract_review_rating (c : tag) (selectors : ReviewSelectors.t)
      (r : Review.t) :
  extract_review c selectors = Ok r -> 1 <= Review.rating r.
Proof.
  unfold extract_review.
  destruct (select_field c (ReviewSelectors.title selectors)); [|discriminate].
  cbn [bind].
  destruct (select_field c (ReviewSelectors.rating selectors)); [|discriminate].
  cbn [bind].
  destruct (parse_rating _) as [rating|] eqn:Ep; [|discriminate]. cbn [bind].
  destruct (select_field c (ReviewSelectors.body selectors)); [|discriminate].
  destruct (select_field c (ReviewSelectors.reviewer selectors)); [|discriminate].
  destruct (select_field c (ReviewSelectors.date selectors)); [|discriminate].
  cbn [bind]. intros [= <-]. cbn [Review.rating].
  apply parse_rating_range in Ep. lia.
Qed.

Lemma extracted_ratings (html : str) (selectors : ReviewSelectors.t)
      (reviews : list Review.t) :
  extract_reviews_with_selectors html selectors = Ok reviews ->
  Forall (fun r => 1 <= Review.rating r) reviews.
Proof.
  unfold extract_reviews_with_selectors.
  destruct (BeautifulSoup html) as [sp|]; cbn [bind].
  2:{ intros [= <-]. constructor. }
  destruct (select sp (ReviewSelectors.container selectors)) as [containers|];
    cbn [bind].
  2:{ intros [= <-]. constructor. }
  intros [= <-]. rewrite extract_loop_flat_map. cbn [app].
  apply Forall_flat_map, Forall_forall. intros c _. unfold kept.
  destruct (extract_review c selectors) as [r|] eqn:E; [|constructor].
  constructor; [|constructor]. now apply (extract_review_rating c selectors).
Qed.
End CrawlEventFacts.

(** X12: whenever the browser was started, [get_reviews] ends by quitting
    it: the events are the navigation to the start URL, then further
    navigations, then [driver.quit()], once and last.  When the browser
    cannot be started there is no event.  Every failure reaches the caller
    as an [HTTPException]. *)
Theorem browser_is_always_quit `{Unicode} `{Bs4} `{Selenium}
        (url : str) (max_pages : Z) :
  (forall e, snd (get_reviews url max_pages) = Raise e -> e = HTTPException)
  /\ (forall e, Chrome = Raise e ->
        get_reviews url max_pages = ([], Raise HTTPException))
  /\ (forall d, Chrome = Ok d ->
        exists completed tr',
          fst (get_reviews url max_pages)
          = EvGet url completed :: tr' ++ [EvQuit]
          /\ Forall (fun e => is_get e = true) tr').
Proof.
  unfold get_reviews, setup_driver. split; [|split].
  - intros e. destruct Chrome as [driver0|]; [|now intros [= <-]].
    destruct (driver_get driver0 url) as [driver1|]; [|now intros [= <-]].
    destruct (wait_for_body driver1); [|now intros [= <-]].
    destruct (crawl_loop _ _ _ _); [discriminate | now intros [= <-]].
  - intros e ->. reflexivity.
  - intros d ->.
    destruct (driver_get d url) as [driver1|].
    2:{ exists false, []. split; [reflexivity | constructor]. }
    destruct (wait_for_body driver1).
    2:{ exists true, []. split; [reflexivity | constructor]. }
    match goal with
    | |- context [crawl_loop ?n max_pages ?sel ?s] =>
        destruct (crawl_loop_events n max_pages sel s) as (tr & Ht & Hg & _);
        destruct (crawl_loop n max_pages sel s) as [st|e tr0]
    end; cbn [end_trace trace fst] in *; rewrite Ht; exists true, tr; auto.
Qed.

(** On the site of two pages. *)
Lemma browser_is_always_quit_witness :
  exists completed tr',
    fst (Demo.run Demo.two_pages Demo.url1 5)
    = EvGet Demo.url1 completed :: tr' ++ [EvQuit]
    /\ Forall (fun e => is_get e = true) tr'.
Proof.
  refine (proj2 (proj2 (@browser_is_always_quit ascii_unicode
                          (Demo.bs4 Demo.two_pages)
                          (Demo.selenium Demo.two_pages) Demo.url1 5))
            _ eq_refl).
Defined.

(** X13: [get_reviews] calls [driver.get] at most [max_pages + 1] times
    (once when [max_pages] is not positive), whether it returns or raises;
    in a result, [reviews_count] is the length of [reviews] and
    [pages_processed] is between 1 and [max_pages + 1]. *)
Theorem crawl_is_bounded `{Unicode} `{Bs4} `{Selenium}
        (url : str) (max_pages : Z) :
  gets (fst (get_reviews url max_pages)) <= Z.max max_pages 0 + 1
  /\ forall res,
       snd (get_reviews url max_pages) = Ok res ->
       reviews_count res = Z.of_nat (List.length (reviews res))
       /\ 1 <= pages_processed res <= Z.max max_pages 0 + 1.
Proof.
  split.
  - unfold get_reviews.
    destruct setup_driver as [driver0|]; [|cbn; lia].
    destruct (driver_get driver0 url) as [driver1|]; [|cbn; lia].
    destruct (wait_for_body driver1); [|cbn; lia].
    match goal with
    | |- context [crawl_loop ?n max_pages ?sel ?s] =>
        destruct (crawl_loop_events n max_pages sel s) as (tr & Ht & Hg & Hl);
        destruct (crawl_loop n max_pages sel s) as [st|e tr0]
    end; cbn [end_trace trace fst page_count] in *; rewrite Ht;
      rewrite <- app_assoc, !gets_app, (gets_all tr Hg);
      change (gets [EvGet url true]) with 1; change (gets [EvQuit]) with 0; lia.
  - intros res Hres. split.
    + revert Hres. unfold get_reviews.
      destruct setup_driver as [driver0|]; [|discriminate].
      destruct (driver_get driver0 url) as [driver1|]; [|discriminate].
      destruct (wait_for_body driver1); [|discriminate].
      destruct (crawl_loop _ _ _ _); [|discriminate].
      now intros [= <-].
    + destruct (get_reviews url max_pages) as [tr r] eqn:E. cbn [snd] in Hres.
      subst r. exact (pages_processed_bound url max_pages tr res E).
Qed.

(** On the site of two pages with [max_pages = 1]: two calls. *)
Lemma crawl_is_bounded_witness :
  gets (fst (Demo.run Demo.two_pages Demo.url1 1)) <= 2
  /\ gets (fst (Demo.run Demo.two_pages Demo.url1 1)) = 2.
Proof.
  split.
  - exact (proj1 (@crawl_is_bounded ascii_unicode (Demo.bs4 Demo.two_pages)
                    (Demo.selenium Demo.two_pages) Demo.url1 1)).
  - vm_compute. reflexivity.
Defined.

(** X14: once the browser has started and loaded the start page,
    [get_reviews] returns a result as long as [driver.page_source] does
    not raise: a document that cannot be parsed, pagination elements that
    cannot be found or read, and a next page that cannot be loaded do not
    make the request fail. *)
Theorem crawl_survives_page_failures `{Unicode} `{Bs4} `{Selenium}
        (url : str) (max_pages : Z) (driver0 driver1 : browser) :
  Chrome = Ok driver0 ->
  driver_get driver0 url = Ok driver1 ->
  wait_for_body driver1 = Ok tt ->
  (forall d, exists html, page_source d = Ok html) ->
  exists res, snd (get_reviews url max_pages) = Ok res.
Proof.
  intros Hc Hg Hw Hps. unfold get_reviews, setup_driver. rewrite Hc, Hg, Hw.
  match goal with
  | |- context [crawl_loop ?n max_pages ?sel ?s] =>
      destruct (crawl_loop_returns n max_pages sel s Hps) as [st' ->]
  end.
  cbn [snd]. eexists. reflexivity.
Qed.

(** A "Next" link to a URL that cannot be loaded: the reviews of the
    start page are returned. *)
Lemma crawl_survives_page_failures_witness :
  (exists res, snd (Demo.run dead_link Demo.url1 5) = Ok res)
  /\ fst (Demo.run dead_link Demo.url1 5)
     = [EvGet Demo.url1 true;
        EvGet (utf8 "https://shop.example/gone") false; EvQuit]
  /\ map Review.title (reviews_of (snd (Demo.run dead_link Demo.url1 5)))
     = [utf8 "Great"].
Proof.
  split; [|split; vm_compute; reflexivity].
  eapply (@crawl_survives_page_failures ascii_unicode (Demo.bs4 dead_link)
            (Demo.selenium dead_link) Demo.url1 5).
  - reflexivity.
  - reflexivity.
  - reflexivity.
  - intros d. eexists. reflexivity.
Defined.

(** X15: when the page shows no link to a next page, or the link is empty
    or leads to the page itself, the crawl ends there: nothing more is
    loaded, and the result holds the reviews of the start page with
    [pages_processed = 1]. *)
Theorem crawl_ends_without_new_link `{Unicode} `{Bs4} `{Selenium}
        (url : str) (max_pages : Z) (driver0 driver1 : browser)
        (html : str) (found : list Review.t) :
  Chrome = Ok driver0 ->
  driver_get driver0 url = Ok driver1 ->
  wait_for_body driver1 = Ok tt ->
  url <> [] -> 1 <= max_pages ->
  page_source driver1 = Ok html ->
  extract_reviews_with_selectors html get_default_selectors = Ok found ->
  get_next_page_url driver1 get_default_selectors = None
  \/ get_next_page_url driver1 get_default_selectors = Some []
  \/ get_next_page_url driver1 get_default_selectors = Some url ->
  get_reviews url max_pages
  = ([EvGet url true; EvQuit],
     Ok {| reviews_count := Z.of_nat (List.length found);
           pages_processed := 1;
           reviews := found |}).
Proof.
  intros Hc Hg Hw Hu Hm Hps Hex Hnext.
  unfold get_reviews, setup_driver. rewrite Hc, Hg, Hw.
  destruct (Z.to_nat max_pages) as [|n] eqn:En; [lia|].
  cbn [crawl_loop current_url page_count driver all_reviews trace].
  replace (0 <? max_pages) with true by (symmetry; apply Z.ltb_lt; lia).
  destruct url as [|c url']; [contradiction|]. cbn [truthy andb].
  rewrite Hps. cbn [bind]. rewrite Hex.
  destruct Hnext as [-> | [-> | ->]]; [reflexivity | reflexivity |].
  rewrite str_eqb_refl, orb_true_r. reflexivity.
Qed.

(** A "Next" link that leads to the page itself. *)
Lemma crawl_ends_without_new_link_witness :
  exists found,
    Demo.run self_link Demo.url1 5
    = ([EvGet Demo.url1 true; EvQuit],
       Ok {| reviews_count := Z.of_nat (List.length found);
             pages_processed := 1;
             reviews := found |})
    /\ map Review.title found = [utf8 "Great"].
Proof.
  eexists. split.
  - eapply (@crawl_ends_without_new_link ascii_unicode (Demo.bs4 self_link)
              (Demo.selenium self_link) Demo.url1 5).
    + reflexivity.
    + reflexivity.
    + reflexivity.
    + discriminate.
    + lia.
    + reflexivity.
    + vm_compute. reflexivity.
    + right. right. vm_compute. reflexivity.
  - reflexivity.
Defined.

(** X16: no record has a rating below 1: neither a record that
    [extract_reviews_with_selectors] returns nor a record in the result of
    [get_reviews]. *)
Theorem ratings_are_at_least_1 `{Unicode} `{Bs4} `{Selenium}
        (url : str) (max_pages : Z) :
  (forall html selectors found,
      extract_reviews_with_selectors html selectors = Ok found ->
      Forall (fun r => 1 <= Review.rating r) found)
  /\ (forall res,
        snd (get_reviews url max_pages) = Ok res ->
        Forall (fun r => 1 <= Review.rating r) (reviews res)).
Proof.
  split; [exact extracted_ratings|].
  intros res. unfold get_reviews.
  destruct setup_driver as [driver0|]; [|discriminate].
  destruct (driver_get driver0 url) as [driver1|]; [|discriminate].
  destruct (wait_for_body driver1); [|discriminate].
  destruct (crawl_loop _ _ _ _) as [st|] eqn:El; [|discriminate].
  intros [= <-]. cbn [reviews].
  refine (crawl_loop_reviews _ _ _ _ _ _ _ _ El).
  - intros html found. apply extracted_ratings.
  - constructor.
Qed.

(** On the site of two pages. *)
Lemma ratings_are_at_least_1_witness :
  Forall (fun r => 1 <= Review.rating r)
         (reviews_of (snd (Demo.run Demo.two_pages Demo.url1 5))).
Proof.
  destruct (snd (Demo.run Demo.two_pages Demo.url1 5)) as [res|] eqn:E;
    [|constructor].
  exact (proj2 (@ratings_are_at_least_1 ascii_unicode (Demo.bs4 Demo.two_pages)
                  (Demo.selenium Demo.two_pages) Demo.url1 5) res E).
Defined.

(** ** [get_llm_selectors] *)



Lemma firstn_firstn_same {A} (n : nat) (l : list A) :
  firstn n (firstn n l) = firstn n l.
Proof. rewrite firstn_firstn. now rewrite Nat.min_id. Qed.

Lemma prompt_firstn (html_sample url : str) :
  prompt (firstn 2000 html_sample) url = prompt html_sample url.
Proof. unfold prompt. now rewrite firstn_firstn_same. Qed.

(** X18: only the first 2000 characters of the sample reach the language
    model: the prompt, and with it the requests and the result, are those
    of the sample cut to 2000 characters, and the prompt is at most 2000
    characters longer than the prompt of the empty sample. *)
Theorem sample_is_cut_to_2000 `{Httpx} (html_sample url : str) :
  get_llm_selectors html_sample url
  = get_llm_selectors (firstn 2000 html_sample) url
  /\ (List.length (prompt html_sample url)
      <= List.length (prompt [] url) + 2000)%nat
  /\ ((List.length html_sample <= 2000)%nat ->
      exists before after,
        prompt html_sample url = before ++ html_sample ++ after).
Proof.
  split; [|split].
  - unfold get_llm_selectors, ask_model. now rewrite prompt_firstn.
  - unfold prompt. remember 2000%nat as k eqn:Ek. clear Ek.
    rewrite firstn_nil, !length_app.
    pose proof (firstn_le_length k html_sample) as Hl.
    change (List.length (@nil N)) with O. lia.
  - intros Hl. unfold prompt. rewrite firstn_all2 by assumption.
    exists (utf8 "Analyze this HTML from " ++ url
            ++ utf8 " and identify the CSS selectors for review elements."
            ++ [10%N]
            ++ utf8 "    Return only a JSON object with these keys: container, title, rating, body, reviewer, date, pagination."
            ++ [10%N]
            ++ utf8 "    Each value should be a CSS selector string or null if not found."
            ++ [10%N]
            ++ utf8 "    Sample HTML:" ++ [10%N] ++ utf8 "    ").
    exists (utf8 "  # Send first 2000 chars as sample" ++ [10%N] ++ utf8 "    ").
    now rewrite <- !app_assoc.
Qed.

(** A sample of 2001 characters: the last one is not sent. *)
Lemma sample_is_cut_to_2000_witness :
  @get_llm_selectors (ollama true 200 None) (repeat 97%N 2000 ++ [98%N])
    Demo.url1
  = @get_llm_selectors (ollama true 200 None) (repeat 97%N 2000) Demo.url1
  /\ exists before after,
       prompt (utf8 "<p>ok</p>") Demo.url1
       = before ++ utf8 "<p>ok</p>" ++ after.
Proof.
  split.
  - rewrite (proj1 (@sample_is_cut_to_2000 (ollama true 200 None)
                      (repeat 97%N 2000 ++ [98%N]) Demo.url1)).
    replace (firstn 2000 (repeat 97%N 2000 ++ [98%N]))
      with (repeat 97%N 2000) by (vm_compute; reflexivity).
    reflexivity.
  - apply (proj2 (proj2 (@sample_is_cut_to_2000
                           (ollama true 200 None) (utf8 "<p>ok</p>") Demo.url1))).
    apply Nat.leb_le. vm_compute. reflexivity.
Defined.

(** ** Further properties of the record extractor *)

Section StrippedFacts.
Context `{Unicode}.

Lemma lstrip_head (s : str) :
  match lstrip s with [] => True | c :: _ => isspace c = false end.
Proof.
  induction s as [|c s IH]; [exact I|].
  cbn [lstrip]. destruct (isspace c) eqn:E; [exact IH | exact E].
Qed.

(** [strip] leaves nothing to strip. *)
Lemma strip_strip (s : str) : strip (strip s) = strip s.
Proof.
  unfold strip at 2 3. pose proof (lstrip_head s) as Hh.
  destruct (lstrip s) as [|a u]; [reflexivity|].
  unfold rstrip. cbn [rev]. rewrite lstrip_app.
  pose proof (lstrip_head (rev u)) as Hw.
  assert (E : match lstrip (rev u) with
              | [] => lstrip [a]
              | c :: l => (c :: l) ++ [a]
              end = lstrip (rev u) ++ [a]).
  { destruct (lstrip (rev u)); [|reflexivity]. cbn [lstrip app]. now rewrite Hh. }
  rewrite E, rev_app_distr. cbn [rev app].
  destruct (lstrip (rev u)) as [|b w] eqn:Ew.
  - apply (strip_id _ a a); auto.
  - apply (strip_id _ a b); auto.
    cbn [rev]. rewrite rev_app_distr, rev_involutive. reflexivity.
Qed.

Lemma strip_Review : strip (utf8 "Review") = utf8 "Review".
Proof.
  apply (strip_id _ 82%N 119%N); try reflexivity;
    rewrite isspace_plain by (now left); reflexivity.
Qed.

Lemma strip_Anonymous : strip (utf8 "Anonymous") = utf8 "Anonymous".
Proof.
  apply (strip_id _ 65%N 115%N); try reflexivity;
    rewrite isspace_plain by (now left); reflexivity.
Qed.
End StrippedFacts.

(** X19: the texts of a record have no white space at either end: its
    title, its body, its reviewer and its date, when it has one, are not
    changed by [strip]. *)
Theorem record_texts_are_stripped `{Unicode} `{Bs4}
        (c : tag) (selectors : ReviewSelectors.t) (r : Review.t) :
  extract_review c selectors = Ok r ->
  strip (Review.title r) = Review.title r
  /\ strip (Review.body r) = Review.body r
  /\ strip (Review.reviewer r) = Review.reviewer r
  /\ match Review.date r with Some d => strip d = d | None => True end.
Proof.
  unfold extract_review.
  destruct (select_field c (ReviewSelectors.title selectors)) as [te|];
    [|discriminate].
  cbn [bind].
  destruct (select_field c (ReviewSelectors.rating selectors)) as [re|];
    [|discriminate].
  cbn [bind].
  destruct (parse_rating _) as [rating|]; [|discriminate]. cbn [bind].
  destruct (select_field c (ReviewSelectors.body selectors)) as [be|];
    [|discriminate].
  destruct (select_field c (ReviewSelectors.reviewer selectors)) as [ue|];
    [|discriminate].
  destruct (select_field c (ReviewSelectors.date selectors)) as [de|];
    [|discriminate].
  cbn [bind]. intros [= <-].
  cbn [Review.title Review.body Review.reviewer Review.date].
  repeat split.
  - destruct te; cbn [text_or id]; [apply strip_strip | apply strip_Review].
  - destruct be; cbn [text_or id]; apply strip_strip.
  - destruct ue; cbn [text_or id]; [apply strip_strip | apply strip_Anonymous].
  - destruct de; cbn [text_or]; [apply strip_strip | exact I].
Qed.

(** A container whose text has blanks around it and that has no field
    element. *)
Lemma record_texts_are_stripped_witness :
  @strip ascii_unicode (utf8 "Plain text") = utf8 "Plain text".
Proof.
  refine (proj1 (proj2 (@record_texts_are_stripped ascii_unicode (Demo.bs4 [])
                          (Demo.Elem (utf8 " Plain text ") [])
                          get_default_selectors
                          {| Review.title := utf8 "Review";
                             Review.body := utf8 "Plain text";
                             Review.rating := 5;
                             Review.reviewer := utf8 "Anonymous";
                             Review.date := None |} _))).
  vm_compute. reflexivity.
Defined.

(** ** The order of the reviews *)

Section OrderFacts.
Context `{Unicode} `{Bs4} `{Selenium}.

(** The loop only adds reviews, after those it has. *)
Lemma crawl_loop_appends (n : nat) (max_pages : Z)
      (selectors : ReviewSelectors.t) (st st' : crawl_state) :
  crawl_loop n max_pages selectors st = Left st' ->
  exists more, all_reviews st' = all_reviews st ++ more.
Proof.
  revert st. induction n as [|n IH]; intros st; cbn [crawl_loop].
  - destruct (_ && _); intros [= <-]; exists []; now rewrite app_nil_r.
  - destruct (_ && _).
    2:{ intros [= <-]. exists []. now rewrite app_nil_r. }
    destruct (_ <- _ ;; _) as [reviews|e]; [|discriminate].
    destruct (get_next_page_url (driver st) selectors) as [next_url|].
    2:{ intros [= <-]. now exists reviews. }
    destruct (_ || _).
    { intros [= <-]. now exists reviews. }
    destruct (driver_get (driver st) next_url) as [driver'|e].
    2:{ intros [= <-]. now exists reviews. }
    intros Hl. apply IH in Hl as [more Hm]. cbn [all_reviews] in Hm.
    exists (reviews ++ more). now rewrite Hm, app_assoc.
Qed.
End OrderFacts.

(** X20: the reviews of the start page come first in the result, in the
    order of the extraction, and with [max_pages = 1] they are all there
    is. *)
Theorem start_page_reviews_come_first `{Unicode} `{Bs4} `{Selenium}
        (url : str) (max_pages : Z) (driver0 driver1 : browser)
        (html : str) (found : list Review.t) (res : crawl_result) :
  Chrome = Ok driver0 ->
  driver_get driver0 url = Ok driver1 ->
  page_source driver1 = Ok html ->
  extract_reviews_with_selectors html get_default_selectors = Ok found ->
  url <> [] -> 1 <= max_pages ->
  snd (get_reviews url max_pages) = Ok res ->
  exists more,
    reviews res = found ++ more /\ (max_pages = 1 -> more = []).
Proof.
  intros Hc Hg Hps Hex Hu Hm. unfold get_reviews, setup_driver.
  rewrite Hc, Hg.
  destruct (wait_for_body driver1); [|discriminate].
  destruct (Z.to_nat max_pages) as [|n] eqn:En; [lia|].
  cbn [crawl_loop current_url page_count driver all_reviews trace].
  replace (0 <? max_pages) with true by (symmetry; apply Z.ltb_lt; lia).
  destruct url as [|c0 url']; [contradiction|]. cbn [truthy andb].
  rewrite Hps. cbn [bind]. rewrite Hex. cbn [app].
  destruct (get_next_page_url driver1 get_default_selectors) as [next_url|].
  2:{ cbn [snd]. intros [= <-]. exists []. cbn [reviews all_reviews].
      now rewrite app_nil_r. }
  destruct (_ || _).
  { cbn [snd]. intros [= <-]. exists []. cbn [reviews all_reviews].
    now rewrite app_nil_r. }
  destruct (driver_get driver1 next_url) as [driver2|].
  2:{ cbn [snd]. intros [= <-]. exists []. cbn [reviews all_reviews].
      now rewrite app_nil_r. }
  destruct (crawl_loop n max_pages _ _) as [st|] eqn:El; [|discriminate].
  cbn [snd]. intros [= <-]. cbn [reviews].
  pose proof (crawl_loop_appends _ _ _ _ _ El) as [more Hmore].
  cbn [all_reviews] in Hmore. exists more. split; [exact Hmore|].
  intros ->. apply crawl_loop_left in El as (_ & _ & _ & _ & Hsame).
  cbn [page_count] in Hsame. specialize (Hsame ltac:(lia)). subst st.
  cbn [all_reviews] in Hmore.
  apply (app_inv_head found). now rewrite app_nil_r.
Qed.

(** The crawl of the two pages: the three reviews of the first page, then
    those of the second. *)
Lemma start_page_reviews_come_first_witness :
  exists more,
    map Review.title (reviews_of (snd (Demo.run Demo.two_pages Demo.url1 5)))
    = [utf8 "Great"; utf8 "Fine"; utf8 "Poor"] ++ map Review.title more.
Proof.
  destruct (snd (Demo.run Demo.two_pages Demo.url1 5)) as [res|] eqn:E.
  2:{ vm_compute in E. discriminate. }
  destruct (@start_page_reviews_come_first ascii_unicode
              (Demo.bs4 Demo.two_pages) (Demo.selenium Demo.two_pages)
              Demo.url1 5 _ _ (utf8 "<html>page 1</html>") _ res
              eq_refl eq_refl eq_refl eq_refl)
    as (more & Hmore & _).
  - discriminate.
  - lia.
  - exact E.
  - exists more. cbn [reviews_of]. rewrite Hmore, map_app. f_equal.
Defined.

(** ** Further properties of the scale rules *)


